(** * NikonRFA: the serial driver of the Nikon Remote Focus Accessory

    A shallow embedding of [nikonrfa/rfa.py] (class [NikonRFA]) and the
    properties of its command/reply layer.

    Modelling conventions.
    - Python [str] is [string]; the bytes that travel on the serial line are
      [ascii] values (8 bits), so a byte above 127 can be represented and
      makes [decode("ascii")] raise.
    - Python [int] is [Z]; Python [float] is an IEEE binary64 value, taken
      from the Standard Library's [SpecFloat] with [prec = 53] and
      [emax = 1024].  The conversions between an int and its decimal text
      ([int], [str], [format]) raise [ValueError] beyond 4300 digits, the
      interpreter's default limit.
    - An attribute of the instance is an [option]: [None] means that the
      attribute has not been assigned (reading it raises [AttributeError]).
    - The serial line is scripted: every [write] makes the device queue its
      next reply, a list of read events; each [read(1)] consumes one event,
      which says how long the call took and which byte, if any, it returned.
    - [time.time()] reads an ideal clock, in seconds, kept as a rational.
    - A log record keeps the message as the source writes it and, for a
      message built with [format], the values of its braces.
    - Three pieces of the source that are written inline get a name here:
      [device_units] for [int(round(um*self._units_per_um))], [microns] for
      [int(reply) / self._units_per_um] once the reply is an int, and
      [find_port] for the search of [__init__] up to [serial.Serial].
    - [serial.Serial(port, timeout=timeout)] is [Serial_]: it refuses a
      negative timeout and otherwise creates [serial_object]. *)

From Stdlib Require Import ZArith QArith Qround Qabs Qpower List String Ascii Bool Lia Lqa.
From Stdlib Require Import DecimalString.
From Stdlib Require DecimalPos.
From Stdlib Require Import Floats.SpecFloat.
Import ListNotations.

Local Open Scope Z_scope.

(* ===================================================================== *)
(** ** Python strings and integers *)
(* ===================================================================== *)

Module Py.

(** [s[start:stop]] for a string, with Python's treatment of negative and
    out-of-range indices. *)
Definition norm_index (len i : Z) : Z :=
  if i <? 0 then Z.max 0 (len + i) else Z.min i len.

Definition slice (s : string) (start stop : Z) : string :=
  let len := Z.of_nat (String.length s) in
  let lo := norm_index len start in
  let hi := norm_index len stop in
  substring (Z.to_nat lo) (Z.to_nat (hi - lo)) s.

(** [s.split(sep)] with an explicit one-character separator: the string is
    cut at every occurrence, so the result has one more piece than there are
    separators. *)
Fixpoint split_on (sep : ascii) (s : string) : list string :=
  match s with
  | EmptyString => [EmptyString]
  | String c rest =>
      if Ascii.eqb c sep then EmptyString :: split_on sep rest
      else match split_on sep rest with
           | [] => [String c EmptyString]
           | piece :: pieces => String c piece :: pieces
           end
  end.

(** The decimal text of an int: what [str(n)] and ['{}'.format(n)] give
    when they return. *)
Definition str_of_int (n : Z) : string :=
  NilZero.string_of_int (Z.to_int n).

(** [sys.int_max_str_digits], at its default. *)
Definition max_str_digits : Z := 4300.

(** [str(n)] and [format] return for an int of at most 4300 digits, the
    sign not counted, and raise [ValueError] for a longer one; also [int]
    of a string raises it when the string holds more digits than that. *)
Definition fits (n : Z) : bool :=
  Z.of_nat (String.length (str_of_int (Z.abs n))) <=? max_str_digits.

Definition is_ascii (c : ascii) : bool := (N_of_ascii c <? 128)%N.

Definition all_ascii (s : string) : bool :=
  forallb is_ascii (list_ascii_of_string s).

(** Whitespace that [int(str)] strips on both sides of an ASCII string:
    tab, line feed, vertical tab, form feed, carriage return and space. *)
Definition is_space (c : ascii) : bool :=
  let n := N_of_ascii c in
  ((9 <=? n) && (n <=? 13) || (n =? 32))%N.

Definition digit_value (c : ascii) : option Z :=
  let n := N_of_ascii c in
  if ((48 <=? n) && (n <=? 57))%N then Some (Z.of_N n - 48) else None.

Definition is_digit (c : ascii) : bool :=
  match digit_value c with Some _ => true | None => false end.

Fixpoint lstrip (l : list ascii) : list ascii :=
  match l with
  | c :: rest => if is_space c then lstrip rest else l
  | [] => []
  end.

Definition strip (l : list ascii) : list ascii :=
  rev (lstrip (rev (lstrip l))).

(** Digits of a decimal literal; a single underscore may sit between two
    digits.  [acc] is the value read so far, [after_digit] tells whether the
    previous character was a digit. *)
Fixpoint digits (l : list ascii) (acc : Z) (after_digit : bool) : option Z :=
  match l with
  | [] => if after_digit then Some acc else None
  | c :: rest =>
      match digit_value c with
      | Some d => digits rest (10 * acc + d) true
      | None =>
          if Ascii.eqb c "_"%char && after_digit
          then match rest with
               | [] => None
               | _ => digits rest acc false
               end
          else None
      end
  end.

(** The digits a string holds, leading zeros included, underscores not. *)
Definition count_digits (l : list ascii) : Z :=
  Z.of_nat (List.length (filter is_digit l)).

(** [int(s)] for an ASCII string, base 10; [None] stands for [ValueError],
    which is also what more than 4300 digits give. *)
Definition int_of_str (s : string) : option Z :=
  match strip (list_ascii_of_string s) with
  | [] => None
  | c :: rest =>
      if max_str_digits <? count_digits (c :: rest) then None
      else if Ascii.eqb c "-"%char then option_map Z.opp (digits rest 0 false)
      else if Ascii.eqb c "+"%char then digits rest 0 false
      else digits (c :: rest) 0 false
  end.

End Py.

(* ===================================================================== *)
(** ** Python floats: IEEE binary64 *)
(* ===================================================================== *)

(** Exceptions the driver can meet. *)
Inductive exn : Set :=
  | AttributeError | TypeError | ValueError | OverflowError
  | ZeroDivisionError | PortNotOpenError
  | UnicodeDecodeError | UnicodeEncodeError.

Module Float.

Definition prec : Z := 53.
Definition emax : Z := 1024.

Definition float : Set := spec_float.

(** The exact value of a finite float. *)
Definition to_Q (f : float) : option Q :=
  match f with
  | S754_zero _ => Some 0%Q
  | S754_finite s m e => Some (inject_Z (cond_Zopp s (Zpos m)) * (2 # 1) ^ e)%Q
  | S754_infinity _ | S754_nan => None
  end.

Definition is_zero (f : float) : bool :=
  match f with S754_zero _ => true | _ => false end.

(** [float(n)] for an int: the nearest binary64 (ties to even);
    [OverflowError] when the int is too large. *)
Definition of_int (n : Z) : exn + float :=
  match binary_normalize prec emax n 0 false with
  | S754_infinity _ => inl OverflowError
  | f => inr f
  end.

(** [x * y] on floats. *)
Definition mul (x y : float) : float := SFmul prec emax x y.

(** [x / y] on floats. *)
Definition truediv (x y : float) : exn + float :=
  if is_zero y then inl ZeroDivisionError else inr (SFdiv prec emax x y).

(** The integer nearest to a rational, ties to the even one. *)
Definition round_half_even (q : Q) : Z :=
  let f := Qfloor q in
  match (q - inject_Z f ?= 1 # 2)%Q with
  | Lt => f
  | Gt => f + 1
  | Eq => if Z.even f then f else f + 1
  end.

(** [round(x)] for a float, one argument: an int. *)
Definition round (x : float) : exn + Z :=
  match x with
  | S754_nan => inl ValueError
  | S754_infinity _ => inl OverflowError
  | S754_zero _ => inr 0
  | S754_finite s m e =>
      inr (round_half_even (inject_Z (cond_Zopp s (Zpos m)) * (2 # 1) ^ e)%Q)
  end.

(** The literals of the source. *)
Definition lit_100_0 : float := Eval vm_compute in binary_normalize prec emax 100 0 false.
Definition lit_10_0 : float := Eval vm_compute in binary_normalize prec emax 10 0 false.
Definition lit_0_00 : float := S754_zero false.

End Float.

(** A Python number: the smallest step is an int after [int(number)] and
    whatever the caller assigns afterwards. *)
Inductive num : Set :=
  | Int (n : Z)
  | Flt (f : Float.float).

(** [a == b] on numbers: ints and floats compare by exact value, a NaN is
    equal to nothing. *)
Definition num_eqb (a b : num) : bool :=
  match a, b with
  | Int x, Int y => x =? y
  | Flt x, Flt y => SFeqb x y
  | Int x, Flt y | Flt y, Int x =>
      match Float.to_Q y with
      | Some q => Qeq_bool q (inject_Z x)
      | None => false
      end
  end.

(* ===================================================================== *)
(** ** The serial line, the log and the instance *)
(* ===================================================================== *)

(** One call of [ser.read(1)]: how long it blocked and what it returned
    ([None] is [b''], a read that met its own timeout). *)
Record rx_event : Set := { elapsed : Q; byte : option ascii }.

(** [serial.Serial]. Built with [port = None] it is not open. *)
Record Serial : Set := {
  port : option string;
  is_open : bool;
  in_buffer : list rx_event;       (* what the coming read(1) calls meet *)
  replies : list (list rx_event);  (* the replies to the coming writes *)
  written : list string            (* every write so far, oldest first *)
}.

Inductive level : Set := DEBUG | INFO | WARNING | ERROR.

(** An argument of [str.format]. *)
Inductive arg : Set :=
  | ANone
  | ABool (b : bool)
  | ANum (n : num)
  | AStr (s : string).

(** A log record: the level, the message as written in the source and, for
    a message built with [format], the values that fill its braces. *)
Record LogRecord : Set := { levelname : level; msg : string; args : list arg }.

(** The instance and the part of the process it touches. *)
Record state : Set := {
  _line_ending : option string;
  _timeout : option Q;
  unit : option string;
  ser : option Serial;
  _units_per_um : option Float.float;
  _smallest_um_step : option num;
  _pos : option Float.float;
  _moved_since_last_read : option bool;
  clock : Q;                       (* what time.time() returns now *)
  log : list LogRecord             (* records emitted so far, oldest first *)
}.

Definition with_ser (sr : Serial) (s : state) : state :=
  {| _line_ending := _line_ending s; _timeout := _timeout s; unit := unit s;
     ser := Some sr; _units_per_um := _units_per_um s;
     _smallest_um_step := _smallest_um_step s; _pos := _pos s;
     _moved_since_last_read := _moved_since_last_read s;
     clock := clock s; log := log s |}.

Definition with_units_per_um (f : Float.float) (s : state) : state :=
  {| _line_ending := _line_ending s; _timeout := _timeout s; unit := unit s;
     ser := ser s; _units_per_um := Some f;
     _smallest_um_step := _smallest_um_step s; _pos := _pos s;
     _moved_since_last_read := _moved_since_last_read s;
     clock := clock s; log := log s |}.

Definition with_smallest_um_step (n : num) (s : state) : state :=
  {| _line_ending := _line_ending s; _timeout := _timeout s; unit := unit s;
     ser := ser s; _units_per_um := _units_per_um s;
     _smallest_um_step := Some n; _pos := _pos s;
     _moved_since_last_read := _moved_since_last_read s;
     clock := clock s; log := log s |}.

Definition with_pos (f : Float.float) (s : state) : state :=
  {| _line_ending := _line_ending s; _timeout := _timeout s; unit := unit s;
     ser := ser s; _units_per_um := _units_per_um s;
     _smallest_um_step := _smallest_um_step s; _pos := Some f;
     _moved_since_last_read := _moved_since_last_read s;
     clock := clock s; log := log s |}.

Definition with_moved_since_last_read (b : bool) (s : state) : state :=
  {| _line_ending := _line_ending s; _timeout := _timeout s; unit := unit s;
     ser := ser s; _units_per_um := _units_per_um s;
     _smallest_um_step := _smallest_um_step s; _pos := _pos s;
     _moved_since_last_read := Some b;
     clock := clock s; log := log s |}.

Definition with_clock (t : Q) (s : state) : state :=
  {| _line_ending := _line_ending s; _timeout := _timeout s; unit := unit s;
     ser := ser s; _units_per_um := _units_per_um s;
     _smallest_um_step := _smallest_um_step s; _pos := _pos s;
     _moved_since_last_read := _moved_since_last_read s;
     clock := t; log := log s |}.

Definition with_log (l : list LogRecord) (s : state) : state :=
  {| _line_ending := _line_ending s; _timeout := _timeout s; unit := unit s;
     ser := ser s; _units_per_um := _units_per_um s;
     _smallest_um_step := _smallest_um_step s; _pos := _pos s;
     _moved_since_last_read := _moved_since_last_read s;
     clock := clock s; log := l |}.

(* ===================================================================== *)
(** ** Computations: state, exceptions, and a script that can run dry *)
(* ===================================================================== *)

Inductive result (A : Type) : Type :=
  | Ok (a : A)             (* the call returned [a] *)
  | Raise (e : exn)        (* the call raised *)
  | Starved.               (* the script of the serial line held no event
                              for a read(1) the call went on to make *)
Arguments Ok {A} a.
Arguments Raise {A} e.
Arguments Starved {A}.

Definition M (A : Type) : Type := state -> result A * state.

Definition ret {A} (a : A) : M A := fun s => (Ok a, s).

Definition bind {A B} (c : M A) (k : A -> M B) : M B :=
  fun s =>
    match c s with
    | (Ok a, s') => k a s'
    | (Raise e, s') => (Raise e, s')
    | (Starved, s') => (Starved, s')
    end.

Definition raise {A} (e : exn) : M A := fun s => (Raise e, s).

(** [try: body except: handler] with a bare [except]. *)
Definition try_except {A} (body : M A) (handler : M A) : M A :=
  fun s =>
    match body s with
    | (Raise _, s') => handler s'
    | r => r
    end.

Declare Scope py_scope.
Delimit Scope py_scope with py.
Notation "x <- c ;; k" := (bind c (fun x => k))
  (at level 61, c at next level, right associativity) : py_scope.
Notation "c ;; k" := (bind c (fun _ => k))
  (at level 61, right associativity) : py_scope.
Local Open Scope py_scope.

(** Reading an attribute that may not have been assigned. *)
Definition attr {A} (field : state -> option A) : M A :=
  fun s =>
    match field s with
    | Some a => (Ok a, s)
    | None => (Raise AttributeError, s)
    end.

Definition modify (f : state -> state) : M Datatypes.unit :=
  fun s => (Ok tt, f s).

(** A result of a float or int operation that may raise. *)
Definition lift {A} (r : exn + A) : M A :=
  match r with
  | inl e => raise e
  | inr a => ret a
  end.

(** [self.logger.<level>(msg)], with the values given to [format]. *)
Definition logger (lv : level) (m : string) (a : list arg) : M Datatypes.unit :=
  modify (fun s => with_log (log s ++ [{| levelname := lv; msg := m; args := a |}]) s).

(** [msg.format(...)] on values that come from the caller: an int of more
    than 4300 digits has no text and the call raises [ValueError]; a float,
    a bool, a string and [None] always have one.  (Where the source formats
    the int a float was rounded to, a clamped speed or slope, or the int it
    has just read from a reply, the limit cannot be met; for the last case
    this is the lemma [int_of_str_fits].) *)
Definition formattable (a : arg) : bool :=
  match a with
  | ANum (Int n) => Py.fits n
  | _ => true
  end.

Definition format (a : list arg) : M Datatypes.unit :=
  if forallb formattable a then ret tt else raise ValueError.

(* ===================================================================== *)
(** ** The serial primitives *)
(* ===================================================================== *)

Definition CR : ascii := "013"%char.
Definition cr : string := String CR EmptyString.

Definition Qltb (x y : Q) : bool := negb (Qle_bool y x).

(** [time.time()] *)
Definition time : M Q := fun s => (Ok (clock s), s).

(** [self.ser.reset_input_buffer()]: bytes that arrived and were not read
    are dropped. *)
Definition reset_input_buffer : M Datatypes.unit :=
  sr <- attr ser ;;
  if is_open sr
  then modify (with_ser {| port := port sr; is_open := true; in_buffer := [];
                           replies := replies sr; written := written sr |})
  else raise PortNotOpenError.

(** [text.encode('ascii')] *)
Definition encode_ascii (text : string) : M string :=
  if Py.all_ascii text then ret text else raise UnicodeEncodeError.

(** [self.ser.write(data)]: the bytes leave, and the device queues its next
    reply behind whatever is still in the input buffer. *)
Definition write (data : string) : M Datatypes.unit :=
  sr <- attr ser ;;
  if is_open sr
  then modify (with_ser {| port := port sr; is_open := true;
                           in_buffer := in_buffer sr ++ hd [] (replies sr);
                           replies := tl (replies sr);
                           written := written sr ++ [data] |})
  else raise PortNotOpenError.

(** How the [while] loop of [query] ends. *)
Inductive loop_exit : Set :=
  | Line (buffer : string)   (* a carriage return was read: [return] *)
  | Expired                  (* the condition of the [while] became false *)
  | BadByte                  (* [decode("ascii")] raised *)
  | Dry.                     (* no event left for the next read(1) *)

(** The loop

      while time.time() < t0 + self._timeout:
          oneByte = self.ser.read(1)
          if oneByte == b"\r": ... return buffer[3:-1]
          else: buffer += oneByte.decode("ascii")

    over the events the reads will meet; it gives back the events not
    consumed and the time at which it ends. *)
Fixpoint while_loop (deadline : Q) (events : list rx_event) (now : Q)
    (buffer : string) : loop_exit * list rx_event * Q :=
  if Qltb now deadline then
    match events with
    | [] => (Dry, [], now)
    | ev :: rest =>
        let now' := (now + elapsed ev)%Q in
        match byte ev with
        | Some c =>
            if Ascii.eqb c CR then (Line buffer, rest, now')
            else if Py.is_ascii c
                 then while_loop deadline rest now' (buffer ++ String c EmptyString)
                 else (BadByte, rest, now')
        | None => while_loop deadline rest now' buffer
        end
    end
  else (Expired, events, now).

(** The loop run on the instance: [Some buffer] when it returned from
    inside, [None] when it ran to its end. *)
Definition read_reply (deadline : Q) : M (option string) :=
  fun s =>
    match ser s with
    | None => (Raise AttributeError, s)
    | Some sr =>
        let '(exit, rest, t) := while_loop deadline (in_buffer sr) (clock s) EmptyString in
        let s' := with_clock t
                    (with_ser {| port := port sr; is_open := is_open sr;
                                 in_buffer := rest; replies := replies sr;
                                 written := written sr |} s) in
        match exit with
        | Line buffer => (Ok (Some buffer), s')
        | Expired => (Ok None, s')
        | BadByte => (Raise UnicodeDecodeError, s')
        | Dry => (Starved, s')
        end
    end.

(** [query(self, command)].  The result is [None] when the function runs off
    its end without a [return]. *)
Definition query (command : string) : M (option string) :=
  reset_input_buffer ;;
  data <- encode_ascii (command ++ cr) ;;
  write data ;;
  t0 <- time ;;
  timeout <- attr _timeout ;;
  line <- read_reply (t0 + timeout)%Q ;;
  match line with
  | Some buffer =>
      logger DEBUG buffer [] ;;
      ret (Some (Py.slice buffer 3 (-1)))
  | None => ret None
  end.

(** [self.ser.close()] *)
Definition close : M Datatypes.unit :=
  sr <- attr ser ;;
  modify (with_ser {| port := port sr; is_open := false; in_buffer := [];
                      replies := replies sr; written := written sr |}).

(* ===================================================================== *)
(** ** The methods of [NikonRFA] *)
(* ===================================================================== *)

(** [reply == literal], where [reply] may be [None]. *)
Definition reply_is (reply : option string) (literal : string) : bool :=
  match reply with
  | Some r => String.eqb r literal
  | None => false
  end.

(** [if reply:] — [None] and the empty string are false. *)
Definition truthy (reply : option string) : bool :=
  match reply with
  | Some EmptyString | None => false
  | Some _ => true
  end.

(** [int(reply)] for a reply of [query]. *)
Definition int_of_reply (reply : option string) : M Z :=
  match reply with
  | None => raise TypeError
  | Some r => match Py.int_of_str r with
              | Some n => ret n
              | None => raise ValueError
              end
  end.

(** ['unexpected message: ' + reply] *)
Definition unexpected_message (reply : option string) : M string :=
  match reply with
  | None => raise TypeError
  | Some r => ret ("unexpected message: " ++ r)%string
  end.

(** [int(round(um * self._units_per_um))], the device units of a length. *)
Definition device_units (um : Float.float) : M Z :=
  upm <- attr _units_per_um ;;
  lift (Float.round (Float.mul um upm)).

(** [n / self._units_per_um] for an int [n], the length of device units. *)
Definition microns (n : Z) : M Float.float :=
  upm <- attr _units_per_um ;;
  x <- lift (Float.of_int n) ;;
  lift (Float.truediv x upm).

Definition _get_encoder_status : M (option bool) :=
  reply <- query "ENCODER" ;;
  if reply_is reply "OFF" then ret (Some false)
  else if reply_is reply "ON " then ret (Some true)
  else logger WARNING "Unknown response" [] ;; ret None.

Definition _set_encoder_status (status : bool) : M Datatypes.unit :=
  (if status then query "ENCODER ON" else query "ENCODER OFF") ;;
  logger DEBUG "Setting encoder status {}" [ABool status].

Definition absmove (um : Float.float) : M Datatypes.unit :=
  n <- device_units um ;;
  reply <- query ("MZ " ++ Py.str_of_int n) ;;
  (if truthy reply
   then m <- unexpected_message reply ;; logger WARNING m []
   else ret tt) ;;
  modify (with_moved_since_last_read true).

Definition get_position : M (option Float.float) :=
  reply <- query "WZ" ;;
  try_except
    (n <- int_of_reply reply ;;
     pos <- microns n ;;
     modify (with_pos pos) ;;
     modify (with_moved_since_last_read false) ;;
     ret (Some pos))
    (m <- unexpected_message reply ;;
     logger WARNING m [] ;;
     ret None).

Definition relmove (um : Float.float) : M Datatypes.unit :=
  n <- device_units um ;;
  reply <- query ("RZ " ++ Py.str_of_int n) ;;
  (if truthy reply
   then m <- unexpected_message reply ;; logger WARNING m []
   else ret tt) ;;
  modify (with_moved_since_last_read true).

(** The property [pos]. *)
Definition pos : M (option Float.float) :=
  moved <- attr _moved_since_last_read ;;
  if (moved : bool) then get_position
  else p <- attr _pos ;; ret (Some p).

(** [a == b] for two results of [pos]. *)
Definition pos_eqb (a b : option Float.float) : bool :=
  match a, b with
  | Some x, Some y => SFeqb x y
  | None, None => true
  | _, _ => false
  end.

Definition absmove_read (um : Float.float) : M (option Float.float) :=
  pos_before_move <- pos ;;
  absmove um ;;
  after <- pos ;;
  (if pos_eqb after pos_before_move
   then logger WARNING "Stage didn't move. Perhaps step too small or out of range." []
   else ret tt) ;;
  pos.

Definition relmove_read (um : Float.float) : M (option Float.float) :=
  pos_before_move <- pos ;;
  relmove um ;;
  after <- pos ;;
  (if pos_eqb after pos_before_move
   then logger WARNING "Stage didn't move. Perhaps step too small or out of range." []
   else ret tt) ;;
  pos.

(** [number, fraction = reply.split(' ')] *)
Definition split_reply (reply : option string) : M (string * string) :=
  match reply with
  | None => raise AttributeError
  | Some r => match Py.split_on " " r with
              | [number; fraction] => ret (number, fraction)
              | _ => raise ValueError
              end
  end.

Definition _get_resolution_info : M Datatypes.unit :=
  reply <- query "RESOLUTION" ;;
  parts <- split_reply reply ;;
  let '(number, fraction) := parts in
  (if String.eqb fraction "HUNDREDTHS" then modify (with_units_per_um Float.lit_100_0)
   else if String.eqb fraction "TENTHS" then modify (with_units_per_um Float.lit_10_0)
   else ret tt) ;;
  n <- int_of_reply (Some number) ;;
  modify (with_smallest_um_step (Int n)) ;;
  logger INFO "Setting smallest_um_step to {}" [ANum (Int n)].

(** The property [smallest_um_step] and its setter. *)
Definition smallest_um_step : M num := attr _smallest_um_step.

Definition set_smallest_um_step (um_step : num) : M Datatypes.unit :=
  old <- attr _smallest_um_step ;;
  if negb (num_eqb um_step old)
  then format [ANum old; ANum um_step] ;;
       logger INFO "Modifying smallest_um_step from {} to {}" [ANum old; ANum um_step] ;;
       modify (with_smallest_um_step um_step)
  else ret tt.

Definition halt : M Datatypes.unit :=
  logger DEBUG "Halting the device" [] ;;
  query "halt" ;;
  ret tt.

Definition reset : M Datatypes.unit :=
  logger DEBUG "Halting the device" [] ;;
  query "reset" ;;
  ret tt.

Definition zero : M Datatypes.unit :=
  logger DEBUG "setting the origin" [] ;;
  query "zero" ;;
  modify (with_pos Float.lit_0_00).

Definition redefine_position (um : Float.float) : M Datatypes.unit :=
  logger DEBUG "redefining the current position to {}um" [ANum (Flt um)] ;;
  n <- device_units um ;;
  query ("HZ " ++ Py.str_of_int n) ;;
  modify (with_pos um).

(** [int(v)] for a number: a float is cut towards zero. *)
Definition int_of_num (v : num) : M Z :=
  match v with
  | Int n => ret n
  | Flt S754_nan => raise ValueError
  | Flt (S754_infinity _) => raise OverflowError
  | Flt (S754_zero _) => ret 0
  | Flt (S754_finite s m e) =>
      ret (cond_Zopp s (Qfloor (inject_Z (Zpos m) * (2 # 1) ^ e)%Q))
  end.

(** The property [maxspeed] and its setter. *)
Definition maxspeed : M Z :=
  reply <- query "speed" ;;
  int_of_reply reply.

Definition set_maxspeed (v : num) : M Datatypes.unit :=
  v <- int_of_num v ;;
  v <- (if v <? 50 then logger WARNING "minimum speed is 50" [] ;; ret 50
        else if v >? 60000 then logger WARNING "maximum speed is 60000" [] ;; ret 60000
        else ret v) ;;
  query ("speed " ++ Py.str_of_int v) ;;
  ret tt.

(** The property [minspeed] and its setter. *)
Definition minspeed : M Z :=
  reply <- query "minspeed" ;;
  int_of_reply reply.

Definition set_minspeed (v : num) : M Datatypes.unit :=
  v <- int_of_num v ;;
  v <- (if v <? 50 then logger WARNING "minimum speed is 50" [] ;; ret 50
        else if v >? 60000 then logger WARNING "maximum speed is 60000" [] ;; ret 60000
        else ret v) ;;
  query ("minspeed " ++ Py.str_of_int v) ;;
  ret tt.

(** The property [rampslope] and its setter. *)
Definition rampslope : M Z :=
  reply <- query "rampslope" ;;
  int_of_reply reply.

Definition set_rampslope (a : num) : M Datatypes.unit :=
  a <- int_of_num a ;;
  a <- (if a <? 1 then logger WARNING "minimum acceleration is 1" [] ;; ret 1
        else if a >? 255 then logger WARNING "maximum acceleration is  255" [] ;; ret 255
        else ret a) ;;
  query ("rampslope " ++ Py.str_of_int a) ;;
  ret tt.

(* ===================================================================== *)
(** ** Construction *)
(* ===================================================================== *)

(** An entry of [list_ports.comports()]. *)
Record ListPortInfo : Set := {
  device : string;
  vid : option Z;
  pid : option Z
}.

(** [d.vid == vid], the left side possibly [None]. *)
Definition id_is (found : option Z) (wanted : Z) : bool :=
  match found with
  | Some x => x =? wanted
  | None => false
  end.

(** [d.vid==vid and d.pid==pid] *)
Definition ids_are (v p : Z) (d : ListPortInfo) : bool :=
  id_is (vid d) v && id_is (pid d) p.

(** The serial object that [serial.Serial] creates.  With a port the line
    is opened (the model takes it that the port can be opened) and [line] is
    what the device on it will reply; with [None] the object is created
    closed. *)
Definition serial_object (p : option string) (line : list (list rx_event)) : Serial :=
  {| port := p;
     is_open := match p with Some _ => true | None => false end;
     in_buffer := [];
     replies := line;
     written := [] |}.

(** [serial.Serial(port, timeout=timeout)].  The timeout is checked first,
    whatever the port: a negative one raises [ValueError] and no object is
    created. *)
Definition Serial_ (p : option string) (timeout : Q) (line : list (list rx_event))
    : exn + Serial :=
  if Qltb timeout 0 then inl ValueError else inr (serial_object p line).

(** The instance before [__init__] has assigned anything. *)
Definition blank (now : Q) (records : list LogRecord) : state :=
  {| _line_ending := None; _timeout := None; unit := None; ser := None;
     _units_per_um := None; _smallest_um_step := None; _pos := None;
     _moved_since_last_read := None; clock := now; log := records |}.

(** The first lines of [__init__], up to the search for the port.  The
    result is [None] where the source [return]s, and otherwise the value of
    [port] that goes to [serial.Serial]. *)
Definition find_port (comports : list ListPortInfo) (port : option string)
    (vid pid : option Z) : M (option (option string)) :=
  match port with
  | Some _ => ret (Some port)
  | None =>
      match vid, pid with
      | Some v, Some p =>
          let matches :=
            map device (filter (ids_are v p) comports) in
          if (List.length matches =? 0)%nat
          then format [ANum (Int v); ANum (Int p)] ;;
               logger ERROR "No match found for vid={} pis={}" [ANum (Int v); ANum (Int p)] ;;
               ret None
          else if (1 <? List.length matches)%nat
          then logger WARNING "Multiple matches found. Using first one" [] ;;
               ret (Some port)
          else ret (Some (hd_error matches))
      | _, _ =>
          logger ERROR "If port is not supplied, vid and pid need to be supplied (ints)" [] ;;
          ret (Some port)
      end
  end.

Definition arg_of_reply (reply : option string) : arg :=
  match reply with
  | Some r => AStr r
  | None => ANone
  end.

Definition truth (b : option bool) : bool :=
  match b with
  | Some true => true
  | _ => false
  end.

(** [NikonRFA.__init__], run on the blank instance.  [comports] is what
    [list_ports.comports()] returns and [line] what the device answers. *)
Definition __init__ (comports : list ListPortInfo) (line : list (list rx_event))
    (port : option string) (newline : string) (timeout : Q)
    (vid pid : option Z) : M Datatypes.unit :=
  modify (fun s =>
    {| _line_ending := Some newline; _timeout := Some timeout; unit := Some "um"%string;
       ser := ser s; _units_per_um := _units_per_um s;
       _smallest_um_step := _smallest_um_step s; _pos := _pos s;
       _moved_since_last_read := _moved_since_last_read s;
       clock := clock s; log := log s |}) ;;
  found <- find_port comports port vid pid ;;
  match found with
  | None => ret tt
  | Some port =>
      sr <- lift (Serial_ port timeout line) ;;
      modify (with_ser sr) ;;
      idn <- query "WHO" ;;
      (if reply_is idn "Remote Focus Accessory (M)"
       then ver <- query "VERSION" ;;
            logger INFO "Connected to {}, firmware: {}" [arg_of_reply idn; arg_of_reply ver]
       else logger WARNING "Device did not identify" []) ;;
      _get_resolution_info ;;
      status <- _get_encoder_status ;;
      (if negb (truth status) then _set_encoder_status true else ret tt) ;;
      get_position ;;
      modify (with_moved_since_last_read true)
  end.

(* ===================================================================== *)
(** ** Vocabulary of the statements *)
(* ===================================================================== *)

(** *** Scripts for the serial line and sample instances *)

(** The bytes of [text], each read after [dt] seconds. *)
Definition bytes_arriving (dt : Q) (text : string) : list rx_event :=
  map (fun c => {| elapsed := dt; byte := Some c |}) (list_ascii_of_string text).

(** A read(1) that returns nothing after [dt] seconds. *)
Definition silence (dt : Q) : rx_event := {| elapsed := dt; byte := None |}.

(** Text the loop takes in as it is: ASCII, and no carriage return. *)
Definition plain (text : string) : bool :=
  forallb (fun c => Py.is_ascii c && negb (Ascii.eqb c CR)) (list_ascii_of_string text).

(** The seconds [n] bytes take when each takes [dt]. *)
Definition seconds (n : nat) (dt : Q) : Q := (inject_Z (Z.of_nat n) * dt)%Q.

(** An instance whose serial object has just been opened on a device that
    will answer with [line]. *)
Definition plugged (T : Q) (line : list (list rx_event)) : state :=
  {| _line_ending := Some cr; _timeout := Some T; unit := Some "um"%string;
     ser := Some (serial_object (Some "COM1"%string) line);
     _units_per_um := None; _smallest_um_step := None; _pos := None;
     _moved_since_last_read := None; clock := 0; log := [] |}.

(** The same with the scale of a hundred units per micrometer. *)
Definition scaled_100 : state := with_units_per_um Float.lit_100_0 (plugged 2 []).

(** A device on the bench: it answers the five queries of a construction,
    then a read of the position, a move and another read, every byte
    taking a hundredth of a second. *)
Definition bench_line : list (list rx_event) :=
  map (fun text => bytes_arriving (1 # 100) (text ++ cr))
    [":A Remote Focus Accessory (M) "; ":A 1.0 "; ":A 5 HUNDREDTHS ";
     ":A ON  "; ":A -42 "; ":A 1234 "; ":A "; ":A 1250 "]%string.

(** The instance that a construction on that device leaves. *)
Definition bench : state :=
  snd (__init__ [] bench_line (Some "COM1"%string) cr 2 None None (blank 0 [])).

(** Two listed ports with the same vendor and product id. *)
Definition two_ports : list ListPortInfo :=
  [ {| device := "COM3"; vid := Some 6790; pid := Some 29987 |};
    {| device := "COM4"; vid := Some 6790; pid := Some 29987 |} ].

(** The float 1000000000000002.0, a length of 1e15 + 2 micrometers. *)
Definition far_away : Float.float := S754_finite false 8000000000000016 (-3).

(** The float 12.34. *)
Definition twelve_34 : Float.float := S754_finite false 6946802425218990 (-49).

(** *** What is observed of a run *)

(** Everything written on the serial line so far. *)
Definition wire (s : state) : list string :=
  match ser s with
  | Some sr => written sr
  | None => []
  end.

(** The instance can talk: it has an open serial object and a timeout. *)
Definition connected (s : state) : Prop :=
  exists sr T, ser s = Some sr /\ is_open sr = true /\ _timeout s = Some T.

(** Two states that differ at most in the smallest step and in the log. *)
Definition same_but_step_and_log (s s' : state) : Prop :=
  _line_ending s' = _line_ending s /\ _timeout s' = _timeout s /\
  unit s' = unit s /\ ser s' = ser s /\
  _units_per_um s' = _units_per_um s /\ _pos s' = _pos s /\
  _moved_since_last_read s' = _moved_since_last_read s /\
  clock s' = clock s.

(** The bound of [lo..hi] nearest to [n], or [n] itself when it lies within. *)
Definition clamp (lo hi n : Z) : Z := Z.max lo (Z.min hi n).

(** A record of level WARNING with a plain message. *)
Definition warning (text : string) : LogRecord :=
  {| levelname := WARNING; msg := text; args := [] |}.

(** What a clamping setter, called with the int [n] in state [s], leaves in
    [s']: the token with the clamped value on the line, a warning in the
    log when [n] was out of range and only records of [query] otherwise. *)
Definition clamped (lo hi : Z) (too_low too_high token : string) (n : Z)
    (s s' : state) : Prop :=
  wire s' = wire s ++ [(token ++ Py.str_of_int (clamp lo hi n) ++ cr)%string] /\
  (n < lo -> exists rest, log s' = log s ++ warning too_low :: rest) /\
  (hi < n -> exists rest, log s' = log s ++ warning too_high :: rest) /\
  (lo <= n <= hi ->
   exists rest, log s' = log s ++ rest /\ Forall (fun r => levelname r = DEBUG) rest).

(** *** One [query], taken apart *)

(** The serial object once [query] has written [command] and its loop has
    left [rest] unread. *)
Definition sent (command : string) (rest : list rx_event) (sr : Serial) : Serial :=
  {| port := port sr; is_open := true; in_buffer := rest;
     replies := tl (replies sr);
     written := written sr ++ [(command ++ cr)%string] |}.

(** What [query] gives back for each way its loop can end. *)
Definition query_result (exit : loop_exit) : result (option string) :=
  match exit with
  | Line buffer => Ok (Some (Py.slice buffer 3 (-1)))
  | Expired => Ok None
  | BadByte => Raise UnicodeDecodeError
  | Dry => Starved
  end.

(** What [query] logs for each way its loop can end. *)
Definition query_records (exit : loop_exit) : list LogRecord :=
  match exit with
  | Line buffer => [{| levelname := DEBUG; msg := buffer; args := [] |}]
  | _ => []
  end.

(** The instance after a [query] whose loop ended with [exit] at time [t]. *)
Definition after_query (command : string) (exit : loop_exit)
    (rest : list rx_event) (t : Q) (sr : Serial) (s : state) : state :=
  {| _line_ending := _line_ending s; _timeout := _timeout s; unit := unit s;
     ser := Some (sent command rest sr); _units_per_um := _units_per_um s;
     _smallest_um_step := _smallest_um_step s; _pos := _pos s;
     _moved_since_last_read := _moved_since_last_read s;
     clock := t; log := log s ++ query_records exit |}.

(** The loop of a [query] issued in [s]: it starts on the reply the device
    queues at the write, the input buffer having been emptied. *)
Definition loop_of (sr : Serial) (T : Q) (s : state) : loop_exit * list rx_event * Q :=
  while_loop (clock s + T)%Q (hd [] (replies sr)) (clock s) EmptyString.

(** The replies the device has still to give. *)
Definition pending (s : state) : list (list rx_event) :=
  match ser s with
  | Some sr => replies sr
  | None => []
  end.

(** What [query] makes of a reply when the timeout is [T] seconds: the text
    it returns, and [None] when it returns none. *)
Definition heard (T : Q) (reply : list rx_event) : option string :=
  match fst (fst (while_loop T reply 0 EmptyString)) with
  | Line buffer => Some (Py.slice buffer 3 (-1))
  | _ => None
  end.

(** The instance can talk, and its timeout is [T]. *)
Definition talking (T : Q) (s : state) : Prop :=
  exists sr, ser s = Some sr /\ is_open sr = true /\ _timeout s = Some T.

(** The state after the branch of [_get_resolution_info] on the unit word. *)
Definition after_scale (fraction : string) (s : state) : state :=
  if String.eqb fraction "HUNDREDTHS" then with_units_per_um Float.lit_100_0 s
  else if String.eqb fraction "TENTHS" then with_units_per_um Float.lit_10_0 s
  else s.

(** The three setters have one shape: cut to an int, clamp with a warning,
    send the token with the value. *)
Definition clamped_send (lo hi : Z) (too_low too_high token : string) (v : num)
    : M Datatypes.unit :=
  v <- int_of_num v ;;
  v <- (if v <? lo then logger WARNING too_low [] ;; ret lo
        else if v >? hi then logger WARNING too_high [] ;; ret hi
        else ret v) ;;
  query (token ++ Py.str_of_int v) ;;
  ret tt.

(** *** Binary64 *)

(** Powers of two, as rationals. *)
Definition B (e : Z) : Q := (2 # 1) ^ e.

(** The value of a sign and a magnitude. *)
Definition signed (s : bool) (x : Q) : Q := if s then (- x)%Q else x.

(** What a shift record says of a rational [X]: its integer part is the
    mantissa, and the round and sticky bits place its fraction with
    respect to one half. *)
Definition inbin (mrs : shr_record) (X : Q) : Prop :=
  0 <= shr_m mrs /\
  match shr_r mrs, shr_s mrs with
  | false, false => (X == inject_Z (shr_m mrs))%Q
  | false, true => (inject_Z (shr_m mrs) < X /\ X < inject_Z (shr_m mrs) + (1 # 2))%Q
  | true, false => (X == inject_Z (shr_m mrs) + (1 # 2))%Q
  | true, true => (inject_Z (shr_m mrs) + (1 # 2) < X /\ X < inject_Z (shr_m mrs) + 1)%Q
  end.

(* ===================================================================== *)
(** ** What one [query] does *)
(* ===================================================================== *)

Lemma append_assoc (a b c : string) : ((a ++ b) ++ c = a ++ (b ++ c))%string.
Proof. induction a as [|x a IH]; cbn; [reflexivity | now rewrite IH]. Qed.

Lemma all_ascii_app (a b : string) :
  Py.all_ascii (a ++ b) = Py.all_ascii a && Py.all_ascii b.
Proof.
  unfold Py.all_ascii.
  induction a as [|c a IH]; simpl; [reflexivity|].
  rewrite IH. now rewrite andb_assoc.
Qed.

Lemma all_ascii_cr (command : string) :
  Py.all_ascii command = true -> Py.all_ascii (command ++ cr) = true.
Proof. intros H. now rewrite all_ascii_app, H. Qed.

Section OneQuery.
Variables (s : state) (sr : Serial) (T : Q) (command : string).
Hypothesis Hser : ser s = Some sr.
Hypothesis Hopen : is_open sr = true.
Hypothesis Htimeout : _timeout s = Some T.
Hypothesis Hascii : Py.all_ascii command = true.

Lemma query_unfold :
  query command s =
    let '(exit, rest, t) := loop_of sr T s in
    (query_result exit, after_query command exit rest t sr s).
Proof.
  cbv beta iota zeta delta [query bind reset_input_buffer attr encode_ascii
    write time read_reply modify ret raise logger loop_of].
  rewrite Hser, Hopen. cbn [with_ser ser is_open].
  rewrite (all_ascii_cr _ Hascii). cbn [with_ser ser is_open _timeout clock].
  rewrite Htimeout. cbn -[while_loop Py.slice Qplus].
  destruct (while_loop (clock s + T) (hd [] (replies sr)) (clock s) "")
    as [[exit rest] t].
  destruct exit; cbn -[Py.slice]; unfold after_query, sent; cbn -[Py.slice];
    rewrite ?app_nil_r; reflexivity.
Qed.

(** Whatever the reply, one [query] writes its command followed by a
    carriage return, once, and touches no attribute but [ser]. *)
Lemma query_frame :
  exists exit rest t,
    query command s = (query_result exit, after_query command exit rest t sr s).
Proof.
  rewrite query_unfold. destruct (loop_of sr T s) as [[exit rest] t].
  now exists exit, rest, t.
Qed.
End OneQuery.

Lemma connected_with_log (l : list LogRecord) (s : state) :
  connected s -> connected (with_log l s).
Proof. intros (sr & T & H1 & H2 & H3). now exists sr, T. Qed.

(** One [query] on a connected instance, for any reply: the result and the
    state that follows, named. *)
Lemma query_connected (command : string) (s : state) :
  connected s -> Py.all_ascii command = true ->
  exists sr exit rest t,
    ser s = Some sr /\
    query command s = (query_result exit, after_query command exit rest t sr s).
Proof.
  intros (sr & T & H1 & H2 & H3) Ha.
  destruct (query_frame s sr T command H1 H2 H3 Ha) as (exit & rest & t & E).
  now exists sr, exit, rest, t.
Qed.

Lemma wire_after_query command exit rest t sr s :
  ser s = Some sr ->
  wire (after_query command exit rest t sr s) = wire s ++ [(command ++ cr)%string].
Proof. intros H. unfold wire. rewrite H. reflexivity. Qed.

Lemma all_ascii_str_of_uint (d : Decimal.uint) :
  Py.all_ascii (NilEmpty.string_of_uint d) = true.
Proof. induction d; cbn; auto. Qed.

Lemma all_ascii_str_of_int (n : Z) : Py.all_ascii (Py.str_of_int n) = true.
Proof.
  unfold Py.str_of_int, NilZero.string_of_int, NilZero.string_of_uint.
  destruct (Z.to_int n) as [d|d]; destruct d; try reflexivity;
    cbn; exact (all_ascii_str_of_uint d).
Qed.

Lemma all_ascii_numbered (token : string) (n : Z) :
  Py.all_ascii token = true -> Py.all_ascii (token ++ Py.str_of_int n) = true.
Proof. intros H. now rewrite all_ascii_app, H, all_ascii_str_of_int. Qed.

(** The instance on the bench is connected. *)
Lemma bench_connected : connected bench.
Proof.
  unfold connected. eexists. exists 2%Q. vm_compute. repeat split.
Defined.

(* ===================================================================== *)
(** ** The smallest step (C10) *)
(* ===================================================================== *)

(** C10.  Assigning [v] to the property [smallest_um_step] changes no
    attribute but the stored smallest step, and leaves the serial object
    (its input buffer, the replies to come and everything written) and the
    clock as they were: nothing is sent or read.  When a step is stored and
    [v] is equal to it, the assignment returns with the state unchanged,
    log included; when [v] differs and both values have a text, the step
    becomes [v] and one INFO record is emitted; when [v] differs and one of
    the two is an int of more than 4300 digits, formatting the message
    raises [ValueError] and the state is unchanged, the step included; when
    no step is stored yet, reading the old one raises and the state is
    unchanged. *)
Theorem set_smallest_um_step_frame (v : num) (s : state) :
  same_but_step_and_log s (snd (set_smallest_um_step v s)) /\
  wire (snd (set_smallest_um_step v s)) = wire s /\
  match _smallest_um_step s with
  | Some old =>
      if num_eqb v old
      then set_smallest_um_step v s = (Ok tt, s)
      else if forallb formattable [ANum old; ANum v]
      then fst (set_smallest_um_step v s) = Ok tt /\
           _smallest_um_step (snd (set_smallest_um_step v s)) = Some v /\
           log (snd (set_smallest_um_step v s)) =
             log s ++ [{| levelname := INFO;
                          msg := "Modifying smallest_um_step from {} to {}";
                          args := [ANum old; ANum v] |}]
      else set_smallest_um_step v s = (Raise ValueError, s)
  | None => set_smallest_um_step v s = (Raise AttributeError, s)
  end.
Proof.
  unfold set_smallest_um_step, bind, attr, same_but_step_and_log, wire, format.
  destruct (_smallest_um_step s) as [old|]; cbn [fst snd negb].
  - destruct (num_eqb v old); cbn [negb]; [repeat split; reflexivity|].
    destruct (forallb formattable [ANum old; ANum v]); repeat split; reflexivity.
  - repeat split; reflexivity.
Qed.

(* ===================================================================== *)
(** ** The command tokens (C9) *)
(* ===================================================================== *)

(** A [query] followed by steps that do not use the line writes exactly its
    command and a carriage return. *)
Lemma wire_query_then {A} (command : string) (k : option string -> M A) (s : state) :
  connected s -> Py.all_ascii command = true ->
  (forall r s1, wire (snd (k r s1)) = wire s1) ->
  wire (snd ((reply <- query command ;; k reply) s)) = wire s ++ [(command ++ cr)%string].
Proof.
  intros Hc Ha Hk. unfold bind.
  destruct (query_connected command s Hc Ha) as (sr & exit & rest & t & Hs & E).
  rewrite E. destruct exit; cbn [query_result snd]; rewrite ?Hk;
    apply wire_after_query; assumption.
Qed.

Lemma wire_int_of_reply (r : option string) (s : state) :
  wire (snd (int_of_reply r s)) = wire s.
Proof.
  destruct r as [r|]; cbn; [|reflexivity].
  destruct (Py.int_of_str r); reflexivity.
Qed.

(** C9.  What the operations without a numeric argument write, on a
    connected instance and whatever the device answers: [halt], [reset] and
    [zero], and the getters of [maxspeed], [minspeed] and [rampslope], send
    their token in lower case followed by a carriage return, [halt] and not
    [HALT], and so on.  The setters send the same lower-case tokens,
    followed by the value. *)
Theorem lower_case_tokens (s : state) (H : connected s) :
  wire (snd (halt s)) = wire s ++ ["halt" ++ cr]%string /\
  wire (snd (reset s)) = wire s ++ ["reset" ++ cr]%string /\
  wire (snd (zero s)) = wire s ++ ["zero" ++ cr]%string /\
  wire (snd (maxspeed s)) = wire s ++ ["speed" ++ cr]%string /\
  wire (snd (minspeed s)) = wire s ++ ["minspeed" ++ cr]%string /\
  wire (snd (rampslope s)) = wire s ++ ["rampslope" ++ cr]%string.
Proof.
  assert (Hlog : forall l, connected (with_log l s)) by (intros; now apply connected_with_log).
  repeat split.
  - exact (wire_query_then "halt" (fun _ => ret tt) _ (Hlog _) eq_refl (fun _ _ => eq_refl)).
  - exact (wire_query_then "reset" (fun _ => ret tt) _ (Hlog _) eq_refl (fun _ _ => eq_refl)).
  - exact (wire_query_then "zero" (fun _ => modify (with_pos Float.lit_0_00)) _
             (Hlog _) eq_refl (fun _ _ => eq_refl)).
  - exact (wire_query_then "speed" int_of_reply s H eq_refl wire_int_of_reply).
  - exact (wire_query_then "minspeed" int_of_reply s H eq_refl wire_int_of_reply).
  - exact (wire_query_then "rampslope" int_of_reply s H eq_refl wire_int_of_reply).
Qed.

Lemma lower_case_tokens_on_the_bench :
  connected bench /\
  wire (snd (halt bench)) = wire bench ++ ["halt" ++ cr]%string /\
  wire (snd (halt bench)) <> wire bench ++ ["HALT" ++ cr]%string.
Proof.
  split; [exact bench_connected|].
  destruct (lower_case_tokens bench bench_connected) as (Hhalt & _).
  split; [exact Hhalt|].
  rewrite Hhalt. vm_compute. discriminate.
Defined.

(* ===================================================================== *)
(** ** The clamping setters (C6) *)
(* ===================================================================== *)

Lemma set_maxspeed_shape :
  set_maxspeed = clamped_send 50 60000 "minimum speed is 50" "maximum speed is 60000" "speed ".
Proof. reflexivity. Qed.

Lemma set_minspeed_shape :
  set_minspeed = clamped_send 50 60000 "minimum speed is 50" "maximum speed is 60000" "minspeed ".
Proof. reflexivity. Qed.

Lemma set_rampslope_shape :
  set_rampslope = clamped_send 1 255 "minimum acceleration is 1" "maximum acceleration is  255" "rampslope ".
Proof. reflexivity. Qed.

Lemma query_records_debug (exit : loop_exit) :
  Forall (fun r => levelname r = DEBUG) (query_records exit).
Proof. destruct exit; cbn; auto. Qed.

Lemma clamped_send_spec lo hi too_low too_high token (n : Z) (s : state) :
  lo <= hi -> connected s -> Py.all_ascii token = true ->
  clamped lo hi too_low too_high token n s
    (snd (clamped_send lo hi too_low too_high token (Int n) s)).
Proof.
  intros Hlh Hc Ha. unfold clamped_send, clamped.
  cbv beta iota delta [bind int_of_num ret].
  destruct (n <? lo) eqn:Elo; [|destruct (n >? hi) eqn:Ehi].
  - apply Z.ltb_lt in Elo.
    cbv beta iota delta [logger modify bind ret].
    set (s1 := with_log _ s).
    destruct (query_connected (token ++ Py.str_of_int lo) s1) as (sr & exit & rest & t & Hs & E);
      [now apply connected_with_log | now apply all_ascii_numbered |].
    rewrite E.
    assert (Hw : wire (after_query (token ++ Py.str_of_int lo) exit rest t sr s1) =
                 wire s ++ [((token ++ Py.str_of_int lo) ++ cr)%string])
      by (now rewrite (wire_after_query _ _ _ _ _ _ Hs)).
    replace (clamp lo hi n) with lo by (unfold clamp; lia).
    destruct exit; cbn [query_result snd]; rewrite Hw, append_assoc;
      (split; [reflexivity|]); (split; [intros _|split; intros; lia]);
      eexists; cbn; rewrite <- app_assoc; reflexivity.
  - apply Z.ltb_ge in Elo. apply Z.gtb_lt in Ehi.
    cbv beta iota delta [logger modify bind ret].
    set (s1 := with_log _ s).
    destruct (query_connected (token ++ Py.str_of_int hi) s1) as (sr & exit & rest & t & Hs & E);
      [now apply connected_with_log | now apply all_ascii_numbered |].
    rewrite E.
    assert (Hw : wire (after_query (token ++ Py.str_of_int hi) exit rest t sr s1) =
                 wire s ++ [((token ++ Py.str_of_int hi) ++ cr)%string])
      by (now rewrite (wire_after_query _ _ _ _ _ _ Hs)).
    replace (clamp lo hi n) with hi by (unfold clamp; lia).
    destruct exit; cbn [query_result snd]; rewrite Hw, append_assoc;
      (split; [reflexivity|]); (split; [intros; lia|split; [intros _|intros; lia]]);
      eexists; cbn; rewrite <- app_assoc; reflexivity.
  - apply Z.ltb_ge in Elo.
    assert (n <= hi) by (destruct (Z.gtb_spec n hi); [discriminate | lia]).
    destruct (query_connected (token ++ Py.str_of_int n) s) as (sr & exit & rest & t & Hs & E);
      [assumption | now apply all_ascii_numbered |].
    rewrite E.
    assert (Hw : wire (after_query (token ++ Py.str_of_int n) exit rest t sr s) =
                 wire s ++ [((token ++ Py.str_of_int n) ++ cr)%string])
      by (now rewrite (wire_after_query _ _ _ _ _ _ Hs)).
    replace (clamp lo hi n) with n by (unfold clamp; lia).
    destruct exit; cbn [query_result snd]; rewrite Hw, append_assoc;
      (split; [reflexivity|]); (split; [intros; lia|split; [intros; lia|intros _]]);
      eexists; (split; [reflexivity | apply query_records_debug]).
Qed.

(* ===================================================================== *)
(** ** Construction: the search for the port (C2) *)
(* ===================================================================== *)

Lemma bind_Ok {A B} (c : M A) (k : A -> M B) (s s' : state) (b : B) :
  (x <- c ;; k x) s = (Ok b, s') ->
  exists a s1, c s = (Ok a, s1) /\ k a s1 = (Ok b, s').
Proof.
  unfold bind. destruct (c s) as [[a|e|] s1]; intros H; try discriminate.
  now exists a, s1.
Qed.

Lemma query_closed (command : string) (s : state) (sr : Serial) :
  ser s = Some sr -> is_open sr = false ->
  query command s = (Raise PortNotOpenError, s).
Proof.
  intros H1 H2. cbv beta iota delta [query bind reset_input_buffer attr].
  rewrite H1, H2. reflexivity.
Qed.

(** [serial.Serial] on a timeout that is not negative, and on one that is. *)
Lemma Serial_accepts (p : option string) (timeout : Q) (line : list (list rx_event)) :
  (0 <= timeout)%Q -> Serial_ p timeout line = inr (serial_object p line).
Proof.
  intros H. unfold Serial_, Qltb. apply Qle_bool_iff in H. now rewrite H.
Qed.

Lemma Serial_refuses (p : option string) (timeout : Q) (line : list (list rx_event)) :
  (timeout < 0)%Q -> Serial_ p timeout line = inl ValueError.
Proof.
  intros H. unfold Serial_, Qltb.
  destruct (Qle_bool 0 timeout) eqn:E; [|reflexivity].
  apply Qle_bool_iff in E. lra.
Qed.

(** C2.  Construction without a port, with a timeout that [serial.Serial]
    accepts and a vendor and a product id that two or more of the listed
    ports carry: the warning is logged, but [port] is not assigned;
    [serial.Serial] receives [None], the serial object is created closed,
    nothing is written, and the first [query] raises [PortNotOpenError]. *)
Theorem several_matches_open_nothing (comports : list ListPortInfo)
    (line : list (list rx_event)) (newline : string) (timeout : Q) (v p : Z)
    (now : Q) (records : list LogRecord)
    (H : (1 < List.length (filter (ids_are v p) comports))%nat)
    (Htimeout : (0 <= timeout)%Q) :
  let run := __init__ comports line None newline timeout (Some v) (Some p)
               (blank now records) in
  fst run = Raise PortNotOpenError /\
  log (snd run) = records ++ [warning "Multiple matches found. Using first one"] /\
  option_map port (ser (snd run)) = Some None /\
  wire (snd run) = [].
Proof.
  cbv zeta. unfold __init__, find_port.
  cbv beta iota delta [bind modify ret logger lift].
  rewrite length_map.
  destruct (List.length (filter (ids_are v p) comports)) as [|[|n]] eqn:E; try lia.
  cbn -[query Serial_]. rewrite (Serial_accepts None timeout line Htimeout).
  cbn -[query].
  erewrite query_closed; [|reflexivity|reflexivity].
  repeat split.
Qed.

Lemma several_matches_on_two_ports :
  (1 < List.length (filter (ids_are 6790 29987) two_ports))%nat /\
  (0 <= 2)%Q /\
  fst (__init__ two_ports bench_line None cr 2 (Some 6790) (Some 29987) (blank 0 []))
    = Raise PortNotOpenError /\
  wire (snd (__init__ two_ports bench_line None cr 2 (Some 6790) (Some 29987) (blank 0 [])))
    = [].
Proof.
  assert (H : (1 < List.length (filter (ids_are 6790 29987) two_ports))%nat)
    by (vm_compute; lia).
  assert (H2 : (0 <= 2)%Q) by (vm_compute; discriminate).
  split; [exact H|]. split; [exact H2|].
  pose proof (several_matches_open_nothing two_ports bench_line cr 2 6790 29987 0 [] H H2)
    as (H1 & _ & _ & H4).
  split; [exact H1 | exact H4].
Defined.

(* ===================================================================== *)
(** ** Reading the position *)
(* ===================================================================== *)

(** A reply that parses: [get_position] stores the quotient, clears the
    flag and returns the quotient. *)
Lemma get_position_parsed (s s1 : state) (r : string) (n : Z)
    (u x y : Float.float) :
  query "WZ" s = (Ok (Some r), s1) ->
  Py.int_of_str r = Some n ->
  _units_per_um s1 = Some u ->
  Float.of_int n = inr x ->
  Float.truediv x u = inr y ->
  get_position s =
    (Ok (Some y), with_moved_since_last_read false (with_pos y s1)).
Proof.
  intros Hq Hn Hu Hx Hy.
  cbv beta iota delta [get_position bind try_except int_of_reply microns attr lift
                       ret raise modify].
  rewrite Hq, Hn, Hu, Hx, Hy. reflexivity.
Qed.

(** A reply that is there but does not parse: a warning, [None], and the
    cache as it was. *)
Lemma get_position_unparsed (s s1 : state) (r : string) :
  query "WZ" s = (Ok (Some r), s1) ->
  Py.int_of_str r = None ->
  get_position s =
    (Ok None, with_log (log s1 ++ [warning ("unexpected message: " ++ r)]) s1).
Proof.
  intros Hq Hn.
  cbv beta iota delta [get_position bind try_except int_of_reply microns attr lift
                       ret raise modify unexpected_message logger].
  rewrite Hq, Hn. reflexivity.
Qed.

(** Whenever [get_position] returns a position, that position is in the
    cache and the flag is clear. *)
Lemma get_position_Some (s s2 : state) (p : Float.float) :
  get_position s = (Ok (Some p), s2) ->
  _pos s2 = Some p /\ _moved_since_last_read s2 = Some false.
Proof.
  cbv beta iota delta [get_position bind try_except int_of_reply microns attr lift
                       ret raise modify unexpected_message logger].
  destruct (query "WZ" s) as [[reply|e|] s1]; try discriminate.
  destruct reply as [r|]; [|discriminate].
  destruct (Py.int_of_str r) as [n|]; [|discriminate].
  destruct (_units_per_um s1) as [u|]; [|discriminate].
  destruct (Float.of_int n) as [e|x]; [discriminate|].
  destruct (Float.truediv x u) as [e|y]; [discriminate|].
  intros H. injection H as <- <-. split; reflexivity.
Qed.

(** Every run of [get_position] on a connected instance writes [WZ] and a
    carriage return, once. *)
Lemma get_position_wire (s : state) :
  connected s -> wire (snd (get_position s)) = wire s ++ ["WZ" ++ cr]%string.
Proof.
  intros Hc. unfold get_position.
  apply wire_query_then; [assumption | reflexivity |].
  intros r s1.
  cbv beta iota delta [bind try_except int_of_reply microns attr lift
                       ret raise modify unexpected_message logger].
  destruct r as [r|]; [|reflexivity].
  destruct (Py.int_of_str r) as [n|]; [|reflexivity].
  destruct (_units_per_um s1) as [u|]; [|reflexivity].
  destruct (Float.of_int n) as [e|x]; [reflexivity|].
  destruct (Float.truediv x u) as [e|y]; reflexivity.
Qed.

(* ===================================================================== *)
(** ** The cached position (C5) *)
(* ===================================================================== *)

(** C5.  In every state: with the flag clear and [p] in the cache, [pos]
    returns [p] and leaves the whole state as it was, the serial object
    included; with the flag set, [pos] is one run of [get_position], which
    on a connected instance writes [WZ] and a carriage return once,
    whatever the reply, and, when the reply [r] is the decimal of an int
    [n], stores and returns the float [n / _units_per_um] with the flag
    cleared. *)
Theorem pos_cached_or_one_read (s : state) :
  (forall p, _moved_since_last_read s = Some false -> _pos s = Some p ->
     pos s = (Ok (Some p), s)) /\
  (_moved_since_last_read s = Some true ->
     pos s = get_position s /\
     (connected s -> wire (snd (pos s)) = wire s ++ ["WZ" ++ cr]%string) /\
     forall s1 r n u x y,
       query "WZ" s = (Ok (Some r), s1) ->
       Py.int_of_str r = Some n ->
       _units_per_um s1 = Some u ->
       Float.of_int n = inr x ->
       Float.truediv x u = inr y ->
       pos s = (Ok (Some y), with_moved_since_last_read false (with_pos y s1))).
Proof.
  split.
  - intros p Hm Hp. unfold pos, bind, attr. now rewrite Hm, Hp.
  - intros Hm.
    assert (E : pos s = get_position s) by (unfold pos, bind, attr; now rewrite Hm).
    split; [exact E|]. rewrite E. split.
    + apply get_position_wire.
    + intros s1 r n u x y. apply get_position_parsed.
Qed.

Lemma pos_on_the_bench :
  _moved_since_last_read bench = Some true /\
  fst (pos bench) = Ok (Some twelve_34) /\
  wire (snd (pos bench)) = wire bench ++ ["WZ" ++ cr]%string /\
  pos (snd (pos bench)) = (Ok (Some twelve_34), snd (pos bench)).
Proof.
  assert (Hm : _moved_since_last_read bench = Some true) by (vm_compute; reflexivity).
  split; [exact Hm|].
  destruct (pos_cached_or_one_read bench) as (_ & Hdirty).
  destruct (Hdirty Hm) as (_ & Hw & Hparsed).
  split.
  { erewrite Hparsed; [reflexivity | vm_compute; reflexivity | reflexivity
                      | reflexivity | reflexivity | vm_compute; reflexivity]. }
  split; [exact (Hw bench_connected)|].
  destruct (pos_cached_or_one_read (snd (pos bench))) as (Hclean & _).
  apply Hclean; vm_compute; reflexivity.
Defined.

(* ===================================================================== *)
(** ** Construction: the state it leaves (C3) *)
(* ===================================================================== *)

Lemma find_port_ser comports port v p (s : state) :
  ser (snd (find_port comports port v p s)) = ser s.
Proof.
  unfold find_port. destruct port; [reflexivity|].
  destruct v as [v|], p as [p|]; try reflexivity.
  destruct (List.length _ =? 0)%nat.
  - unfold bind, format. destruct (forallb formattable _); reflexivity.
  - destruct (1 <? List.length _)%nat; reflexivity.
Qed.

(** The construction on the bench succeeds and leaves the flag set: the
    first [pos] afterwards goes to the device. *)
Lemma construction_on_the_bench_ends_dirty :
  __init__ [] bench_line (Some "COM1"%string) cr 2 None None (blank 0 []) = (Ok tt, bench) /\
  _moved_since_last_read bench = Some true /\
  _moved_since_last_read bench <> Some false /\
  wire (snd (pos bench)) = wire bench ++ ["WZ" ++ cr]%string /\
  wire (snd (pos bench)) <> wire bench.
Proof.
  split; [vm_compute; reflexivity|].
  split; [vm_compute; reflexivity|].
  split; [vm_compute; discriminate|].
  split; [vm_compute; reflexivity|].
  vm_compute. discriminate.
Qed.

(** C3, as the code has it.  A construction that returns with a serial
    object ends with [get_position] followed by the assignment
    [_moved_since_last_read = True]: the cache holds the position that this
    [get_position] returned, if it returned one, and the flag is set, so
    that the first [pos] afterwards is a run of [get_position]. *)
Theorem construction_ends_dirty (comports : list ListPortInfo)
    (line : list (list rx_event)) (port : option string) (newline : string)
    (timeout : Q) (v p : option Z) (now : Q) (records : list LogRecord)
    (s' : state)
    (Hrun : __init__ comports line port newline timeout v p (blank now records)
              = (Ok tt, s'))
    (Hser : ser s' <> None) :
  _moved_since_last_read s' = Some true /\
  pos s' = get_position s' /\
  exists s1 r s2,
    get_position s1 = (Ok r, s2) /\
    s' = with_moved_since_last_read true s2 /\
    forall q, r = Some q -> _pos s' = Some q.
Proof.
  unfold __init__ in Hrun.
  apply bind_Ok in Hrun as (? & s0 & H0 & Hrun).
  apply bind_Ok in Hrun as (found & s1 & Hf & Hrun).
  destruct found as [port'|].
  - apply bind_Ok in Hrun as (sr & s2' & _ & Hrun).
    apply bind_Ok in Hrun as (? & s2 & _ & Hrun).
    apply bind_Ok in Hrun as (idn & s3 & _ & Hrun).
    apply bind_Ok in Hrun as (? & s4 & _ & Hrun).
    apply bind_Ok in Hrun as (? & s5 & _ & Hrun).
    apply bind_Ok in Hrun as (status & s6 & _ & Hrun).
    apply bind_Ok in Hrun as (? & s7 & _ & Hrun).
    apply bind_Ok in Hrun as (r & s8 & Hg & Hrun).
    unfold modify in Hrun. injection Hrun as <-.
    split; [reflexivity|]. split; [reflexivity|].
    exists s7, r, s8. split; [exact Hg|]. split; [reflexivity|].
    intros q ->. now apply get_position_Some in Hg.
  - unfold ret in Hrun. injection Hrun as <-.
    exfalso. apply Hser.
    replace s1 with (snd (find_port comports port v p s0)) by (now rewrite Hf).
    rewrite find_port_ser. unfold modify in H0. injection H0 as H0. now subst s0.
Qed.

Lemma construction_ends_dirty_on_the_bench :
  ser bench <> None /\
  _moved_since_last_read bench = Some true /\
  pos bench = get_position bench.
Proof.
  assert (Hrun : __init__ [] bench_line (Some "COM1"%string) cr 2 None None (blank 0 [])
                 = (Ok tt, bench)) by (vm_compute; reflexivity).
  assert (Hser : ser bench <> None) by (vm_compute; discriminate).
  split; [exact Hser|].
  destruct (construction_ends_dirty _ _ _ _ _ _ _ _ _ _ Hrun Hser) as (H1 & H2 & _).
  split; [exact H1 | exact H2].
Defined.

(* ===================================================================== *)
(** ** The framing of a reply (C1) and the timeout (C4) *)
(* ===================================================================== *)

Lemma Qltb_true (x y : Q) : (x < y)%Q -> Qltb x y = true.
Proof.
  intros H. unfold Qltb. destruct (Qle_bool y x) eqn:E; [|reflexivity].
  apply Qle_bool_iff in E. lra.
Qed.

Lemma Qltb_false (x y : Q) : (y <= x)%Q -> Qltb x y = false.
Proof.
  intros H. unfold Qltb. apply Qle_bool_iff in H. now rewrite H.
Qed.

Lemma append_nil_r (a : string) : (a ++ "")%string = a.
Proof. induction a as [|c a IH]; cbn; [reflexivity | now rewrite IH]. Qed.

Lemma seconds_S (n : nat) (dt : Q) : (seconds (S n) dt == dt + seconds n dt)%Q.
Proof.
  unfold seconds. rewrite Nat2Z.inj_succ. unfold Z.succ.
  rewrite inject_Z_plus. ring.
Qed.

Lemma seconds_nonneg (n : nat) (dt : Q) : (0 <= dt)%Q -> (0 <= seconds n dt)%Q.
Proof.
  intros H. unfold seconds. apply Qmult_le_0_compat; [|exact H].
  change 0%Q with (inject_Z 0). rewrite <- Zle_Qle. lia.
Qed.

Section Loop.
Variables (deadline dt : Q).
Hypothesis Hdt : (0 <= dt)%Q.

(** Plain text that arrives before the deadline is accumulated whole. *)
Lemma while_loop_text (text : string) :
  forall (buffer : string) (now : Q) (tail : list rx_event),
    plain text = true ->
    (now + seconds (String.length text) dt < deadline)%Q ->
    exists t,
      (t == now + seconds (String.length text) dt)%Q /\
      while_loop deadline (bytes_arriving dt text ++ tail) now buffer =
      while_loop deadline tail t (buffer ++ text).
Proof.
  induction text as [|c text IH]; intros buffer now tail Hp Ht.
  - exists now. split; [unfold seconds; cbn; ring|].
    now rewrite append_nil_r.
  - cbn in Hp. apply andb_prop in Hp as (Hc & Hp).
    apply andb_prop in Hc as (Hascii & Hcr).
    apply negb_true_iff in Hcr.
    cbn [String.length] in Ht. rewrite seconds_S in Ht.
    pose proof (seconds_nonneg (String.length text) dt Hdt) as Hpos.
    destruct (IH (buffer ++ String c "")%string (now + dt)%Q tail Hp) as (t & Et & E);
      [lra|].
    exists t. split; [cbn [String.length]; rewrite seconds_S, Et; ring|].
    rewrite append_assoc in E. cbn [append] in E.
    cbn. rewrite (Qltb_true now deadline) by lra.
    rewrite Hcr, Hascii. exact E.
Qed.
End Loop.

Lemma bytes_arriving_app (dt : Q) (a b : string) :
  bytes_arriving dt (a ++ b) = bytes_arriving dt a ++ bytes_arriving dt b.
Proof.
  unfold bytes_arriving. induction a as [|c a IH]; cbn; [reflexivity | now rewrite IH].
Qed.

(** A whole line that arrives in time: the loop returns what came before
    the carriage return. *)
Lemma while_loop_line (deadline dt : Q) (text : string) (now : Q)
    (more : list rx_event) :
  (0 <= dt)%Q -> plain text = true ->
  (now + seconds (String.length text) dt < deadline)%Q ->
  exists t, while_loop deadline (bytes_arriving dt (text ++ cr) ++ more) now EmptyString
            = (Line text, more, t).
Proof.
  intros Hdt Hp Ht.
  rewrite bytes_arriving_app, <- app_assoc.
  destruct (while_loop_text deadline dt Hdt text EmptyString now
              (bytes_arriving dt cr ++ more) Hp Ht) as (t & Et & E).
  rewrite E. cbn. rewrite (Qltb_true t deadline) by lra.
  eexists. reflexivity.
Qed.

(** A line that stops short: after the text the next read(1) returns
    nothing and the deadline has passed.  The loop ends by its condition. *)
Lemma while_loop_expired (deadline dt wait : Q) (text : string) (now : Q)
    (more : list rx_event) :
  (0 <= dt)%Q -> plain text = true ->
  (now + seconds (String.length text) dt < deadline)%Q ->
  (deadline <= now + seconds (String.length text) dt + wait)%Q ->
  exists t, while_loop deadline (bytes_arriving dt text ++ silence wait :: more) now EmptyString
            = (Expired, more, t).
Proof.
  intros Hdt Hp Ht Hw.
  destruct (while_loop_text deadline dt Hdt text EmptyString now
              (silence wait :: more) Hp Ht) as (t & Et & E).
  rewrite E. cbn. rewrite (Qltb_true t deadline) by lra.
  destruct more as [|ev more]; cbn; rewrite (Qltb_false (t + wait) deadline) by lra;
    eexists; reflexivity.
Qed.

Lemma substring_skip (a b : string) (n : nat) :
  substring (String.length a) n (a ++ b) = substring 0 n b.
Proof. induction a as [|c a IH]; cbn; [reflexivity | exact IH]. Qed.

Lemma substring_take (a b : string) :
  substring 0 (String.length a) (a ++ b) = a.
Proof.
  induction a as [|c a IH]; cbn; [now destruct b | now rewrite IH].
Qed.

Lemma length_append (a b : string) :
  String.length (a ++ b) = (String.length a + String.length b)%nat.
Proof. induction a as [|c a IH]; cbn; [reflexivity | now rewrite IH]. Qed.

(** [buffer[3:-1]] drops three characters in front and one behind. *)
Lemma slice_3_m1 (prefix payload : string) (last : ascii) :
  String.length prefix = 3%nat ->
  Py.slice (prefix ++ payload ++ String last "") 3 (-1) = payload.
Proof.
  intros H3. unfold Py.slice, Py.norm_index.
  rewrite !length_append, H3. cbn [String.length].
  replace (3 <? 0) with false by reflexivity.
  replace (-1 <? 0) with true by reflexivity.
  set (n := String.length payload).
  replace (Z.to_nat (Z.min 3 (Z.of_nat (3 + (n + 1))))) with (String.length prefix) by lia.
  replace (Z.to_nat (Z.max 0 (Z.of_nat (3 + (n + 1)) + -1) - Z.min 3 (Z.of_nat (3 + (n + 1)))))
    with n by lia.
  rewrite substring_skip. apply substring_take.
Qed.

(** The raw line ["001-42\r"]: the carriage return ends the loop without
    entering the buffer, so that [buffer[3:-1]] cuts the last digit. *)
Lemma raw_line_001_42_loses_a_digit :
  fst (query "WZ" (plugged 2 [bytes_arriving (1 # 100) ("001-42" ++ cr)]))
    = Ok (Some "-4"%string) /\
  fst (query "WZ" (plugged 2 [bytes_arriving (1 # 100) ("001-42" ++ cr)]))
    <> Ok (Some "-42"%string).
Proof. split; vm_compute; [reflexivity | discriminate]. Qed.

(** C1, as the code has it.  A reply of plain text followed by a carriage
    return, all of it read before the timeout: [query] returns the text
    without its first three characters and without its last one; the
    carriage return is not part of what is cut.  So a line made of a
    three-character prefix, a payload, one more character and the carriage
    return gives the payload. *)
Theorem query_strips_three_and_one (s : state) (sr : Serial) (T dt : Q)
    (command text : string) (more : list rx_event)
    (Hser : ser s = Some sr) (Hopen : is_open sr = true)
    (Htimeout : _timeout s = Some T)
    (Hcommand : Py.all_ascii command = true)
    (Hplain : plain text = true)
    (Hline : hd [] (replies sr) = bytes_arriving dt (text ++ cr) ++ more)
    (Hdt : (0 <= dt)%Q)
    (Htime : (seconds (String.length text) dt < T)%Q) :
  fst (query command s) = Ok (Some (Py.slice text 3 (-1))) /\
  forall prefix payload last,
    text = (prefix ++ payload ++ String last "")%string ->
    String.length prefix = 3%nat ->
    fst (query command s) = Ok (Some payload).
Proof.
  assert (E : fst (query command s) = Ok (Some (Py.slice text 3 (-1)))).
  { rewrite (query_unfold s sr T command Hser Hopen Htimeout Hcommand).
    unfold loop_of. rewrite Hline.
    destruct (while_loop_line (clock s + T) dt text (clock s) more Hdt Hplain) as (t & Et);
      [lra|].
    rewrite Et. reflexivity. }
  split; [exact E|].
  intros prefix payload last -> H3. rewrite E. now rewrite slice_3_m1.
Qed.

Lemma query_strips_three_and_one_example :
  fst (query "WZ" (plugged 2 [bytes_arriving (1 # 100) (":A -42 " ++ cr)]))
    = Ok (Some "-42"%string).
Proof.
  refine (proj2 (query_strips_three_and_one
            (plugged 2 [bytes_arriving (1 # 100) (":A -42 " ++ cr)])
            (serial_object (Some "COM1"%string) [bytes_arriving (1 # 100) (":A -42 " ++ cr)])
            2 (1 # 100) "WZ"%string ":A -42 "%string [] eq_refl eq_refl eq_refl eq_refl eq_refl eq_refl _ _)
          ":A "%string "-42"%string " "%char eq_refl eq_refl).
  - vm_compute. discriminate.
  - vm_compute. reflexivity.
Defined.

(** C4.  A reply that stops short: plain text arrives in time, then a
    read(1) returns nothing and the timeout has passed.  [query] leaves its
    loop by the condition and runs off its end: the result is [None],
    whatever had been accumulated, and nothing is logged. *)
Theorem expired_query_returns_None (s : state) (sr : Serial) (T dt wait : Q)
    (command text : string) (more : list rx_event)
    (Hser : ser s = Some sr) (Hopen : is_open sr = true)
    (Htimeout : _timeout s = Some T)
    (Hcommand : Py.all_ascii command = true)
    (Hplain : plain text = true)
    (Hline : hd [] (replies sr) = bytes_arriving dt text ++ silence wait :: more)
    (Hdt : (0 <= dt)%Q)
    (Htime : (seconds (String.length text) dt < T)%Q)
    (Hwait : (T <= seconds (String.length text) dt + wait)%Q) :
  fst (query command s) = Ok None /\
  log (snd (query command s)) = log s.
Proof.
  rewrite (query_unfold s sr T command Hser Hopen Htimeout Hcommand).
  unfold loop_of. rewrite Hline.
  destruct (while_loop_expired (clock s + T) dt wait text (clock s) more Hdt Hplain)
    as (t & Et); [lra | lra |].
  rewrite Et. cbn. now rewrite app_nil_r.
Qed.

Lemma expired_query_example :
  fst (query "WZ" (plugged 2 [bytes_arriving (1 # 100) "001-42" ++ [silence 2]]))
    = Ok None.
Proof.
  refine (proj1 (expired_query_returns_None
            (plugged 2 [bytes_arriving (1 # 100) "001-42" ++ [silence 2]])
            (serial_object (Some "COM1"%string) [bytes_arriving (1 # 100) "001-42" ++ [silence 2]])
            2 (1 # 100) 2 "WZ"%string "001-42"%string [] eq_refl eq_refl eq_refl eq_refl eq_refl eq_refl _ _ _)).
  - vm_compute. discriminate.
  - vm_compute. reflexivity.
  - vm_compute. discriminate.
Defined.

(* ===================================================================== *)
(** ** The resolution (C7) *)
(* ===================================================================== *)

(** The two scales are the floats 100 and 10. *)
Lemma scales_are_100_and_10 :
  (exists q, Float.to_Q Float.lit_100_0 = Some q /\ (q == 100)%Q) /\
  (exists q, Float.to_Q Float.lit_10_0 = Some q /\ (q == 10)%Q).
Proof. split; eexists; (split; [reflexivity | vm_compute; reflexivity]). Qed.

(** A [query] assigns no attribute but [ser]. *)
Lemma query_attributes (command : string) (s : state) :
  let s' := snd (query command s) in
  _units_per_um s' = _units_per_um s /\
  _smallest_um_step s' = _smallest_um_step s /\
  _pos s' = _pos s /\
  _moved_since_last_read s' = _moved_since_last_read s /\
  _timeout s' = _timeout s.
Proof.
  cbv beta iota zeta delta [query bind reset_input_buffer attr encode_ascii
    write time read_reply modify ret raise logger].
  destruct (ser s) as [sr|]; [|cbn; auto].
  destruct (is_open sr); [|cbn; auto].
  cbn -[while_loop Py.slice Qplus Py.all_ascii].
  destruct (Py.all_ascii (command ++ cr)); [|cbn; auto].
  cbn -[while_loop Py.slice Qplus].
  destruct (_timeout s) as [T|] eqn:ET; [|cbn; auto].
  cbn -[while_loop Py.slice Qplus].
  destruct (while_loop _ _ _ _) as [[exit rest] t].
  destruct exit; cbn -[Py.slice]; auto.
Qed.

(** [_get_resolution_info] on a reply of two tokens, the first an int. *)
Lemma _get_resolution_info_unfold (s s1 : state) (reply number fraction : string) (n : Z) :
  query "RESOLUTION" s = (Ok (Some reply), s1) ->
  Py.split_on " " reply = [number; fraction] ->
  Py.int_of_str number = Some n ->
  _get_resolution_info s =
    (Ok tt,
     with_log (log (after_scale fraction s1) ++
               [{| levelname := INFO; msg := "Setting smallest_um_step to {}";
                   args := [ANum (Int n)] |}])
       (with_smallest_um_step (Int n) (after_scale fraction s1))).
Proof.
  intros Hquery Hsplit Hint.
  cbv beta iota delta [_get_resolution_info bind split_reply int_of_reply ret raise
                       modify logger after_scale].
  rewrite Hquery, Hsplit.
  destruct (String.eqb fraction "HUNDREDTHS"); [|destruct (String.eqb fraction "TENTHS")];
    rewrite Hint; reflexivity.
Qed.

(** C7.  When the reply to [RESOLUTION] splits at its spaces into exactly
    an integer token and a unit word, [_get_resolution_info] returns, the
    smallest step is the int of the first token, and the scale is 100.0
    for [HUNDREDTHS], 10.0 for [TENTHS] and, for any other word, what it
    was before the call: not set if it had not been set.  In particular
    ["5 HUNDREDTHS"] gives 100.0 and 5, and ["2 TENTHS"] gives 10.0 and 2. *)
Theorem resolution_parsing (s s1 : state) (reply number fraction : string) (n : Z)
    (Hquery : query "RESOLUTION" s = (Ok (Some reply), s1))
    (Hsplit : Py.split_on " " reply = [number; fraction])
    (Hint : Py.int_of_str number = Some n) :
  let s' := snd (_get_resolution_info s) in
  fst (_get_resolution_info s) = Ok tt /\
  _smallest_um_step s' = Some (Int n) /\
  (fraction = "HUNDREDTHS"%string -> _units_per_um s' = Some Float.lit_100_0) /\
  (fraction = "TENTHS"%string -> _units_per_um s' = Some Float.lit_10_0) /\
  (fraction <> "HUNDREDTHS"%string -> fraction <> "TENTHS"%string ->
   _units_per_um s' = _units_per_um s) /\
  (reply = "5 HUNDREDTHS"%string ->
   _units_per_um s' = Some Float.lit_100_0 /\ _smallest_um_step s' = Some (Int 5)) /\
  (reply = "2 TENTHS"%string ->
   _units_per_um s' = Some Float.lit_10_0 /\ _smallest_um_step s' = Some (Int 2)).
Proof.
  pose proof (query_attributes "RESOLUTION" s) as Hattr. rewrite Hquery in Hattr.
  cbv zeta in Hattr. cbn [snd] in Hattr. destruct Hattr as (Hu & _).
  cbv zeta. rewrite (_get_resolution_info_unfold s s1 reply number fraction n Hquery Hsplit Hint).
  cbn [fst snd with_log with_smallest_um_step _smallest_um_step _units_per_um].
  assert (Hh : fraction = "HUNDREDTHS"%string ->
               _units_per_um (after_scale fraction s1) = Some Float.lit_100_0)
    by (intros ->; reflexivity).
  assert (Ht : fraction = "TENTHS"%string ->
               _units_per_um (after_scale fraction s1) = Some Float.lit_10_0)
    by (intros ->; reflexivity).
  split; [reflexivity|]. split; [reflexivity|].
  split; [exact Hh|]. split; [exact Ht|]. split; [|split].
  - intros H1 H2. apply String.eqb_neq in H1, H2.
    unfold after_scale. rewrite H1, H2. exact Hu.
  - intros ->. cbn in Hsplit. injection Hsplit as <- <-.
    cbn in Hint. injection Hint as <-. split; [apply Hh|]; reflexivity.
  - intros ->. cbn in Hsplit. injection Hsplit as <- <-.
    cbn in Hint. injection Hint as <-. split; [apply Ht|]; reflexivity.
Qed.

Lemma resolution_parsing_examples :
  _units_per_um (snd (_get_resolution_info
                        (plugged 2 [bytes_arriving (1 # 100) (":A 5 HUNDREDTHS " ++ cr)])))
    = Some Float.lit_100_0 /\
  _smallest_um_step (snd (_get_resolution_info
                        (plugged 2 [bytes_arriving (1 # 100) (":A 5 HUNDREDTHS " ++ cr)])))
    = Some (Int 5) /\
  _units_per_um (snd (_get_resolution_info
                        (plugged 2 [bytes_arriving (1 # 100) (":A 3 THOUSANDTHS " ++ cr)])))
    = None /\
  _smallest_um_step (snd (_get_resolution_info
                        (plugged 2 [bytes_arriving (1 # 100) (":A 3 THOUSANDTHS " ++ cr)])))
    = Some (Int 3).
Proof.
  pose proof (resolution_parsing
    (plugged 2 [bytes_arriving (1 # 100) (":A 5 HUNDREDTHS " ++ cr)])
    (snd (query "RESOLUTION" (plugged 2 [bytes_arriving (1 # 100) (":A 5 HUNDREDTHS " ++ cr)])))
    "5 HUNDREDTHS" "5" "HUNDREDTHS" 5
    ltac:(vm_compute; reflexivity) eq_refl eq_refl) as (_ & _ & _ & _ & _ & H5 & _).
  pose proof (resolution_parsing
    (plugged 2 [bytes_arriving (1 # 100) (":A 3 THOUSANDTHS " ++ cr)])
    (snd (query "RESOLUTION" (plugged 2 [bytes_arriving (1 # 100) (":A 3 THOUSANDTHS " ++ cr)])))
    "3 THOUSANDTHS" "3" "THOUSANDTHS" 3
    ltac:(vm_compute; reflexivity) eq_refl eq_refl) as (_ & H3 & _ & _ & Hother & _ & _).
  destruct (H5 eq_refl) as (Hu & Hs).
  split; [exact Hu|]. split; [exact Hs|].
  split; [|exact H3].
  apply Hother; discriminate.
Defined.

(* ===================================================================== *)
(** ** Rounding in binary64 *)
(* ===================================================================== *)

Lemma B_pos (e : Z) : (0 < B e)%Q.
Proof. apply Qpower_0_lt. reflexivity. Qed.

Lemma B_add (a b : Z) : (B (a + b) == B a * B b)%Q.
Proof. apply Qpower_plus. discriminate. Qed.

Lemma B_le (a b : Z) : a <= b -> (B a <= B b)%Q.
Proof. intros H. apply Qpower_le_compat_l; [exact H | discriminate]. Qed.

Lemma B_lt_inv (a b : Z) : (B a < B b)%Q -> a < b.
Proof. intros H. apply (Qpower_lt_compat_l_inv (2 # 1)); [exact H | reflexivity]. Qed.

Lemma B_Z (k : Z) : 0 <= k -> (inject_Z (2 ^ k) == B k)%Q.
Proof. intros H. now rewrite Zpower_Qpower. Qed.

Lemma B_opp (k : Z) : (B k * B (- k) == 1)%Q.
Proof.
  rewrite <- B_add. replace (k + - k) with 0 by lia. reflexivity.
Qed.

(** The number of binary digits of a positive. *)
Lemma digits2_size (p : positive) : digits2_pos p = Pos.size p.
Proof. induction p; cbn; congruence. Qed.

Lemma digits_upper (p : positive) : Zpos p < 2 ^ Zpos (digits2_pos p).
Proof.
  rewrite digits2_size. pose proof (Pos.size_gt p) as H.
  rewrite <- Pos2Z.inj_pow. lia.
Qed.

Lemma digits_lower (p : positive) : 2 ^ (Zpos (digits2_pos p) - 1) <= Zpos p.
Proof.
  rewrite digits2_size. pose proof (Pos.size_le p) as H.
  assert (E : 2 ^ Zpos (Pos.size p) = 2 * 2 ^ (Zpos (Pos.size p) - 1)).
  { rewrite <- Z.pow_succ_r by lia. f_equal. lia. }
  rewrite <- Pos2Z.inj_pow in E. lia.
Qed.

Lemma digits_le (p : positive) (k : Z) : Zpos p < 2 ^ k -> Zpos (digits2_pos p) <= k.
Proof.
  intros H. pose proof (digits_lower p) as L.
  destruct (Z.le_gt_cases (Zpos (digits2_pos p)) k) as [|G]; [assumption|].
  exfalso. assert (2 ^ k <= 2 ^ (Zpos (digits2_pos p) - 1)).
  { destruct (Z.le_gt_cases 0 k).
    - apply Z.pow_le_mono_r; lia.
    - rewrite (Z.pow_neg_r 2 k) by lia. apply Z.pow_nonneg. lia. }
  lia.
Qed.

Lemma inbin_compat (mrs : shr_record) (X Y : Q) :
  (X == Y)%Q -> inbin mrs X -> inbin mrs Y.
Proof.
  intros E (H0 & H). split; [exact H0|].
  destruct (shr_r mrs), (shr_s mrs); lra.
Qed.

Lemma inbin_bounds (mrs : shr_record) (X : Q) :
  inbin mrs X -> (inject_Z (shr_m mrs) <= X /\ X < inject_Z (shr_m mrs) + 1)%Q.
Proof. intros (_ & H). destruct (shr_r mrs), (shr_s mrs); lra. Qed.

Lemma inject_xO (p : positive) : (inject_Z (Zpos p~0) == 2 * inject_Z (Zpos p))%Q.
Proof. rewrite Pos2Z.inj_xO, inject_Z_mult. reflexivity. Qed.

Lemma inject_xI (p : positive) : (inject_Z (Zpos p~1) == 2 * inject_Z (Zpos p) + 1)%Q.
Proof. rewrite Pos2Z.inj_xI, inject_Z_plus, inject_Z_mult. reflexivity. Qed.

(** One shift to the right halves the rational. *)
Lemma shr_1_inbin (mrs : shr_record) (X : Q) :
  inbin mrs X -> inbin (shr_1 mrs) (X * (1 # 2)).
Proof.
  destruct mrs as [m r s]. unfold inbin. cbn [shr_m shr_r shr_s].
  intros (H0 & H).
  destruct m as [|p|p]; [| |lia].
  - change (inject_Z 0) with 0%Q in *.
    destruct r, s; cbn [shr_1 shr_m shr_r shr_s orb]; change (inject_Z 0) with 0%Q;
      (split; [lia|]); lra.
  - destruct p as [p|p|].
    + pose proof (inject_xI p). destruct r, s; cbn [shr_1 shr_m shr_r shr_s orb];
        (split; [lia|]); lra.
    + pose proof (inject_xO p). destruct r, s; cbn [shr_1 shr_m shr_r shr_s orb];
        (split; [lia|]); lra.
    + change (inject_Z 1) with 1%Q in *.
      destruct r, s; cbn [shr_1 shr_m shr_r shr_s orb]; change (inject_Z 0) with 0%Q;
        (split; [lia|]); lra.
Qed.

(** And [k] shifts divide it by [2 ^ k]. *)
Lemma iter_shr_1_inbin (k : positive) :
  forall (mrs : shr_record) (X : Q),
    inbin mrs X -> inbin (iter_pos shr_1 k mrs) (X * B (- Zpos k)).
Proof.
  induction k as [k IH|k IH|]; intros mrs X H; cbn [iter_pos].
  - apply (inbin_compat _ (X * (1 # 2) * B (- Zpos k) * B (- Zpos k))).
    + rewrite Pos2Z.inj_xI.
      replace (- (2 * Zpos k + 1)) with (-1 + (- Zpos k + - Zpos k)) by lia.
      rewrite !B_add. change (B (-1)) with (1 # 2). ring.
    + apply IH, IH, shr_1_inbin, H.
  - apply (inbin_compat _ (X * B (- Zpos k) * B (- Zpos k))).
    + rewrite Pos2Z.inj_xO.
      replace (- (2 * Zpos k)) with (- Zpos k + - Zpos k) by lia.
      rewrite !B_add. ring.
    + apply IH, IH, H.
  - apply (inbin_compat _ (X * (1 # 2))); [reflexivity|].
    apply shr_1_inbin, H.
Qed.

Lemma fexp64 (x : Z) : fexp Float.prec Float.emax x = Z.max (x - 53) (-1074).
Proof. reflexivity. Qed.

(** Rounding to nearest, ties to even, as the record tells it. *)
Lemma round_nearest_even_inbin (mrs : shr_record) (X : Q) :
  inbin mrs X ->
  let m2 := round_nearest_even (shr_m mrs) (loc_of_shr_record mrs) in
  shr_m mrs <= m2 <= shr_m mrs + 1 /\
  (inject_Z m2 - (1 # 2) <= X /\ X <= inject_Z m2 + (1 # 2))%Q /\
  (shr_r mrs = false -> shr_s mrs = false -> (inject_Z m2 == X)%Q).
Proof.
  destruct mrs as [m r s]. unfold inbin. cbn [shr_m shr_r shr_s].
  intros (H0 & H).
  assert (E1 : (inject_Z (m + 1) == inject_Z m + 1)%Q) by (rewrite inject_Z_plus; reflexivity).
  destruct r, s; cbn [loc_of_shr_record round_nearest_even]; cbv zeta.
  - rewrite E1. repeat split; try lia; try lra; try discriminate.
  - destruct (Z.even m); rewrite ?E1; repeat split; try lia; try lra; try discriminate.
  - repeat split; try lia; try lra; try discriminate.
  - repeat split; try lia; try lra.
Qed.

Lemma shr_inbin (mrs : shr_record) (e n : Z) (X : Q) :
  inbin mrs X ->
  inbin (fst (shr mrs e n)) (X * B (- Z.max 0 n)) /\
  snd (shr mrs e n) = e + Z.max 0 n.
Proof.
  intros H. destruct n as [|p|p]; cbn [shr fst snd].
  - split; [|lia]. apply (inbin_compat _ X); [|exact H].
    change (B (- Z.max 0 0)) with 1%Q. ring.
  - split; [|lia]. replace (Z.max 0 (Zpos p)) with (Zpos p) by lia.
    now apply iter_shr_1_inbin.
  - split; [|lia]. apply (inbin_compat _ X); [|exact H].
    replace (Z.max 0 (Zneg p)) with 0 by lia. change (B (- 0)) with 1%Q. ring.
Qed.

Lemma Zdigits2_upper (m : Z) : 0 <= m -> m + 1 <= 2 ^ Zdigits2 m.
Proof.
  intros H. destruct m as [|p|p]; [cbn; lia | | lia].
  cbn [Zdigits2]. pose proof (digits_upper p). lia.
Qed.

Lemma Zdigits2_le (m k : Z) : 0 <= m -> 0 <= k -> m < 2 ^ k -> Zdigits2 m <= k.
Proof.
  intros H Hk L. destruct m as [|p|p]; [cbn; lia | | lia].
  cbn [Zdigits2]. now apply digits_le.
Qed.

Lemma Zdigits2_nonneg (m : Z) : 0 <= Zdigits2 m.
Proof. destruct m; cbn; lia. Qed.

#[local] Instance signed_compat (s : bool) : Proper (Qeq ==> Qeq) (signed s).
Proof. intros x y E. destruct s; cbn [signed]; now rewrite E. Qed.

Lemma inject_cond_Zopp (s : bool) (m : Z) :
  (inject_Z (cond_Zopp s m) == signed s (inject_Z m))%Q.
Proof. destruct s; cbn [cond_Zopp signed]; [rewrite inject_Z_opp|]; reflexivity. Qed.

Lemma carry_value (sx : bool) (e1 : Z) :
  (inject_Z (cond_Zopp sx (Zpos (2 ^ 52))) * (2 # 1) ^ (e1 + 1)
   == signed sx (inject_Z (2 ^ 53) * B e1))%Q.
Proof.
  assert (E : (inject_Z (2 ^ 53) == inject_Z (Zpos (2 ^ 52)) * (2 # 1))%Q)
    by (vm_compute; reflexivity).
  rewrite inject_cond_Zopp. change ((2 # 1) ^ (e1 + 1))%Q with (B (e1 + 1)).
  rewrite B_add. change (B 1) with (2 # 1).
  destruct sx; cbn [signed]; rewrite E; ring.
Qed.

(** [binary_round_aux] on a mantissa [mx], an exponent [ex] and a location
    that together stand for [X * 2 ^ ex]: when the number is not large the
    result is finite, and it is [m2 * 2 ^ e1] for the integer [m2] nearest
    to [X * 2 ^ (ex - e1)], where [e1] is the exponent the format gives. *)
Lemma binary_round_aux_value (sx : bool) (mx ex : Z) (lx : location) (X : Q) :
  inbin (shr_record_of_loc mx lx) X ->
  Zdigits2 mx + ex <= 1000 -> ex <= 900 ->
  let e1 := Z.max ex (fexp Float.prec Float.emax (Zdigits2 mx + ex)) in
  exists R m2,
    Float.to_Q (binary_round_aux Float.prec Float.emax sx mx ex lx) = Some R /\
    (R == signed sx (inject_Z m2 * B e1))%Q /\
    0 <= m2 /\
    (inject_Z m2 - (1 # 2) <= X * B (ex - e1) /\ X * B (ex - e1) <= inject_Z m2 + (1 # 2))%Q /\
    (lx = loc_Exact -> e1 = ex -> (inject_Z m2 == X)%Q).
Proof.
  intros HX Hd He e1.
  assert (Hmx : 0 <= mx).
  { destruct HX as (H0 & _). destruct lx as [|[| |]]; exact H0. }
  unfold binary_round_aux, shr_fexp.
  set (k := fexp Float.prec Float.emax (Zdigits2 mx + ex) - ex).
  assert (Ee1 : e1 = ex + Z.max 0 k) by (unfold e1, k; lia).
  destruct (shr_inbin (shr_record_of_loc mx lx) ex k X HX) as (H1 & E1).
  destruct (shr (shr_record_of_loc mx lx) ex k) as [mrs1 e'] eqn:Eshr.
  cbn [fst snd] in H1, E1. rewrite <- Ee1 in E1. subst e'.
  pose proof (round_nearest_even_inbin mrs1 _ H1) as (Hm2 & Hnear & Hexact).
  cbv zeta in Hm2, Hnear, Hexact.
  set (m2 := round_nearest_even (shr_m mrs1) (loc_of_shr_record mrs1)) in *.
  assert (Hm1 : 0 <= shr_m mrs1) by (destruct H1; assumption).
  (* the shifted mantissa has at most 53 digits *)
  assert (Hlt : shr_m mrs1 < 2 ^ 53).
  { pose proof (inbin_bounds _ _ H1) as (Hlo & _).
    pose proof (inbin_bounds _ _ HX) as (_ & Hhi).
    assert (Hm : shr_m (shr_record_of_loc mx lx) = mx) by (destruct lx as [|[| |]]; reflexivity).
    rewrite Hm in Hhi.
    pose proof (Zdigits2_upper mx Hmx) as Hup.
    pose proof (Zdigits2_nonneg mx) as Hdn.
    assert (HXd : (X < B (Zdigits2 mx))%Q).
    { rewrite <- B_Z by exact Hdn.
      apply Qlt_le_trans with (inject_Z mx + 1)%Q; [exact Hhi|].
      change 1%Q with (inject_Z 1). rewrite <- inject_Z_plus, <- Zle_Qle. exact Hup. }
    assert (Hsh : (X * B (- Z.max 0 k) < B 53)%Q).
    { apply Qlt_le_trans with (B (Zdigits2 mx) * B (- Z.max 0 k))%Q.
      - apply Qmult_lt_compat_r; [apply B_pos | exact HXd].
      - rewrite <- B_add. apply B_le. unfold k. rewrite fexp64. lia. }
    rewrite Zlt_Qlt. rewrite B_Z by lia. lra. }
  assert (He1lo : -1074 <= e1) by (unfold e1; rewrite fexp64; lia).
  assert (He1hi : e1 <= 970) by (unfold e1; rewrite fexp64; lia).
  assert (HXe : (X * B (ex - e1) == X * B (- Z.max 0 k))%Q).
  { replace (ex - e1) with (- Z.max 0 k) by lia. reflexivity. }
  assert (Hex : lx = loc_Exact -> e1 = ex -> (inject_Z m2 == X)%Q).
  { intros -> Hee. assert (k <= 0) by lia.
    assert (Hs : shr (shr_record_of_loc mx loc_Exact) ex k = (shr_record_of_loc mx loc_Exact, ex))
      by (destruct k; try lia; reflexivity).
    rewrite Hs in Eshr. injection Eshr as <-.
    rewrite (Hexact eq_refl eq_refl). replace (Z.max 0 k) with 0 by lia.
    change (B (- 0)) with 1%Q. ring. }
  destruct (Z.eq_dec m2 (2 ^ 53)) as [Etop|Ntop].
  - (* the rounding carried into a 54th digit: one more shift, exact *)
    rewrite Etop.
    assert (Ek2 : fexp Float.prec Float.emax (Zdigits2 (2 ^ 53) + e1) - e1 = 1).
    { rewrite fexp64. change (Zdigits2 (2 ^ 53)) with 54. lia. }
    rewrite Ek2. cbn [shr_record_of_loc shr].
    change (shr_m (iter_pos shr_1 1 {| shr_m := 2 ^ 53; shr_r := false; shr_s := false |}))
      with (Zpos (2 ^ 52)).
    cbv iota beta.
    replace (e1 + 1 <=? Float.emax - Float.prec) with true
      by (symmetry; apply Z.leb_le; unfold Float.emax, Float.prec; lia).
    eexists. exists (2 ^ 53). split; [reflexivity|].
    split; [apply carry_value|].
    split; [lia|].
    rewrite <- Etop. rewrite HXe. split; [exact Hnear|]. exact Hex.
  - assert (Hm2top : m2 < 2 ^ 53) by lia.
    assert (Hd2 : Zdigits2 m2 <= 53) by (apply Zdigits2_le; lia).
    assert (Hk2 : fexp Float.prec Float.emax (Zdigits2 m2 + e1) - e1 <= 0)
      by (rewrite fexp64; lia).
    assert (Hs2 : shr (shr_record_of_loc m2 loc_Exact) e1
                    (fexp Float.prec Float.emax (Zdigits2 m2 + e1) - e1)
                  = (shr_record_of_loc m2 loc_Exact, e1)).
    { destruct (fexp Float.prec Float.emax (Zdigits2 m2 + e1) - e1); try lia; reflexivity. }
    rewrite Hs2. cbn [shr_record_of_loc shr_m].
    destruct m2 as [|p|p] eqn:Em2; [| |lia].
    + exists 0%Q, 0. split; [reflexivity|].
      split; [destruct sx; cbn [signed]; change (inject_Z 0) with 0%Q; ring|].
      split; [lia|]. rewrite HXe. split; [exact Hnear | exact Hex].
    + replace (e1 <=? Float.emax - Float.prec) with true
        by (symmetry; apply Z.leb_le; unfold Float.emax, Float.prec; lia).
      eexists. exists (Zpos p). split; [reflexivity|].
      split; [rewrite inject_cond_Zopp; change ((2 # 1) ^ e1)%Q with (B e1);
              destruct sx; cbn [signed]; ring|].
      split; [lia|]. rewrite HXe. split; [exact Hnear | exact Hex].
Qed.

Lemma signed_near (s : bool) (x y eps : Q) :
  (- eps <= x - y /\ x - y <= eps)%Q ->
  (- eps <= signed s x - signed s y /\ signed s x - signed s y <= eps)%Q.
Proof. destruct s; cbn [signed]; lra. Qed.

Lemma to_Q_finite (s : bool) (m : positive) (e : Z) :
  exists q, Float.to_Q (S754_finite s m e) = Some q /\
            (q == signed s (inject_Z (Zpos m) * B e))%Q.
Proof.
  eexists. split; [reflexivity|].
  rewrite inject_cond_Zopp. change ((2 # 1) ^ e)%Q with (B e).
  destruct s; cbn [signed]; ring.
Qed.

(** The digits of a mantissa and its exponent, from the size of the number. *)
Lemma magnitude_digits (m : positive) (e a : Z) :
  (inject_Z (Zpos m) * B e < B a)%Q -> Zpos (digits2_pos m) + e <= a.
Proof.
  intros H. pose proof (digits_lower m) as L.
  assert (Hd : 0 <= Zpos (digits2_pos m) - 1) by lia.
  assert (L' : (B (Zpos (digits2_pos m) - 1) <= inject_Z (Zpos m))%Q).
  { rewrite <- B_Z by exact Hd. rewrite <- Zle_Qle. exact L. }
  assert (Hlt : (B (Zpos (digits2_pos m) - 1 + e) < B a)%Q).
  { rewrite B_add. apply Qle_lt_trans with (inject_Z (Zpos m) * B e)%Q; [|exact H].
    apply Qmult_le_compat_r; [exact L' | apply Qlt_le_weak, B_pos]. }
  apply B_lt_inv in Hlt. lia.
Qed.

(** [binary_round_aux] rounds to within half a unit of the last place. *)
Lemma binary_round_aux_near (sx : bool) (mx ex : Z) (lx : location) (X : Q) :
  inbin (shr_record_of_loc mx lx) X ->
  Zdigits2 mx + ex <= 1000 -> ex <= 900 ->
  let e1 := Z.max ex (fexp Float.prec Float.emax (Zdigits2 mx + ex)) in
  exists R,
    Float.to_Q (binary_round_aux Float.prec Float.emax sx mx ex lx) = Some R /\
    (- ((1 # 2) * B e1) <= R - signed sx (X * B ex) /\
     R - signed sx (X * B ex) <= (1 # 2) * B e1)%Q /\
    (lx = loc_Exact -> e1 = ex -> (R == signed sx (X * B ex))%Q).
Proof.
  intros HX Hd He e1.
  destruct (binary_round_aux_value sx mx ex lx X HX Hd He)
    as (R & m2 & ER & EQ & Hm2 & Hnear & Hexact).
  fold e1 in EQ, Hnear, Hexact.
  exists R. split; [exact ER|].
  assert (EB : (B ex == B (ex - e1) * B e1)%Q).
  { rewrite <- B_add. replace (ex - e1 + e1) with ex by lia. reflexivity. }
  pose proof (B_pos e1) as Hpos.
  split.
  - rewrite EQ. apply signed_near. rewrite EB.
    set (t := (X * B (ex - e1))%Q) in *. set (b := B e1) in *.
    setoid_replace (inject_Z m2 * b - X * (B (ex - e1) * b))%Q
      with ((inject_Z m2 - t) * b)%Q by (unfold t; ring).
    destruct Hnear as (Hlo & Hhi). split.
    + setoid_replace (- ((1 # 2) * b))%Q with ((- (1 # 2)) * b)%Q by ring.
      apply Qmult_le_compat_r; lra.
    + apply Qmult_le_compat_r; lra.
  - intros Hl He1. rewrite EQ. rewrite (Hexact Hl He1). rewrite He1. reflexivity.
Qed.

(** The product of two finite floats that stays below [2 ^ 51] is within
    an eighth of the exact product. *)
Lemma mul_near (v u : Float.float) (V U : Q) :
  Float.to_Q v = Some V -> Float.to_Q u = Some U ->
  (- B 51 < V * U /\ V * U < B 51)%Q ->
  exists P,
    Float.to_Q (Float.mul v u) = Some P /\
    (- (1 # 8) <= P - V * U /\ P - V * U <= 1 # 8)%Q.
Proof.
  intros EV EU Hmag.
  destruct v as [sv|sv| |sv mv ev]; try discriminate;
    destruct u as [su|su| |su mu eu]; try discriminate;
    cbn [Float.to_Q] in EV, EU; injection EV as <-; injection EU as <-.
  - exists 0%Q. split; [reflexivity|]. lra.
  - exists 0%Q. split; [reflexivity|]. lra.
  - exists 0%Q. split; [reflexivity|]. lra.
  - unfold Float.mul. cbn [SFmul].
    set (m := Zpos (mv * mu)). set (e := ev + eu).
    assert (HX : inbin (shr_record_of_loc m loc_Exact) (inject_Z m)).
    { split; [unfold m; cbn; lia | cbn; reflexivity]. }
    (* the exact product, as a sign and a magnitude *)
    assert (EVU : (inject_Z (cond_Zopp sv (Zpos mv)) * (2 # 1) ^ ev *
                   (inject_Z (cond_Zopp su (Zpos mu)) * (2 # 1) ^ eu)
                   == signed (xorb sv su) (inject_Z m * B e))%Q).
    { rewrite !inject_cond_Zopp. change ((2 # 1) ^ ev)%Q with (B ev).
      change ((2 # 1) ^ eu)%Q with (B eu). unfold m, e.
      rewrite Pos2Z.inj_mul, inject_Z_mult, B_add.
      destruct sv, su; cbn [signed xorb]; ring. }
    rewrite EVU in Hmag.
    assert (Hmag' : (inject_Z m * B e < B 51)%Q)
      by (destruct (xorb sv su); cbn [signed] in Hmag; lra).
    pose proof (magnitude_digits (mv * mu) e 51 Hmag') as Hde.
    assert (Hd1 : 1 <= Zdigits2 m) by (unfold m; cbn; lia).
    destruct (binary_round_aux_near (xorb sv su) m e loc_Exact (inject_Z m) HX)
      as (R & ER & Hnear & Hexact); [unfold m; cbn [Zdigits2]; lia | lia |].
    exists R. split; [exact ER|]. rewrite EVU.
    destruct (Z.eq_dec (Z.max e (fexp Float.prec Float.emax (Zdigits2 m + e))) e) as [Ee|Ne].
    + rewrite (Hexact eq_refl Ee). lra.
    + assert (Hb : (B (Z.max e (fexp Float.prec Float.emax (Zdigits2 m + e))) <= B (-2))%Q).
      { apply B_le. rewrite fexp64 in *. unfold m in *. cbn [Zdigits2] in *. lia. }
      change (B (-2)) with (1 # 4) in Hb. lra.
Qed.

(** Python's [round] of a rational is within a half of it. *)
Lemma round_half_even_near (q : Q) :
  (inject_Z (Float.round_half_even q) - (1 # 2) <= q /\
   q <= inject_Z (Float.round_half_even q) + (1 # 2))%Q.
Proof.
  unfold Float.round_half_even.
  pose proof (Qfloor_le q) as Hlo. pose proof (Qlt_floor q) as Hhi.
  rewrite inject_Z_plus in Hhi. change (inject_Z 1) with 1%Q in Hhi.
  assert (E1 : (inject_Z (Qfloor q + 1) == inject_Z (Qfloor q) + 1)%Q)
    by (rewrite inject_Z_plus; reflexivity).
  destruct (Qcompare_spec (q - inject_Z (Qfloor q)) (1 # 2)) as [E|L|G].
  - destruct (Z.even (Qfloor q)); rewrite ?E1; lra.
  - lra.
  - rewrite E1. lra.
Qed.

Lemma shl_iter (mx d : positive) :
  Zpos (Pos.iter xO mx d) = Zpos mx * 2 ^ Zpos d.
Proof.
  induction d as [|d IH] using Pos.peano_ind.
  - cbn. lia.
  - rewrite Pos.iter_succ, Pos2Z.inj_xO, IH, Pos2Z.inj_succ, Z.pow_succ_r by lia. ring.
Qed.

(** An int below [2 ^ 53] in size is a float, exactly. *)
Lemma binary_round_exact (s : bool) (p : positive) :
  Zpos p < 2 ^ 53 ->
  exists R, Float.to_Q (binary_round Float.prec Float.emax s p 0) = Some R /\
            (R == signed s (inject_Z (Zpos p)))%Q.
Proof.
  intros Hp. unfold binary_round, shl_align.
  pose proof (digits_le p 53 Hp) as Hd.
  pose proof (digits_upper p) as Hup.
  set (d := Zpos (digits2_pos p)) in *.
  rewrite fexp64.
  replace (Z.max (d + 0 - 53) (-1074) - 0) with (d - 53) by lia.
  assert (Hgen : forall (mz : positive) (ez : Z),
            -52 <= ez <= 0 -> Zpos mz < 2 ^ 53 ->
            (inject_Z (Zpos mz) * B ez == inject_Z (Zpos p))%Q ->
            exists R, Float.to_Q (binary_round_aux Float.prec Float.emax s (Zpos mz) ez loc_Exact)
                      = Some R /\ (R == signed s (inject_Z (Zpos p)))%Q).
  { intros mz ez Hez Hmz Eval.
    assert (HX : inbin (shr_record_of_loc (Zpos mz) loc_Exact) (inject_Z (Zpos mz)))
      by (split; [cbn; lia | cbn; reflexivity]).
    pose proof (digits_le mz 53 Hmz) as Hdz.
    destruct (binary_round_aux_near s (Zpos mz) ez loc_Exact _ HX)
      as (R & ER & _ & Hexact); [cbn [Zdigits2]; lia | lia |].
    exists R. split; [exact ER|].
    rewrite Hexact; [now rewrite Eval | reflexivity |].
    rewrite fexp64. cbn [Zdigits2]. lia. }
  destruct (d - 53) as [|k|k] eqn:Ek.
  - replace (Z.max (d + 0 - 53) (-1074)) with 0 by lia.
    apply Hgen; [lia | exact Hp |]. change (B 0) with 1%Q. ring.
  - lia.
  - replace (Z.max (d + 0 - 53) (-1074)) with (- Zpos k) by lia.
    assert (Hk : Zpos k = 53 - d) by lia.
    apply Hgen.
    + unfold d in *. lia.
    + rewrite shl_iter, Hk.
      assert (2 ^ 53 = 2 ^ d * 2 ^ (53 - d)).
      { rewrite <- Z.pow_add_r by (unfold d in *; lia). f_equal. lia. }
      assert (0 < 2 ^ (53 - d)) by (apply Z.pow_pos_nonneg; unfold d in *; lia).
      nia.
    + rewrite shl_iter, inject_Z_mult, (B_Z (Zpos k)) by lia.
      rewrite <- Qmult_assoc, B_opp. ring.
Qed.

Lemma of_int_exact (n : Z) :
  - 2 ^ 53 < n < 2 ^ 53 ->
  exists x X, Float.of_int n = inr x /\ Float.to_Q x = Some X /\ (X == inject_Z n)%Q.
Proof.
  intros Hn. unfold Float.of_int, binary_normalize.
  destruct n as [|p|p].
  - exists (S754_zero false), 0%Q. repeat split; reflexivity.
  - destruct (binary_round_exact false p) as (R & ER & EQ); [lia|].
    destruct (binary_round Float.prec Float.emax false p 0) as [z|i| |s m e] eqn:E;
      try discriminate; exists (binary_round Float.prec Float.emax false p 0), R;
      rewrite E; repeat split; assumption.
  - destruct (binary_round_exact true p) as (R & ER & EQ); [lia|].
    assert (EQ' : (R == inject_Z (Zneg p))%Q).
    { rewrite EQ. cbn [signed]. rewrite <- inject_Z_opp. reflexivity. }
    destruct (binary_round Float.prec Float.emax true p 0) as [z|i| |s m e] eqn:E;
      try discriminate; exists (binary_round Float.prec Float.emax true p 0), R;
      rewrite E; repeat split; assumption.
Qed.

(** The location that the division computes for a remainder places the
    quotient with respect to one half. *)
Lemma new_location_inbin (nb k q : Z) :
  0 < nb -> 0 <= k < nb -> 0 <= q ->
  inbin (shr_record_of_loc q (new_location nb k))
        (inject_Z q + inject_Z k / inject_Z nb).
Proof.
  intros Hnb Hk Hq.
  assert (Hnb' : (0 < inject_Z nb)%Q) by (change 0%Q with (inject_Z 0); now rewrite <- Zlt_Qlt).
  set (F := (inject_Z k / inject_Z nb)%Q).
  assert (Hlt : 2 * k < nb -> (F < 1 # 2)%Q).
  { intros H. apply Qlt_shift_div_r; [exact Hnb'|].
    rewrite Zlt_Qlt, inject_Z_mult in H. change (inject_Z 2) with 2%Q in H. lra. }
  assert (Heq : 2 * k = nb -> (F == 1 # 2)%Q).
  { intros H. unfold F. rewrite <- H, inject_Z_mult. change (inject_Z 2) with 2%Q.
    assert ((0 < inject_Z k)%Q) by (change 0%Q with (inject_Z 0); rewrite <- Zlt_Qlt; lia).
    field. lra. }
  assert (Hgt : nb < 2 * k -> (1 # 2 < F)%Q).
  { intros H. apply Qlt_shift_div_l; [exact Hnb'|].
    rewrite Zlt_Qlt, inject_Z_mult in H. change (inject_Z 2) with 2%Q in H. lra. }
  assert (Hpos : 0 < k -> (0 < F)%Q).
  { intros H. apply Qlt_shift_div_l; [exact Hnb'|].
    rewrite Zlt_Qlt in H. change (inject_Z 0) with 0%Q in H. lra. }
  assert (Hone : (F < 1)%Q).
  { apply Qlt_shift_div_r; [exact Hnb'|].
    assert (H : k < nb) by lia. rewrite Zlt_Qlt in H. lra. }
  assert (H0 : k = 0 -> (F == 0)%Q).
  { intros ->. unfold F. change (inject_Z 0) with 0%Q. field. lra. }
  unfold new_location, new_location_even, new_location_odd.
  destruct (Z.even nb) eqn:Even; destruct (Z.eqb_spec k 0) as [E0|N0].
  - split; [exact Hq|]. cbn. rewrite (H0 E0). ring.
  - destruct (Z.compare_spec (2 * k) nb) as [E|L|G]; (split; [exact Hq|]); cbn.
    + rewrite (Heq E). ring.
    + assert (0 < k) by lia. pose proof (Hlt L). pose proof (Hpos H). lra.
    + pose proof (Hgt G). lra.
  - split; [exact Hq|]. cbn. rewrite (H0 E0). ring.
  - assert (Hodd : 2 * k <> nb).
    { intros <-. rewrite Z.even_mul in Even. discriminate. }
    assert (0 < k) by lia. pose proof (Hpos H).
    destruct (Z.compare_spec (2 * k + 1) nb) as [E|L|G]; (split; [exact Hq|]); cbn.
    + assert (L : 2 * k < nb) by lia. pose proof (Hlt L). lra.
    + assert (L' : 2 * k < nb) by lia. pose proof (Hlt L'). lra.
    + assert (G' : nb < 2 * k) by lia. pose proof (Hgt G'). lra.
Qed.

Lemma shr_m_of_loc (m : Z) (l : location) : shr_m (shr_record_of_loc m l) = m.
Proof. destruct l as [|[| |]]; reflexivity. Qed.

(** The quotient of a float below [2 ^ a] in size by a float that is at
    least [2 ^ b] is within half a unit of the last place of [2 ^ (a - b)]
    of the exact quotient. *)
Lemma div_near (x u : Float.float) (X U : Q) (a b : Z) :
  Float.to_Q x = Some X -> Float.to_Q u = Some U ->
  (B b <= U)%Q -> (- B a < X /\ X < B a)%Q -> 0 <= a - b <= 900 ->
  exists y Y,
    Float.truediv x u = inr y /\ Float.to_Q y = Some Y /\
    (- ((1 # 2) * B (Z.max (a - b - 53) (-1074))) <= Y - X / U /\
     Y - X / U <= (1 # 2) * B (Z.max (a - b - 53) (-1074)))%Q.
Proof.
  intros EX EU HU HX Hab.
  pose proof (B_pos b) as Hb. pose proof (B_pos (Z.max (a - b - 53) (-1074))) as Hg.
  destruct u as [su|su| |su mu eu]; try discriminate.
  { cbn in EU. injection EU as <-. lra. }
  destruct (to_Q_finite su mu eu) as (U' & EU' & EQU). rewrite EU in EU'.
  injection EU' as <-.
  pose proof (B_pos eu) as Heu.
  assert (HMu : (0 < inject_Z (Zpos mu))%Q) by reflexivity.
  assert (HMuB : (0 < inject_Z (Zpos mu) * B eu)%Q) by (apply Qmult_lt_0_compat; assumption).
  destruct su; cbn [signed] in EQU; [lra|].
  destruct x as [sx|sx| |sx mx ex]; try discriminate.
  { cbn in EX. injection EX as <-.
    exists (S754_zero (xorb sx false)), 0%Q. repeat split; try reflexivity.
    - unfold Qdiv. lra.
    - unfold Qdiv. lra. }
  destruct (to_Q_finite sx mx ex) as (X' & EX' & EQX). rewrite EX in EX'.
  injection EX' as <-.
  unfold Float.truediv. cbn [Float.is_zero SFdiv].
  unfold SFdiv_core_binary.
  set (d1 := Zdigits2 (Zpos mx)). set (d2 := Zdigits2 (Zpos mu)).
  set (e' := Z.min (fexp Float.prec Float.emax (d1 + ex - (d2 + eu))) (ex - eu)).
  set (s := ex - eu - e').
  assert (Hs : 0 <= s) by (unfold s, e'; lia).
  set (m' := match s with Zpos _ => Z.shiftl (Zpos mx) s | 0 => Zpos mx | Zneg _ => 0 end).
  assert (Em' : m' = Zpos mx * 2 ^ s).
  { unfold m'. destruct s as [|p|p] eqn:Es; [lia | | lia].
    apply Z.shiftl_mul_pow2. lia. }
  pose proof (Z_div_mod m' (Zpos mu) ltac:(lia)) as Hdiv.
  destruct (Z.div_eucl m' (Zpos mu)) as [q r].
  destruct Hdiv as (Edm & Hr).
  assert (Hm'pos : 0 < m') by (rewrite Em'; apply Z.mul_pos_pos; [lia | apply Z.pow_pos_nonneg; lia]).
  assert (Hq : 0 <= q) by nia.
  set (X0 := (inject_Z q + inject_Z r / inject_Z (Zpos mu))%Q).
  pose proof (new_location_inbin (Zpos mu) r q ltac:(lia) Hr Hq) as Hin. fold X0 in Hin.
  (* the exact quotient of the magnitudes *)
  assert (EX0 : (X0 * B e' == (inject_Z (Zpos mx) * B ex) / (inject_Z (Zpos mu) * B eu))%Q).
  { assert (E1 : (X0 == inject_Z m' / inject_Z (Zpos mu))%Q).
    { unfold X0. rewrite Edm, inject_Z_plus, inject_Z_mult. field. lra. }
    rewrite E1, Em', inject_Z_mult, (B_Z s) by exact Hs.
    assert (E2 : (B ex == B s * B e' * B eu)%Q).
    { rewrite <- !B_add. replace (s + e' + eu) with ex by (unfold s; lia). reflexivity. }
    rewrite E2. field. lra. }
  (* sizes *)
  assert (Hmagx : (inject_Z (Zpos mx) * B ex < B a)%Q) by (destruct sx; cbn [signed] in EQX; lra).
  pose proof (magnitude_digits mx ex a Hmagx) as Hd1.
  assert (Hd2 : b < d2 + eu).
  { apply B_lt_inv. apply Qle_lt_trans with (inject_Z (Zpos mu) * B eu)%Q; [lra|].
    rewrite B_add. apply Qmult_lt_compat_r; [exact Heu|].
    unfold d2. cbn [Zdigits2]. rewrite <- B_Z by lia. rewrite <- Zlt_Qlt. apply digits_upper. }
  assert (Hquot : (X0 * B e' < B (a - b))%Q).
  { rewrite EX0. apply Qlt_shift_div_r; [exact HMuB|].
    apply Qlt_le_trans with (B a); [exact Hmagx|].
    replace a with (a - b + b) at 1 by lia. rewrite B_add.
    apply Qmult_le_l; [apply B_pos | lra]. }
  assert (He'1 : e' <= Z.max (a - b - 53) (-1074)).
  { unfold e'. rewrite fexp64. fold d1 in Hd1. cbn [Zdigits2] in Hd1. unfold d1. cbn [Zdigits2]. lia. }
  assert (Hdq : Zdigits2 q + e' <= a - b).
  { destruct q as [|pq|pq]; [cbn [Zdigits2]; lia | | lia].
    cbn [Zdigits2]. apply magnitude_digits.
    apply Qle_lt_trans with (X0 * B e')%Q; [|exact Hquot].
    apply Qmult_le_compat_r; [|apply Qlt_le_weak, B_pos].
    pose proof (inbin_bounds _ _ Hin) as (Hlo & _).
    now rewrite shr_m_of_loc in Hlo. }
  destruct (binary_round_aux_near (xorb sx false) q e' (new_location (Zpos mu) r) X0 Hin)
    as (R & ER & Hnear & _); [lia | lia |].
  eexists. exists R. split; [reflexivity|]. split; [exact ER|].
  assert (Hbound : (B (Z.max e' (fexp Float.prec Float.emax (Zdigits2 q + e')))
                    <= B (Z.max (a - b - 53) (-1074)))%Q).
  { apply B_le. rewrite fexp64. lia. }
  assert (Eq : (X / U == signed (xorb sx false) (X0 * B e'))%Q).
  { rewrite EQX, EQU, EX0. destruct sx; cbn [signed xorb]; field; lra. }
  rewrite Eq. lra.
Qed.

(** [round] of a finite float. *)
Lemma round_near (p : Float.float) (P : Q) :
  Float.to_Q p = Some P ->
  exists n, Float.round p = inr n /\
            (inject_Z n - (1 # 2) <= P /\ P <= inject_Z n + (1 # 2))%Q.
Proof.
  destruct p as [sp|sp| |sp mp ep]; try discriminate; cbn [Float.to_Q Float.round];
    intros E; injection E as <-.
  - exists 0. split; [reflexivity|]. change (inject_Z 0) with 0%Q. lra.
  - eexists. split; [reflexivity|]. apply round_half_even_near.
Qed.

(** There and back: a length of at most [2 ^ 40] in size, a scale between
    [2 ^ b] and [2 ^ (b + 1)] with [b] from 0 to 8. *)
Lemma round_trip (v u : Float.float) (V U : Q) (b : Z) :
  Float.to_Q v = Some V -> Float.to_Q u = Some U ->
  0 <= b <= 8 -> (B b <= U /\ U < B (b + 1))%Q ->
  (- B 40 <= V /\ V <= B 40)%Q ->
  exists n x y Y,
    Float.round (Float.mul v u) = inr n /\
    Float.of_int n = inr x /\
    Float.truediv x u = inr y /\
    Float.to_Q y = Some Y /\
    (Qabs (inject_Z n - V * U) <= 5 # 8)%Q /\
    (Qabs (Y - V) <= 1 / U)%Q.
Proof.
  intros EV EU Hb HU HV.
  pose proof (B_pos b) as Hbpos.
  assert (HU0 : (0 < U)%Q) by lra.
  assert (Hb1 : (B (b + 1) <= B 9)%Q) by (apply B_le; lia).
  change (B 9) with (512 # 1) in Hb1.
  (* the product *)
  assert (HVU : (- (B 40 * B (b + 1)) < V * U /\ V * U < B 40 * B (b + 1))%Q).
  { pose proof (B_pos 40) as H40.
    assert (H1 : (V * U <= B 40 * U)%Q) by (apply Qmult_le_compat_r; lra).
    assert (H2 : (- B 40 * U <= V * U)%Q) by (apply Qmult_le_compat_r; lra).
    assert (H3 : (B 40 * U < B 40 * B (b + 1))%Q) by (apply Qmult_lt_l; lra).
    lra. }
  assert (Hsize : (B 40 * B (b + 1) <= B 49)%Q) by (rewrite <- B_add; apply B_le; lia).
  assert (H4951 : (B 49 < B 51)%Q) by reflexivity.
  destruct (mul_near v u V U EV EU) as (P & EP & HP); [lra|].
  destruct (round_near _ P EP) as (n & En & Hn).
  (* the int *)
  assert (Hnsize : (- B 50 < inject_Z n /\ inject_Z n < B 50)%Q).
  { assert ((B 49 + 1 < B 50)%Q) by reflexivity. lra. }
  assert (HnZ : - 2 ^ 53 < n < 2 ^ 53).
  { destruct Hnsize as (Hl & Hh). rewrite <- (B_Z 50) in Hl, Hh by lia.
    rewrite <- inject_Z_opp in Hl. rewrite <- Zlt_Qlt in Hl, Hh.
    assert (2 ^ 50 < 2 ^ 53) by reflexivity. lia. }
  destruct (of_int_exact n HnZ) as (x & X & Ex & EX & EXn).
  (* the quotient *)
  assert (Hna : (- B (b + 42) < X /\ X < B (b + 42))%Q).
  { assert (E42 : (B (b + 42) == B 40 * B (b + 1) * 2)%Q).
    { replace (b + 42) with (40 + (b + 1) + 1) by lia. rewrite !B_add. reflexivity. }
    assert ((1 <= B 40 * B (b + 1))%Q).
    { rewrite <- B_add. change 1%Q with (B 0). apply B_le. lia. }
    rewrite EXn, E42. lra. }
  destruct (div_near x u X U (b + 42) b EX EU) as (y & Y & Ey & EY & HY);
    [lra | exact Hna | lia |].
  replace (Z.max (b + 42 - b - 53) (-1074)) with (-11) in HY by lia.
  change (B (-11)) with (1 # 2048) in HY.
  exists n, x, y, Y. repeat (split; [assumption|]).
  assert (Herr : (- (5 # 8) <= inject_Z n - V * U /\ inject_Z n - V * U <= 5 # 8)%Q) by lra.
  split; [apply Qabs_Qle_condition; exact Herr|].
  (* the three errors add up to less than one unit of the device *)
  set (W := (/ U)%Q).
  assert (HW : (0 < W)%Q) by (apply Qinv_lt_0_compat; exact HU0).
  assert (HWU : (W * U == 1)%Q) by (unfold W; field; lra).
  assert (HWlow : ((1 # 512) <= W)%Q).
  { apply Qle_shift_inv_l; [exact HU0|]. lra. }
  assert (Esplit : (Y - V == (Y - X / U) + (inject_Z n - V * U) * W)%Q).
  { rewrite EXn. unfold W. field. lra. }
  assert (Hhi : ((inject_Z n - V * U) * W <= (5 # 8) * W)%Q)
    by (apply Qmult_le_compat_r; lra).
  assert (Hlo : (- (5 # 8) * W <= (inject_Z n - V * U) * W)%Q)
    by (apply Qmult_le_compat_r; lra).
  apply Qabs_Qle_condition. unfold Qdiv. fold W. rewrite Esplit. lra.
Qed.

(* ===================================================================== *)
(** ** There and back: micrometers and device units (C8) *)
(* ===================================================================== *)

Lemma scale_10_size :
  exists U, Float.to_Q Float.lit_10_0 = Some U /\ (U == 10)%Q /\ (B 3 <= U /\ U < B 4)%Q.
Proof. eexists. split; [reflexivity|]. split; [|split]; vm_compute; congruence. Qed.

Lemma scale_100_size :
  exists U, Float.to_Q Float.lit_100_0 = Some U /\ (U == 100)%Q /\ (B 6 <= U /\ U < B 7)%Q.
Proof. eexists. split; [reflexivity|]. split; [|split]; vm_compute; congruence. Qed.

(** At a hundred units per micrometer, the length 1000000000000002.0:
    the float product is 100000000000000192, not the exact product
    100000000000000200 that rounding would keep, and the quotient back is
    1000000000000001.875, an eighth of a micrometer off, when the
    tolerance is a hundredth. *)
Lemma round_trip_far_away_is_off :
  (exists V, Float.to_Q far_away = Some V /\ (V == 1000000000000002)%Q) /\
  device_units far_away scaled_100 = (Ok 100000000000000192, scaled_100) /\
  Float.round_half_even (1000000000000002 * 100) <> 100000000000000192 /\
  exists y Y V U,
    microns 100000000000000192 scaled_100 = (Ok y, scaled_100) /\
    Float.to_Q y = Some Y /\ Float.to_Q far_away = Some V /\
    Float.to_Q Float.lit_100_0 = Some U /\
    (Y - V == - (1 # 8))%Q /\ ~ (Qabs (Y - V) <= 1 / U)%Q.
Proof.
  split; [eexists; split; [reflexivity | vm_compute; reflexivity]|].
  split; [vm_compute; reflexivity|].
  split; [vm_compute; discriminate|].
  eexists. eexists. eexists. eexists.
  split; [vm_compute; reflexivity|].
  split; [reflexivity|]. split; [reflexivity|]. split; [reflexivity|].
  split; [vm_compute; reflexivity|].
  vm_compute. intros H. apply H. reflexivity.
Qed.

(** C8, as the code has it.  The scale being 10.0 or 100.0 and [um] a
    float of at most [2 ^ 40] micrometers in size: [device_units] returns
    the int [n] that Python's [round] (ties to even) makes of the float
    product [um * _units_per_um], and [n] is within 5/8 of the exact
    product; [microns n], the float quotient [n / _units_per_um], is within
    [1 / _units_per_um] of [um].  [absmove um] sends [MZ n], and
    [get_position] on the reply [str(n)] returns that quotient. *)
Theorem round_trip_within_tolerance (s : state) (um u : Float.float) (V : Q)
    (Hu : _units_per_um s = Some u)
    (Hscale : u = Float.lit_10_0 \/ u = Float.lit_100_0)
    (Hum : Float.to_Q um = Some V)
    (Hrange : (Qabs V <= inject_Z (2 ^ 40))%Q) :
  exists n y Y U,
    device_units um s = (Ok n, s) /\
    Float.round (Float.mul um u) = inr n /\
    microns n s = (Ok y, s) /\
    Float.to_Q y = Some Y /\
    Float.to_Q u = Some U /\
    (Qabs (inject_Z n - V * U) <= 5 # 8)%Q /\
    (Qabs (Y - V) <= 1 / U)%Q /\
    (connected s ->
     wire (snd (absmove um s)) = wire s ++ ["MZ " ++ Py.str_of_int n ++ cr]%string) /\
    (forall s1 s2 r,
       query "WZ" s1 = (Ok (Some r), s2) -> Py.int_of_str r = Some n ->
       _units_per_um s2 = Some u ->
       get_position s1 = (Ok (Some y), with_moved_since_last_read false (with_pos y s2))).
Proof.
  assert (HV : (- B 40 <= V /\ V <= B 40)%Q).
  { apply Qabs_Qle_condition in Hrange. rewrite (B_Z 40) in Hrange by lia. exact Hrange. }
  assert (Hgen : exists U b, Float.to_Q u = Some U /\ 0 <= b <= 8 /\ (B b <= U /\ U < B (b + 1))%Q).
  { destruct Hscale as [-> | ->].
    - destruct scale_10_size as (U & EU & _ & HU). exists U, 3. repeat split; try lia; tauto.
    - destruct scale_100_size as (U & EU & _ & HU). exists U, 6. repeat split; try lia; tauto. }
  destruct Hgen as (U & b & EU & Hb & HU).
  destruct (round_trip um u V U b Hum EU Hb HU HV) as (n & x & y & Y & En & Ex & Ey & EY & Hn & HY).
  assert (Edev : device_units um s = (Ok n, s)).
  { cbv beta iota delta [device_units bind attr lift ret]. now rewrite Hu, En. }
  assert (Emic : microns n s = (Ok y, s)).
  { cbv beta iota delta [microns bind attr lift ret]. now rewrite Hu, Ex, Ey. }
  exists n, y, Y, U. repeat (split; [assumption|]).
  split.
  - intros Hc. unfold absmove. unfold bind at 1. rewrite Edev.
    rewrite <- append_assoc.
    apply (wire_query_then ("MZ " ++ Py.str_of_int n)
             (fun reply => (if truthy reply then m <- unexpected_message reply ;; logger WARNING m []
                            else ret tt) ;; modify (with_moved_since_last_read true)));
      [exact Hc | now apply all_ascii_numbered |].
    intros r s1. destruct r as [[|c r]|]; reflexivity.
  - intros s1 s2 r Hq Hr Hu2. now apply (get_position_parsed s1 s2 r n u x y).
Qed.

Lemma round_trip_of_12_34 :
  exists n y Y V U,
    device_units twelve_34 scaled_100 = (Ok n, scaled_100) /\
    n = 1234 /\
    microns n scaled_100 = (Ok y, scaled_100) /\
    Float.to_Q y = Some Y /\ Float.to_Q twelve_34 = Some V /\
    Float.to_Q Float.lit_100_0 = Some U /\
    (Qabs (Y - V) <= 1 / U)%Q.
Proof.
  destruct (round_trip_within_tolerance scaled_100 twelve_34 Float.lit_100_0 _
              eq_refl (or_intror eq_refl) eq_refl)
    as (n & y & Y & U & Edev & _ & Emic & EY & EU & _ & HY & _).
  { vm_compute. discriminate. }
  exists n, y, Y. eexists. exists U. split; [exact Edev|].
  split; [vm_compute in Edev; congruence|].
  split; [exact Emic|]. split; [exact EY|]. split; [reflexivity|].
  split; [exact EU | exact HY].
Defined.

(* ===================================================================== *)
(** ** More of [query]: what it drops, when it gives up, how it fails *)
(* ===================================================================== *)

Lemma connected_after_query command exit rest t sr s :
  _timeout s <> None -> connected (after_query command exit rest t sr s).
Proof.
  intros HT. destruct (_timeout s) as [T|] eqn:E; [|congruence].
  exists (sent command rest sr), T. cbn. auto.
Qed.

(** A [query] that comes back on a connected instance leaves it connected,
    with the command on the line and the attributes as they were. *)
Lemma query_step (command : string) (s s' : state) (r : result (option string)) :
  connected s -> Py.all_ascii command = true ->
  query command s = (r, s') ->
  connected s' /\ wire s' = wire s ++ [(command ++ cr)%string] /\
  _units_per_um s' = _units_per_um s /\ _pos s' = _pos s /\
  _moved_since_last_read s' = _moved_since_last_read s /\
  _smallest_um_step s' = _smallest_um_step s.
Proof.
  intros Hc Ha E.
  destruct (query_connected command s Hc Ha) as (sr & exit & rest & t & Hs & E').
  rewrite E' in E. injection E as _ <-.
  split.
  { apply connected_after_query. destruct Hc as (? & T & _ & _ & HT). congruence. }
  split; [now apply wire_after_query|]. repeat split.
Qed.

(** X1.  [query] starts by emptying the input buffer: whatever bytes had
    arrived and were not read, the call, its result and the state it leaves
    are the same. *)
Theorem query_ignores_stale_input (s : state) (sr : Serial) (T : Q)
    (command : string) (stale : list rx_event)
    (Hser : ser s = Some sr) (Hopen : is_open sr = true)
    (Htimeout : _timeout s = Some T)
    (Hcommand : Py.all_ascii command = true) :
  query command
    (with_ser {| port := port sr; is_open := is_open sr; in_buffer := stale;
                 replies := replies sr; written := written sr |} s)
  = query command s.
Proof.
  rewrite (query_unfold s sr T command Hser Hopen Htimeout Hcommand).
  set (sr2 := {| port := port sr; is_open := is_open sr; in_buffer := stale;
                 replies := replies sr; written := written sr |}).
  rewrite (query_unfold (with_ser sr2 s) sr2 T command eq_refl Hopen Htimeout Hcommand).
  reflexivity.
Qed.

Lemma query_ignores_stale_input_example :
  query "WZ" (plugged 2 [bytes_arriving (1 # 100) (":A -42 " ++ cr)])
  = query "WZ"
      (with_ser {| port := Some "COM1"%string; is_open := true;
                   in_buffer := bytes_arriving (1 # 100) ("junk" ++ cr);
                   replies := [bytes_arriving (1 # 100) (":A -42 " ++ cr)];
                   written := [] |}
         (plugged 2 [bytes_arriving (1 # 100) (":A -42 " ++ cr)])).
Proof.
  symmetry.
  exact (query_ignores_stale_input
           (plugged 2 [bytes_arriving (1 # 100) (":A -42 " ++ cr)]) _ 2 "WZ"
           (bytes_arriving (1 # 100) ("junk" ++ cr)) eq_refl eq_refl eq_refl eq_refl).
Defined.

Lemma while_loop_past (deadline now : Q) (events : list rx_event) (buffer : string) :
  (deadline <= now)%Q ->
  while_loop deadline events now buffer = (Expired, events, now).
Proof.
  intros H. destruct events; cbn; now rewrite (Qltb_false _ _ H).
Qed.

(** X2.  With a timeout of zero or less the loop of [query] is not entered:
    the command is written, no byte is read (the reply stays in the input
    buffer), the clock does not move, nothing is logged and the result is
    [None]. *)
Theorem query_without_patience (s : state) (sr : Serial) (T : Q) (command : string)
    (Hser : ser s = Some sr) (Hopen : is_open sr = true)
    (Htimeout : _timeout s = Some T)
    (Hcommand : Py.all_ascii command = true)
    (HT : (T <= 0)%Q) :
  query command s =
    (Ok None, after_query command Expired (hd [] (replies sr)) (clock s) sr s).
Proof.
  rewrite (query_unfold s sr T command Hser Hopen Htimeout Hcommand).
  unfold loop_of. rewrite while_loop_past by lra. reflexivity.
Qed.

Lemma query_without_patience_example :
  fst (query "WZ" (plugged 0 [bytes_arriving (1 # 100) (":A -42 " ++ cr)])) = Ok None /\
  wire (snd (query "WZ" (plugged 0 [bytes_arriving (1 # 100) (":A -42 " ++ cr)])))
    = ["WZ" ++ cr]%string.
Proof.
  rewrite (query_without_patience
             (plugged 0 [bytes_arriving (1 # 100) (":A -42 " ++ cr)]) _ 0 "WZ"
             eq_refl eq_refl eq_refl eq_refl ltac:(vm_compute; discriminate)).
  split; reflexivity.
Defined.

(** X3.  The three ways [query] fails before a byte leaves: without a serial
    object it raises [AttributeError] and with a closed one
    [PortNotOpenError], the state untouched; with a command that is not
    ASCII it raises [UnicodeEncodeError], and nothing has been written. *)
Theorem query_fails_before_writing (command : string) (s : state) :
  (ser s = None -> query command s = (Raise AttributeError, s)) /\
  (forall sr, ser s = Some sr -> is_open sr = false ->
     query command s = (Raise PortNotOpenError, s)) /\
  (forall sr, ser s = Some sr -> is_open sr = true ->
     Py.all_ascii command = false ->
     fst (query command s) = Raise UnicodeEncodeError /\
     wire (snd (query command s)) = wire s).
Proof.
  split; [|split].
  - intros H. cbv beta iota delta [query bind reset_input_buffer attr]. now rewrite H.
  - intros sr. apply query_closed.
  - intros sr H1 H2 Ha.
    assert (Ha' : Py.all_ascii (command ++ cr) = false)
      by (rewrite all_ascii_app, Ha; reflexivity).
    cbv beta iota delta [query bind reset_input_buffer attr encode_ascii modify raise].
    rewrite H1, H2. cbn [fst snd]. rewrite Ha'. cbn [fst snd].
    unfold wire. rewrite H1. split; reflexivity.
Qed.

(** X4.  A byte above 127 in the reply: the text before it has been
    accumulated, [decode("ascii")] raises [UnicodeDecodeError] out of
    [query], the command having been written. *)
Theorem query_meets_a_high_byte (s : state) (sr : Serial) (T dt dt' : Q)
    (command text : string) (c : ascii) (more : list rx_event)
    (Hser : ser s = Some sr) (Hopen : is_open sr = true)
    (Htimeout : _timeout s = Some T)
    (Hcommand : Py.all_ascii command = true)
    (Hplain : plain text = true)
    (Hhigh : Py.is_ascii c = false)
    (Hline : hd [] (replies sr) =
             bytes_arriving dt text ++ {| elapsed := dt'; byte := Some c |} :: more)
    (Hdt : (0 <= dt)%Q)
    (Htime : (seconds (String.length text) dt < T)%Q) :
  fst (query command s) = Raise UnicodeDecodeError /\
  wire (snd (query command s)) = wire s ++ [(command ++ cr)%string].
Proof.
  rewrite (query_unfold s sr T command Hser Hopen Htimeout Hcommand).
  unfold loop_of. rewrite Hline.
  destruct (while_loop_text (clock s + T) dt Hdt text EmptyString (clock s)
              ({| elapsed := dt'; byte := Some c |} :: more) Hplain) as (t & Et & E);
    [lra|].
  rewrite E. cbn [while_loop byte elapsed]. rewrite (Qltb_true t (clock s + T)) by lra.
  assert (Hcr : Ascii.eqb c CR = false).
  { destruct (Ascii.eqb_spec c CR) as [->|]; [discriminate Hhigh | reflexivity]. }
  rewrite Hcr, Hhigh. cbn [query_result fst snd].
  split; [reflexivity|]. now apply wire_after_query.
Qed.

Lemma query_meets_a_high_byte_example :
  fst (query "WZ" (plugged 2 [bytes_arriving (1 # 100) ":A " ++
                              [{| elapsed := 1 # 100; byte := Some "200"%char |}]]))
    = Raise UnicodeDecodeError.
Proof.
  refine (proj1 (query_meets_a_high_byte
            (plugged 2 [bytes_arriving (1 # 100) ":A " ++
                        [{| elapsed := 1 # 100; byte := Some "200"%char |}]])
            _ 2 (1 # 100) (1 # 100) "WZ"%string ":A "%string "200"%char []
            eq_refl eq_refl eq_refl eq_refl eq_refl eq_refl eq_refl _ _)).
  - vm_compute. discriminate.
  - vm_compute. reflexivity.
Defined.

Lemma substring_none (n : nat) (a : string) : substring n 0 a = EmptyString.
Proof.
  revert a. induction n as [|n IH]; intros [|c a]; cbn; auto.
Qed.

Lemma slice_short (a : string) :
  (String.length a <= 4)%nat -> Py.slice a 3 (-1) = EmptyString.
Proof.
  intros H. unfold Py.slice, Py.norm_index.
  replace (3 <? 0) with false by reflexivity.
  replace (-1 <? 0) with true by reflexivity.
  replace (Z.to_nat (Z.max 0 (Z.of_nat (String.length a) + -1) -
                     Z.min 3 (Z.of_nat (String.length a)))) with 0%nat by lia.
  apply substring_none.
Qed.

(** X5.  A reply of at most four characters before the carriage return is
    the empty reply: the slice takes three characters off the front and one
    off the back whatever they are, so that a line as short as that, a
    prefix alone or a prefix and one character, reads as no message. *)
Theorem short_replies_are_empty (s : state) (sr : Serial) (T dt : Q)
    (command text : string) (more : list rx_event)
    (Hser : ser s = Some sr) (Hopen : is_open sr = true)
    (Htimeout : _timeout s = Some T)
    (Hcommand : Py.all_ascii command = true)
    (Hplain : plain text = true)
    (Hshort : (String.length text <= 4)%nat)
    (Hline : hd [] (replies sr) = bytes_arriving dt (text ++ cr) ++ more)
    (Hdt : (0 <= dt)%Q)
    (Htime : (seconds (String.length text) dt < T)%Q) :
  fst (query command s) = Ok (Some EmptyString) /\
  truthy (Some (Py.slice text 3 (-1))) = false.
Proof.
  rewrite (query_unfold s sr T command Hser Hopen Htimeout Hcommand).
  unfold loop_of. rewrite Hline.
  destruct (while_loop_line (clock s + T) dt text (clock s) more Hdt Hplain) as (t & Et);
    [lra|].
  rewrite Et. cbn [query_result fst]. rewrite (slice_short text Hshort).
  split; reflexivity.
Qed.

Lemma short_replies_are_empty_example :
  fst (query "MZ 1250" (plugged 2 [bytes_arriving (1 # 100) (":N-1" ++ cr)]))
    = Ok (Some EmptyString).
Proof.
  refine (proj1 (short_replies_are_empty
            (plugged 2 [bytes_arriving (1 # 100) (":N-1" ++ cr)])
            _ 2 (1 # 100) "MZ 1250"%string ":N-1"%string []
            eq_refl eq_refl eq_refl eq_refl eq_refl _ eq_refl _ _)).
  - vm_compute. lia.
  - vm_compute. discriminate.
  - vm_compute. reflexivity.
Defined.

(* ===================================================================== *)
(** ** More of the moves and of the position cache *)
(* ===================================================================== *)

Lemma device_units_state (um : Float.float) (s : state) :
  snd (device_units um s) = s.
Proof.
  cbv beta iota delta [device_units bind attr lift ret raise].
  destruct (_units_per_um s) as [u|]; [|reflexivity].
  destruct (Float.round (Float.mul um u)); reflexivity.
Qed.

Lemma device_units_Ok (um : Float.float) (s s' : state) (n : Z) :
  device_units um s = (Ok n, s') -> s' = s.
Proof. intros H. rewrite <- (device_units_state um s), H. reflexivity. Qed.

(** The end of [absmove] and [relmove]: the test of the reply and the
    assignment of the flag. *)
Lemma move_tail (reply : option string) (s s' : state) :
  ((if truthy reply
    then m <- unexpected_message reply ;; logger WARNING m []
    else ret tt) ;;
   modify (with_moved_since_last_read true)) s = (Ok tt, s') ->
  _moved_since_last_read s' = Some true /\ _pos s' = _pos s /\
  _units_per_um s' = _units_per_um s /\ ser s' = ser s.
Proof.
  destruct reply as [[|c r]|]; cbn; intros H; injection H as <-; repeat split.
Qed.

Lemma query_Ok_attributes (command : string) (s s' : state) (r : option string) :
  query command s = (Ok r, s') ->
  _units_per_um s' = _units_per_um s /\ _pos s' = _pos s /\
  _moved_since_last_read s' = _moved_since_last_read s.
Proof.
  intros E. pose proof (query_attributes command s) as H. rewrite E in H.
  cbv zeta in H. cbn [snd] in H. tauto.
Qed.

Lemma pos_when_moved (s : state) :
  _moved_since_last_read s = Some true -> pos s = get_position s.
Proof. intros H. unfold pos, bind, attr. now rewrite H. Qed.

Lemma pos_when_still (s : state) (p : Float.float) :
  _moved_since_last_read s = Some false -> _pos s = Some p ->
  pos s = (Ok (Some p), s).
Proof. intros H1 H2. unfold pos, bind, attr. now rewrite H1, H2. Qed.

(** X6.  A move that returns, absolute or relative, has marked the cache
    dirty without touching the cached position or the scale: the next
    [pos] is a read of the device. *)
Theorem moves_mark_the_cache_dirty (um : Float.float) (s s' : state)
    (Hmove : absmove um s = (Ok tt, s') \/ relmove um s = (Ok tt, s')) :
  _moved_since_last_read s' = Some true /\
  _pos s' = _pos s /\
  _units_per_um s' = _units_per_um s /\
  pos s' = get_position s'.
Proof.
  assert (H : _moved_since_last_read s' = Some true /\ _pos s' = _pos s /\
              _units_per_um s' = _units_per_um s).
  { destruct Hmove as [H|H]; unfold absmove, relmove in H;
      apply bind_Ok in H as (n & s0 & Hd & H);
      apply device_units_Ok in Hd; subst s0;
      apply bind_Ok in H as (reply & s1 & Hq & H);
      apply query_Ok_attributes in Hq as (Hu & Hp & _);
      apply move_tail in H as (Hf & Hp' & Hu' & _);
      repeat split; congruence. }
  destruct H as (Hf & Hp & Hu). repeat split; try assumption.
  now apply pos_when_moved.
Qed.

Lemma moves_mark_the_cache_dirty_example :
  _moved_since_last_read (snd (pos bench)) = Some false /\
  _moved_since_last_read (snd (absmove twelve_34 (snd (pos bench)))) = Some true /\
  _pos (snd (absmove twelve_34 (snd (pos bench)))) = _pos (snd (pos bench)).
Proof.
  split; [vm_compute; reflexivity|].
  assert (H : absmove twelve_34 (snd (pos bench))
              = (Ok tt, snd (absmove twelve_34 (snd (pos bench)))))
    by (vm_compute; reflexivity).
  destruct (moves_mark_the_cache_dirty twelve_34 (snd (pos bench))
              (snd (absmove twelve_34 (snd (pos bench))))
              (or_introl H)) as (H1 & H2 & _).
  split; [exact H1 | exact H2].
Defined.

(** X7.  After a reply to [RESOLUTION] whose unit word is neither
    [HUNDREDTHS] nor [TENTHS], on an instance that had no scale, the
    instance is left without a scale although [_get_resolution_info]
    returned: [absmove] and [relmove] raise [AttributeError] with the state
    untouched, [redefine_position] raises it with nothing written, and
    [get_position] reports every reply, a well-formed one included, as an
    unexpected message and returns [None]. *)
Theorem unknown_unit_word_disables_the_moves (s s1 : state)
    (reply number fraction : string) (n : Z) (um : Float.float)
    (Hfresh : _units_per_um s = None)
    (Hquery : query "RESOLUTION" s = (Ok (Some reply), s1))
    (Hsplit : Py.split_on " " reply = [number; fraction])
    (Hint : Py.int_of_str number = Some n)
    (Hnot100 : fraction <> "HUNDREDTHS"%string)
    (Hnot10 : fraction <> "TENTHS"%string) :
  let s' := snd (_get_resolution_info s) in
  fst (_get_resolution_info s) = Ok tt /\
  absmove um s' = (Raise AttributeError, s') /\
  relmove um s' = (Raise AttributeError, s') /\
  fst (redefine_position um s') = Raise AttributeError /\
  wire (snd (redefine_position um s')) = wire s' /\
  forall s2 r, query "WZ" s' = (Ok (Some r), s2) ->
    get_position s' =
      (Ok None, with_log (log s2 ++ [warning ("unexpected message: " ++ r)]) s2).
Proof.
  cbv zeta.
  rewrite (_get_resolution_info_unfold s s1 reply number fraction n Hquery Hsplit Hint).
  cbn [fst snd].
  apply String.eqb_neq in Hnot100, Hnot10.
  unfold after_scale. rewrite Hnot100, Hnot10.
  destruct (query_Ok_attributes _ _ _ _ Hquery) as (Hu & _). rewrite Hfresh in Hu.
  set (s' := with_log _ (with_smallest_um_step (Int n) s1)).
  assert (Hnone : _units_per_um s' = None) by exact Hu.
  split; [reflexivity|].
  split; [cbv beta iota delta [absmove device_units bind attr]; now rewrite Hnone|].
  split; [cbv beta iota delta [relmove device_units bind attr]; now rewrite Hnone|].
  split; [|split].
  - cbv beta iota delta [redefine_position device_units bind attr logger modify].
    cbn [_units_per_um with_log]. now rewrite Hnone.
  - cbv beta iota delta [redefine_position device_units bind attr logger modify].
    cbn [_units_per_um with_log]. now rewrite Hnone.
  - intros s2 r Hq.
    destruct (query_Ok_attributes _ _ _ _ Hq) as (Hu2 & _). rewrite Hnone in Hu2.
    cbv beta iota delta [get_position bind try_except int_of_reply microns attr lift
                         ret raise modify unexpected_message logger].
    rewrite Hq. destruct (Py.int_of_str r); [rewrite Hu2|]; reflexivity.
Qed.

Lemma unknown_unit_word_example :
  absmove twelve_34
    (snd (_get_resolution_info
            (plugged 2 [bytes_arriving (1 # 100) (":A 3 THOUSANDTHS " ++ cr)])))
  = (Raise AttributeError,
     snd (_get_resolution_info
            (plugged 2 [bytes_arriving (1 # 100) (":A 3 THOUSANDTHS " ++ cr)]))).
Proof.
  exact (proj1 (proj2 (unknown_unit_word_disables_the_moves
    (plugged 2 [bytes_arriving (1 # 100) (":A 3 THOUSANDTHS " ++ cr)])
    (snd (query "RESOLUTION" (plugged 2 [bytes_arriving (1 # 100) (":A 3 THOUSANDTHS " ++ cr)])))
    "3 THOUSANDTHS" "3" "THOUSANDTHS" 3 twelve_34 eq_refl
    eq_refl eq_refl eq_refl
    ltac:(discriminate) ltac:(discriminate)))).
Defined.

Lemma query_expired (s : state) (sr : Serial) (T dt wait : Q)
    (command text : string) (more : list rx_event) :
  ser s = Some sr -> is_open sr = true -> _timeout s = Some T ->
  Py.all_ascii command = true -> plain text = true ->
  hd [] (replies sr) = bytes_arriving dt text ++ silence wait :: more ->
  (0 <= dt)%Q -> (seconds (String.length text) dt < T)%Q ->
  (T <= seconds (String.length text) dt + wait)%Q ->
  exists t, query command s = (Ok None, after_query command Expired more t sr s).
Proof.
  intros Hser Hopen Htimeout Hcommand Hplain Hline Hdt Htime Hwait.
  rewrite (query_unfold s sr T command Hser Hopen Htimeout Hcommand).
  unfold loop_of. rewrite Hline.
  destruct (while_loop_expired (clock s + T) dt wait text (clock s) more Hdt Hplain)
    as (t & Et); [lra | lra |].
  rewrite Et. now exists t.
Qed.

(** X8.  When the reply to [WZ] stops short and the timeout passes,
    [get_position] does not return: the handler of its bare [except] adds
    [None] to a string and the [TypeError] leaves the method.  No warning
    is logged and the cached position and the flag are as before. *)
Theorem get_position_on_a_silent_line (s : state) (sr : Serial) (T dt wait : Q)
    (text : string) (more : list rx_event)
    (Hser : ser s = Some sr) (Hopen : is_open sr = true)
    (Htimeout : _timeout s = Some T)
    (Hplain : plain text = true)
    (Hline : hd [] (replies sr) = bytes_arriving dt text ++ silence wait :: more)
    (Hdt : (0 <= dt)%Q)
    (Htime : (seconds (String.length text) dt < T)%Q)
    (Hwait : (T <= seconds (String.length text) dt + wait)%Q) :
  fst (get_position s) = Raise TypeError /\
  log (snd (get_position s)) = log s /\
  _pos (snd (get_position s)) = _pos s /\
  _moved_since_last_read (snd (get_position s)) = _moved_since_last_read s /\
  wire (snd (get_position s)) = wire s ++ ["WZ" ++ cr]%string.
Proof.
  destruct (query_expired s sr T dt wait "WZ" text more Hser Hopen Htimeout eq_refl
              Hplain Hline Hdt Htime Hwait) as (t & E).
  cbv beta iota delta [get_position bind try_except int_of_reply microns attr lift
                       ret raise modify unexpected_message logger].
  rewrite E. cbn [fst snd after_query log _pos _moved_since_last_read query_records].
  rewrite app_nil_r. repeat split.
  unfold wire. cbn. now rewrite Hser.
Qed.

Lemma get_position_on_a_silent_line_example :
  fst (get_position
         (with_units_per_um Float.lit_100_0
            (plugged 2 [bytes_arriving (1 # 100) ":A 12" ++ [silence 2]])))
    = Raise TypeError.
Proof.
  refine (proj1 (get_position_on_a_silent_line
            (with_units_per_um Float.lit_100_0
               (plugged 2 [bytes_arriving (1 # 100) ":A 12" ++ [silence 2]]))
            (serial_object (Some "COM1"%string) [bytes_arriving (1 # 100) ":A 12" ++ [silence 2]])
            2 (1 # 100) 2 ":A 12"%string [] eq_refl eq_refl eq_refl eq_refl eq_refl _ _ _)).
  - vm_compute. discriminate.
  - vm_compute. reflexivity.
  - vm_compute. discriminate.
Defined.

(** X9.  A reply to [WZ] that is not the text of an int costs a warning
    and nothing else: [get_position] returns [None], the cached position
    and the flag stay as they were, so a dirty cache stays dirty and [pos]
    returns [None] as well. *)
Theorem unreadable_position_keeps_the_cache (s s1 : state) (r : string)
    (Hquery : query "WZ" s = (Ok (Some r), s1))
    (Hbad : Py.int_of_str r = None) :
  fst (get_position s) = Ok None /\
  log (snd (get_position s)) = log s1 ++ [warning ("unexpected message: " ++ r)] /\
  _pos (snd (get_position s)) = _pos s /\
  _moved_since_last_read (snd (get_position s)) = _moved_since_last_read s /\
  (_moved_since_last_read s = Some true ->
   fst (pos s) = Ok None /\ _moved_since_last_read (snd (pos s)) = Some true).
Proof.
  rewrite (get_position_unparsed s s1 r Hquery Hbad). cbn [fst snd].
  destruct (query_Ok_attributes _ _ _ _ Hquery) as (_ & Hp & Hf).
  split; [reflexivity|]. split; [reflexivity|].
  split; [exact Hp|]. split; [exact Hf|].
  intros Hm. rewrite (pos_when_moved s Hm), (get_position_unparsed s s1 r Hquery Hbad).
  cbn [fst snd]. split; [reflexivity|]. cbn. congruence.
Qed.

Lemma unreadable_position_example :
  fst (get_position
         (with_units_per_um Float.lit_100_0
            (plugged 2 [bytes_arriving (1 # 100) (":A 12.5 " ++ cr)])))
    = Ok None.
Proof.
  exact (proj1 (unreadable_position_keeps_the_cache
    (with_units_per_um Float.lit_100_0
       (plugged 2 [bytes_arriving (1 # 100) (":A 12.5 " ++ cr)]))
    (snd (query "WZ" (with_units_per_um Float.lit_100_0
       (plugged 2 [bytes_arriving (1 # 100) (":A 12.5 " ++ cr)]))))
    "12.5" eq_refl eq_refl)).
Defined.

(** X10.  Once [pos] has returned a position, asking again returns the
    same position and leaves the instance exactly as it is: nothing is
    written, read or logged. *)
Theorem pos_twice (s s' : state) (p : Float.float)
    (Hfirst : pos s = (Ok (Some p), s')) :
  pos s' = (Ok (Some p), s').
Proof.
  unfold pos in Hfirst. apply bind_Ok in Hfirst as (moved & s0 & Hm & H).
  unfold attr in Hm. destruct (_moved_since_last_read s) as [m|] eqn:Em; [|discriminate].
  injection Hm as <- <-. destruct m.
  - apply get_position_Some in H as (Hp & Hf). now apply pos_when_still.
  - apply bind_Ok in H as (q & s0 & Hq & H).
    unfold attr in Hq. destruct (_pos s) as [q'|] eqn:Ep; [|discriminate].
    injection Hq as <- <-. injection H as <- <-. now apply pos_when_still.
Qed.

Lemma pos_twice_example :
  pos (snd (pos bench)) = (Ok (Some twelve_34), snd (pos bench)).
Proof.
  apply (pos_twice bench). vm_compute. reflexivity.
Defined.

(** X11.  [zero] and [redefine_position] relabel the cached position (to
    0.00 and to the given length, not to what the device rounded it to) and
    leave the flag alone.  On a clean cache the next [pos] therefore returns
    the label without asking the device; on a dirty one it still reads. *)
Theorem relabelling_keeps_the_flag (p : Float.float) (s s' : state)
    (Hcall : zero s = (Ok tt, s') /\ p = Float.lit_0_00 \/
             redefine_position p s = (Ok tt, s')) :
  _pos s' = Some p /\
  _moved_since_last_read s' = _moved_since_last_read s /\
  (_moved_since_last_read s = Some false -> pos s' = (Ok (Some p), s')) /\
  (_moved_since_last_read s = Some true -> pos s' = get_position s').
Proof.
  assert (H : _pos s' = Some p /\ _moved_since_last_read s' = _moved_since_last_read s).
  { destruct Hcall as [[H ->]|H].
    - unfold zero in H. apply bind_Ok in H as ([] & s0 & Hl & H).
      injection Hl as <-. apply bind_Ok in H as (r & s1 & Hq & H).
      apply query_Ok_attributes in Hq as (_ & _ & Hf). injection H as <-.
      split; [reflexivity | exact Hf].
    - unfold redefine_position in H. apply bind_Ok in H as ([] & s0 & Hl & H).
      injection Hl as <-. apply bind_Ok in H as (n & s1 & Hd & H).
      apply device_units_Ok in Hd. subst s1.
      apply bind_Ok in H as (r & s1 & Hq & H).
      apply query_Ok_attributes in Hq as (_ & _ & Hf). injection H as <-.
      split; [reflexivity | exact Hf]. }
  destruct H as (Hp & Hf). split; [exact Hp|]. split; [exact Hf|]. split; intros Hm.
  - apply pos_when_still; congruence.
  - apply pos_when_moved; congruence.
Qed.

Lemma relabelling_keeps_the_flag_example :
  pos (snd (redefine_position far_away (snd (pos bench))))
  = (Ok (Some far_away), snd (redefine_position far_away (snd (pos bench)))).
Proof.
  assert (H : redefine_position far_away (snd (pos bench))
              = (Ok tt, snd (redefine_position far_away (snd (pos bench)))))
    by (vm_compute; reflexivity).
  refine (proj1 (proj2 (proj2 (relabelling_keeps_the_flag far_away (snd (pos bench))
            (snd (redefine_position far_away (snd (pos bench)))) (or_intror H)))) _).
  vm_compute. reflexivity.
Defined.

(* ===================================================================== *)
(** ** Move and read; the failures of the resolution *)
(* ===================================================================== *)

(** The shape that [absmove_read] and [relmove_read] share, for any move
    that marks the cache dirty. *)
Lemma move_then_read (move : M Datatypes.unit) (s s1 s2 : state) (p0 q : Float.float) :
  _moved_since_last_read s = Some false -> _pos s = Some p0 ->
  move s = (Ok tt, s1) -> _moved_since_last_read s1 = Some true ->
  get_position s1 = (Ok (Some q), s2) ->
  (pos_before_move <- pos ;;
   move ;;
   after <- pos ;;
   (if pos_eqb after pos_before_move
    then logger WARNING "Stage didn't move. Perhaps step too small or out of range." []
    else ret tt) ;;
   pos) s
  = (Ok (Some q),
     if SFeqb q p0
     then with_log (log s2 ++ [warning "Stage didn't move. Perhaps step too small or out of range."]) s2
     else s2).
Proof.
  intros Hclean Hpos Hmove Hdirty Hread.
  destruct (get_position_Some s1 s2 q Hread) as (Hq & Hf).
  unfold bind at 1. rewrite (pos_when_still s p0 Hclean Hpos).
  unfold bind at 1. rewrite Hmove.
  unfold bind at 1. rewrite (pos_when_moved s1 Hdirty), Hread.
  cbn [pos_eqb]. destruct (SFeqb q p0).
  - unfold bind at 1. cbn [logger modify]. unfold logger, modify.
    now apply pos_when_still.
  - unfold bind at 1. cbn [ret]. unfold ret. now apply pos_when_still.
Qed.

(** X12.  [absmove_read] and [relmove_read] from a clean cache, when the
    move returns and the read after it yields a position [q]: the result is
    [q], the device was asked for its position once and not a second time
    for the returned value, and the warning that the stage did not move is
    logged exactly when [q] equals the position cached before the move. *)
Theorem move_and_read_asks_once (um : Float.float) (s s1 s2 : state)
    (p0 q : Float.float)
    (Hclean : _moved_since_last_read s = Some false)
    (Hpos : _pos s = Some p0)
    (Hread : get_position s1 = (Ok (Some q), s2)) :
  let told :=
    if SFeqb q p0
    then with_log (log s2 ++ [warning "Stage didn't move. Perhaps step too small or out of range."]) s2
    else s2 in
  (absmove um s = (Ok tt, s1) -> absmove_read um s = (Ok (Some q), told)) /\
  (relmove um s = (Ok tt, s1) -> relmove_read um s = (Ok (Some q), told)).
Proof.
  cbv zeta. split; intros Hmove.
  - unfold absmove_read. apply (move_then_read _ s s1 s2); try assumption.
    unfold absmove in Hmove.
    apply bind_Ok in Hmove as (n & s0 & _ & H).
    apply bind_Ok in H as (reply & s3 & _ & H).
    now apply move_tail in H as (Hf & _).
  - unfold relmove_read. apply (move_then_read _ s s1 s2); try assumption.
    unfold relmove in Hmove.
    apply bind_Ok in Hmove as (n & s0 & _ & H).
    apply bind_Ok in H as (reply & s3 & _ & H).
    now apply move_tail in H as (Hf & _).
Qed.

Lemma move_and_read_on_the_bench :
  fst (absmove_read twelve_34 (snd (pos bench)))
    = Ok (Some (S754_finite false 7036874417766400 (-49))) /\
  wire (snd (absmove_read twelve_34 (snd (pos bench))))
    = wire (snd (pos bench)) ++ ["MZ 1234" ++ cr; "WZ" ++ cr]%string.
Proof.
  assert (H1 : absmove twelve_34 (snd (pos bench))
               = (Ok tt, snd (absmove twelve_34 (snd (pos bench)))))
    by (vm_compute; reflexivity).
  assert (H2 : get_position (snd (absmove twelve_34 (snd (pos bench))))
               = (Ok (Some (S754_finite false 7036874417766400 (-49))),
                  snd (get_position (snd (absmove twelve_34 (snd (pos bench)))))))
    by (vm_compute; reflexivity).
  assert (H0 : _pos (snd (pos bench)) = Some twelve_34) by (vm_compute; reflexivity).
  assert (Hc : _moved_since_last_read (snd (pos bench)) = Some false)
    by (vm_compute; reflexivity).
  rewrite (proj1 (move_and_read_asks_once twelve_34 _ _ _ _ _ Hc H0 H2) H1).
  split; [reflexivity|]. vm_compute. reflexivity.
Defined.

(** X13.  How [_get_resolution_info] fails.  Without a reply (a timeout)
    the split raises [AttributeError]; a reply that does not have exactly
    two pieces around a single space raises [ValueError]; in both cases no
    attribute has changed.  When the unit word is recognised but the number
    is not the text of an int, [ValueError] is raised after the scale has
    been assigned: the instance keeps the new scale with the old smallest
    step. *)
Theorem resolution_failures (s s1 : state) (reply : option string)
    (Hquery : query "RESOLUTION" s = (Ok reply, s1)) :
  (reply = None -> _get_resolution_info s = (Raise AttributeError, s1)) /\
  (forall r, reply = Some r -> List.length (Py.split_on " " r) <> 2%nat ->
     _get_resolution_info s = (Raise ValueError, s1)) /\
  (forall r number fraction, reply = Some r ->
     Py.split_on " " r = [number; fraction] -> Py.int_of_str number = None ->
     _get_resolution_info s = (Raise ValueError, after_scale fraction s1) /\
     _smallest_um_step (after_scale fraction s1) = _smallest_um_step s).
Proof.
  split; [|split].
  - intros ->. unfold _get_resolution_info, bind. now rewrite Hquery.
  - intros r -> Hlen. unfold _get_resolution_info, bind. rewrite Hquery.
    unfold split_reply.
    destruct (Py.split_on " " r) as [|a [|b [|c l]]]; cbn in Hlen; try reflexivity.
    congruence.
  - intros r number fraction -> Hsplit Hint.
    destruct (query_attributes "RESOLUTION" s) as (_ & Hstep & _).
    rewrite Hquery in Hstep. cbn [snd] in Hstep.
    split.
    + cbv beta iota delta [_get_resolution_info bind split_reply int_of_reply ret raise
                           modify].
      rewrite Hquery, Hsplit. unfold after_scale.
      destruct (String.eqb fraction "HUNDREDTHS"); [now rewrite Hint|].
      destruct (String.eqb fraction "TENTHS"); now rewrite Hint.
    + unfold after_scale.
      destruct (String.eqb fraction "HUNDREDTHS"); [exact Hstep|].
      destruct (String.eqb fraction "TENTHS"); exact Hstep.
Qed.

Lemma resolution_failures_example :
  fst (_get_resolution_info
         (plugged 2 [bytes_arriving (1 # 100) (":A 0.5 TENTHS " ++ cr)]))
    = Raise ValueError /\
  _units_per_um (snd (_get_resolution_info
         (plugged 2 [bytes_arriving (1 # 100) (":A 0.5 TENTHS " ++ cr)])))
    = Some Float.lit_10_0.
Proof.
  assert (H : query "RESOLUTION"
                (plugged 2 [bytes_arriving (1 # 100) (":A 0.5 TENTHS " ++ cr)])
              = (Ok (Some "0.5 TENTHS"%string),
                 snd (query "RESOLUTION"
                        (plugged 2 [bytes_arriving (1 # 100) (":A 0.5 TENTHS " ++ cr)]))))
    by (vm_compute; reflexivity).
  destruct (resolution_failures _ _ _ H) as (_ & _ & H3).
  destruct (H3 "0.5 TENTHS"%string "0.5"%string "TENTHS"%string eq_refl eq_refl eq_refl)
    as (E & _).
  rewrite E. split; reflexivity.
Defined.

(* ===================================================================== *)
(** ** More of the construction, and [close] *)
(* ===================================================================== *)

Lemma connected_same (s s' : state) :
  ser s' = ser s -> _timeout s' = _timeout s -> connected s -> connected s'.
Proof. intros H1 H2 (sr & T & Hs & Ho & Ht). exists sr, T. rewrite H1, H2. auto. Qed.

Lemma wire_same (s s' : state) : ser s' = ser s -> wire s' = wire s.
Proof. intros H. unfold wire. now rewrite H. Qed.

Lemma talking_same (T : Q) (s s' : state) :
  ser s' = ser s -> _timeout s' = _timeout s -> talking T s -> talking T s'.
Proof. intros H1 H2 (sr & Hs & Ho & Ht). exists sr. rewrite H1, H2. auto. Qed.

Lemma pending_same (s s' : state) : ser s' = ser s -> pending s' = pending s.
Proof. intros H. unfold pending. now rewrite H. Qed.

Lemma talking_connected (T : Q) (s : state) : talking T s -> connected s.
Proof. intros (sr & H). now exists sr, T. Qed.

(** The loop of [query] looks at the time left only: started later with a
    deadline as much later, it ends the same way on the same events. *)
Lemma while_loop_shift (events : list rx_event) (deadline deadline' now now' : Q)
    (buffer : string) :
  (deadline' - now' == deadline - now)%Q ->
  fst (while_loop deadline' events now' buffer) = fst (while_loop deadline events now buffer).
Proof.
  revert now now' buffer.
  induction events as [|ev rest IH]; intros now now' buffer H; cbn [while_loop].
  - destruct (Qlt_le_dec now deadline) as [Hlt|Hle].
    + rewrite (Qltb_true now deadline Hlt), (Qltb_true now' deadline') by lra. reflexivity.
    + rewrite (Qltb_false now deadline Hle), (Qltb_false now' deadline') by lra. reflexivity.
  - destruct (Qlt_le_dec now deadline) as [Hlt|Hle].
    + rewrite (Qltb_true now deadline Hlt), (Qltb_true now' deadline') by lra.
      destruct (byte ev) as [c|].
      * destruct (Ascii.eqb c CR); [reflexivity|].
        destruct (Py.is_ascii c); [|reflexivity]. apply IH. lra.
      * apply IH. lra.
    + rewrite (Qltb_false now deadline Hle), (Qltb_false now' deadline') by lra. reflexivity.
Qed.

(** One [query] that returns, on an instance that can talk: what it returns
    is what it hears in the next reply of the device, and that reply is
    used up. *)
Lemma query_heard (T : Q) (command : string) (s s' : state) (r : option string) :
  talking T s -> Py.all_ascii command = true ->
  query command s = (Ok r, s') ->
  r = heard T (hd [] (pending s)) /\
  talking T s' /\ pending s' = tl (pending s) /\
  wire s' = wire s ++ [(command ++ cr)%string] /\
  _smallest_um_step s' = _smallest_um_step s.
Proof.
  intros (sr & Hs & Ho & Ht) Ha E.
  rewrite (query_unfold s sr T command Hs Ho Ht Ha) in E. unfold loop_of in E.
  pose proof (while_loop_shift (hd [] (replies sr)) T (clock s + T) 0 (clock s) EmptyString)
    as Hshift.
  unfold heard, pending. rewrite Hs, <- Hshift by lra.
  destruct (while_loop (clock s + T) (hd [] (replies sr)) (clock s) "") as [[exit rest] t].
  cbn [fst].
  destruct exit; cbn [query_result] in E; try discriminate; injection E as <- <-.
  - split; [reflexivity|]. split; [exists (sent command rest sr); cbn; auto|].
    split; [reflexivity|]. split; [now apply wire_after_query | reflexivity].
  - split; [reflexivity|]. split; [exists (sent command rest sr); cbn; auto|].
    split; [reflexivity|]. split; [now apply wire_after_query | reflexivity].
Qed.

(** What one method adds to the line, and what it keeps. *)
Lemma _get_resolution_info_step (T : Q) (s s' : state) :
  talking T s -> _get_resolution_info s = (Ok tt, s') ->
  talking T s' /\ pending s' = tl (pending s) /\
  wire s' = wire s ++ ["RESOLUTION" ++ cr]%string /\
  exists n, _smallest_um_step s' = Some (Int n).
Proof.
  intros Hc H. unfold _get_resolution_info in H.
  apply bind_Ok in H as (reply & s1 & Hq & H).
  apply (query_heard T "RESOLUTION" _ _ _ Hc eq_refl) in Hq as (_ & Hc1 & Hp1 & Hw1 & _).
  apply bind_Ok in H as ([number fraction] & s2 & Hs & H).
  assert (s2 = s1) as ->.
  { unfold split_reply in Hs. destruct reply as [r|]; [|discriminate].
    destruct (Py.split_on " " r) as [|a [|b [|c l]]]; try discriminate.
    now injection Hs. }
  apply bind_Ok in H as ([] & s3 & Hsc & H).
  assert (ser s3 = ser s1 /\ _timeout s3 = _timeout s1) as (Hser3 & Ht3).
  { destruct (String.eqb fraction "HUNDREDTHS"); [injection Hsc as <-; now split|].
    destruct (String.eqb fraction "TENTHS"); injection Hsc as <-; now split. }
  apply bind_Ok in H as (n & s4 & Hn & H).
  unfold int_of_reply in Hn. destruct (Py.int_of_str number) as [m|]; [|discriminate].
  injection Hn as <- <-. injection H as <-.
  split; [|split; [|split]].
  - apply (talking_same T s1); [exact Hser3 | exact Ht3 | exact Hc1].
  - rewrite <- Hp1. apply pending_same. exact Hser3.
  - rewrite <- Hw1. apply wire_same. exact Hser3.
  - now exists m.
Qed.

Lemma _get_encoder_status_step (T : Q) (s s' : state) (status : option bool) :
  talking T s -> _get_encoder_status s = (Ok status, s') ->
  truth status = reply_is (heard T (hd [] (pending s))) "ON " /\
  talking T s' /\ wire s' = wire s ++ ["ENCODER" ++ cr]%string /\
  _smallest_um_step s' = _smallest_um_step s.
Proof.
  intros Hc H. unfold _get_encoder_status in H.
  apply bind_Ok in H as (reply & s1 & Hq & H).
  apply (query_heard T "ENCODER" _ _ _ Hc eq_refl) in Hq as (Hr & Hc1 & _ & Hw1 & Hst).
  rewrite <- Hr.
  destruct (reply_is reply "OFF") eqn:Eoff.
  - injection H as <- <-. split; [|auto].
    destruct reply as [r|]; [|discriminate]. cbn in Eoff.
    apply String.eqb_eq in Eoff. now subst r.
  - destruct (reply_is reply "ON ") eqn:Eon; injection H as <- <-; [auto|].
    split; [reflexivity|]. split; [|auto].
    apply (talking_same T s1); [reflexivity | reflexivity | exact Hc1].
Qed.

Lemma _set_encoder_status_step (T : Q) (s s' : state) :
  talking T s -> _set_encoder_status true s = (Ok tt, s') ->
  talking T s' /\ wire s' = wire s ++ ["ENCODER ON" ++ cr]%string /\
  _smallest_um_step s' = _smallest_um_step s.
Proof.
  intros Hc H. unfold _set_encoder_status in H.
  apply bind_Ok in H as (reply & s1 & Hq & H).
  apply (query_heard T "ENCODER ON" _ _ _ Hc eq_refl) in Hq as (_ & Hc1 & _ & Hw1 & Hst).
  injection H as <-. split; [|split]; [| exact Hw1 | exact Hst].
  apply (talking_same T s1); [reflexivity | reflexivity | exact Hc1].
Qed.

Lemma get_position_step (s s' : state) (r : option Float.float) :
  connected s -> get_position s = (Ok r, s') ->
  connected s' /\ wire s' = wire s ++ ["WZ" ++ cr]%string /\
  _smallest_um_step s' = _smallest_um_step s.
Proof.
  intros Hc H. unfold get_position in H.
  apply bind_Ok in H as (reply & s1 & Hq & H).
  apply (query_step "WZ" _ _ _ Hc eq_refl) in Hq as (Hc1 & Hw1 & _ & _ & _ & Hst).
  assert (ser s' = ser s1 /\ _timeout s' = _timeout s1 /\
          _smallest_um_step s' = _smallest_um_step s1) as (H1 & H2 & H3).
  { revert H.
    cbv beta iota delta [bind try_except int_of_reply microns attr lift
                         ret raise modify unexpected_message logger].
    destruct reply as [t|]; [|discriminate].
    destruct (Py.int_of_str t) as [n|]; [|intros H; injection H as _ <-; auto].
    destruct (_units_per_um s1) as [u|]; [|intros H; injection H as _ <-; auto].
    destruct (Float.of_int n) as [e|x]; [intros H; injection H as _ <-; auto|].
    destruct (Float.truediv x u) as [e|y]; intros H; injection H as _ <-; auto. }
  split; [|split].
  - apply (connected_same s1); assumption.
  - rewrite <- Hw1. now apply wire_same.
  - congruence.
Qed.

(** X14.  The dialogue of a construction.  Whenever a construction on a
    given port returns, it has written, in this order, [WHO], then
    [VERSION] exactly if what it heard in the device's first reply is
    [Remote Focus Accessory (M)], then [RESOLUTION] and [ENCODER], then
    [ENCODER ON] unless what it heard in the reply to [ENCODER] (the
    device's fourth reply after a [VERSION], its third without) is [ON ],
    then [WZ], each followed by a carriage return, and nothing else; the
    instance is connected and its smallest step is an int. *)
Theorem construction_dialogue (comports : list ListPortInfo)
    (line : list (list rx_event)) (p newline : string) (timeout : Q)
    (vid pid : option Z) (now : Q) (records : list LogRecord) (s' : state)
    (Hdone : __init__ comports line (Some p) newline timeout vid pid
               (blank now records) = (Ok tt, s')) :
  let identified :=
    reply_is (heard timeout (nth 0 line [])) "Remote Focus Accessory (M)" in
  let encoder_on :=
    reply_is (heard timeout (nth (if identified then 3 else 2) line [])) "ON " in
  wire s' = map (fun c => (c ++ cr)%string)
              (["WHO"%string] ++ (if identified then ["VERSION"%string] else []) ++
               ["RESOLUTION"%string; "ENCODER"%string] ++
               (if encoder_on then [] else ["ENCODER ON"%string]) ++ ["WZ"%string]) /\
  connected s' /\
  exists n, _smallest_um_step s' = Some (Int n).
Proof.
  cbv zeta. unfold __init__ in Hdone.
  apply bind_Ok in Hdone as ([] & s0 & H0 & H). injection H0 as <-.
  apply bind_Ok in H as (found & s1 & Hf & H).
  cbn in Hf. injection Hf as <- <-.
  apply bind_Ok in H as (sr & s1 & Hsr & H).
  assert (sr = serial_object (Some p) line) as ->.
  { unfold Serial_ in Hsr. destruct (Qltb timeout 0); [discriminate|]. now injection Hsr. }
  assert (Hs1 : snd (lift (Serial_ (Some p) timeout line)
                       {| _line_ending := Some newline; _timeout := Some timeout;
                          unit := Some "um"%string; ser := None; _units_per_um := None;
                          _smallest_um_step := None; _pos := None;
                          _moved_since_last_read := None; clock := now;
                          log := records |}) = s1) by (cbn in Hsr |- *; now rewrite Hsr).
  assert (Hs1' : ser s1 = None /\ _timeout s1 = Some timeout).
  { rewrite <- Hs1. unfold Serial_. destruct (Qltb timeout 0); now split. }
  clear Hs1 Hsr.
  apply bind_Ok in H as ([] & s2 & H1 & H). injection H1 as <-.
  set (s2 := with_ser _ s1) in H.
  assert (Hc2 : talking timeout s2).
  { exists (serial_object (Some p) line). cbn. now destruct Hs1' as (_ & ->). }
  assert (Hp2 : pending s2 = line) by reflexivity.
  assert (Hw2 : wire s2 = []) by reflexivity.
  clearbody s2. clear Hs1'.
  apply bind_Ok in H as (idn & s3 & Hq & H).
  apply (query_heard timeout "WHO" _ _ _ Hc2 eq_refl) in Hq as (Hidn & Hc3 & Hp3 & Hw3 & _).
  rewrite Hw2 in Hw3. cbn [app] in Hw3. rewrite Hp2 in Hidn, Hp3.
  replace (nth 0 line []) with (hd [] line) by now destruct line.
  rewrite <- Hidn.
  apply bind_Ok in H as ([] & s4 & Hid & H).
  set (identified := reply_is idn "Remote Focus Accessory (M)") in *.
  assert (talking timeout s4 /\
          pending s4 = (if identified then tl (tl line) else tl line) /\
          wire s4 = map (fun c => (c ++ cr)%string)
                      (["WHO"%string] ++ (if identified then ["VERSION"%string] else [])))
    as (Hc4 & Hp4 & Hw4).
  { destruct identified.
    - apply bind_Ok in Hid as (ver & s3' & Hq & Hl).
      apply (query_heard timeout "VERSION" _ _ _ Hc3 eq_refl) in Hq as (_ & Hc & Hp & Hw & _).
      injection Hl as <-. split; [|split].
      + apply (talking_same timeout s3'); [reflexivity | reflexivity | exact Hc].
      + rewrite <- Hp3, <- Hp. reflexivity.
      + rewrite Hw3 in Hw. exact Hw.
    - injection Hid as <-. split; [|split].
      + apply (talking_same timeout s3); [reflexivity | reflexivity | exact Hc3].
      + exact Hp3.
      + exact Hw3. }
  clear Hid.
  apply bind_Ok in H as ([] & s5 & Hr & H).
  apply (_get_resolution_info_step timeout _ _ Hc4) in Hr as (Hc5 & Hp5 & Hw5 & n & Hn5).
  assert (Hnext : hd [] (pending s5) = nth (if identified then 3 else 2)%nat line []).
  { rewrite Hp5, Hp4. destruct identified.
    - destruct line as [|a [|b [|c [|d l]]]]; reflexivity.
    - destruct line as [|a [|b [|c l]]]; reflexivity. }
  apply bind_Ok in H as (status & s6 & He & H).
  apply (_get_encoder_status_step timeout _ _ _ Hc5) in He as (Hst & Hc6 & Hw6 & Hn6).
  rewrite Hnext in Hst. rewrite <- Hst.
  apply bind_Ok in H as ([] & s7 & Hs & H).
  assert (connected s7 /\
          wire s7 = wire s6 ++ map (fun c => (c ++ cr)%string)
                                 (if truth status then [] else ["ENCODER ON"%string]) /\
          _smallest_um_step s7 = _smallest_um_step s6) as (Hc7 & Hw7 & Hn7).
  { destruct (truth status); cbn [negb] in Hs.
    - injection Hs as <-. rewrite app_nil_r. split; [|auto].
      now apply (talking_connected timeout).
    - apply (_set_encoder_status_step timeout) in Hs as (Hc & Hw & Hn); [|exact Hc6].
      split; [now apply (talking_connected timeout) | auto]. }
  clear Hs.
  apply bind_Ok in H as (r & s8 & Hg & H).
  apply (get_position_step _ _ _ Hc7) in Hg as (Hc8 & Hw8 & Hn8).
  injection H as <-.
  split; [|split].
  - change (wire (with_moved_since_last_read true s8)) with (wire s8).
    rewrite Hw8, Hw7, Hw6, Hw5, Hw4.
    rewrite !map_app, <- !app_assoc. reflexivity.
  - apply (connected_same s8); [reflexivity | reflexivity | exact Hc8].
  - exists n. cbn. congruence.
Qed.

Lemma construction_dialogue_on_the_bench :
  wire bench = map (fun c => (c ++ cr)%string)
                 ["WHO"; "VERSION"; "RESOLUTION"; "ENCODER"; "WZ"]%string /\
  connected bench /\
  exists n, _smallest_um_step bench = Some (Int n).
Proof.
  pose proof (construction_dialogue [] bench_line "COM1" cr 2 None None 0 [] bench
                ltac:(vm_compute; reflexivity)) as (H1 & H2 & H3).
  split; [|split; [exact H2 | exact H3]].
  rewrite H1. vm_compute. reflexivity.
Defined.
(** X15.  Construction without a port when no listed port carries the
    vendor and product id, both ids being ints that [format] can write (at
    most 4300 digits): the error is logged and [__init__] returns at once.
    No serial object exists, so any later [query], [pos] or [close] raises
    [AttributeError] and leaves the instance as it is. *)
Theorem no_match_leaves_no_serial (comports : list ListPortInfo)
    (line : list (list rx_event)) (newline : string) (timeout : Q) (v p : Z)
    (now : Q) (records : list LogRecord)
    (Hnone : filter (ids_are v p) comports = [])
    (Hv : Py.fits v = true) (Hp : Py.fits p = true) :
  let run := __init__ comports line None newline timeout (Some v) (Some p)
               (blank now records) in
  fst run = Ok tt /\
  log (snd run) = records ++ [{| levelname := ERROR;
                                 msg := "No match found for vid={} pis={}";
                                 args := [ANum (Int v); ANum (Int p)] |}] /\
  ser (snd run) = None /\
  (forall command, query command (snd run) = (Raise AttributeError, snd run)) /\
  pos (snd run) = (Raise AttributeError, snd run) /\
  close (snd run) = (Raise AttributeError, snd run).
Proof.
  cbv zeta. unfold __init__, find_port.
  cbv beta iota delta [bind modify ret logger format formattable forallb].
  rewrite Hnone, Hv, Hp. cbn. repeat split.
Qed.

Lemma no_match_on_two_ports :
  fst (__init__ two_ports bench_line None cr 2 (Some 1027) (Some 24577) (blank 0 []))
    = Ok tt /\
  ser (snd (__init__ two_ports bench_line None cr 2 (Some 1027) (Some 24577) (blank 0 [])))
    = None.
Proof.
  destruct (no_match_leaves_no_serial two_ports bench_line cr 2 1027 24577 0 [] eq_refl
              ltac:(vm_compute; reflexivity) ltac:(vm_compute; reflexivity))
    as (H1 & _ & H3 & _).
  split; [exact H1 | exact H3].
Defined.

(** X16.  Construction without a port and without both ids as ints, with a
    timeout that [serial.Serial] accepts: the error is logged, but the
    construction goes on with no port.  The serial object is created closed
    and the first [query] raises [PortNotOpenError] with nothing written. *)
Theorem missing_ids_open_nothing (comports : list ListPortInfo)
    (line : list (list rx_event)) (newline : string) (timeout : Q)
    (vid pid : option Z) (now : Q) (records : list LogRecord)
    (Hmissing : vid = None \/ pid = None)
    (Htimeout : (0 <= timeout)%Q) :
  let run := __init__ comports line None newline timeout vid pid (blank now records) in
  fst run = Raise PortNotOpenError /\
  log (snd run) = records ++ [{| levelname := ERROR;
      msg := "If port is not supplied, vid and pid need to be supplied (ints)";
      args := [] |}] /\
  option_map port (ser (snd run)) = Some None /\
  wire (snd run) = [].
Proof.
  cbv zeta. unfold __init__, find_port.
  cbv beta iota delta [bind modify ret logger lift].
  destruct Hmissing as [-> | ->]; [|destruct vid]; cbn -[query Serial_];
    rewrite (Serial_accepts None timeout line Htimeout); cbn -[query];
    (erewrite query_closed; [|reflexivity|reflexivity]); repeat split.
Qed.

Lemma missing_ids_example :
  fst (__init__ two_ports bench_line None cr 2 (Some 6790) None (blank 0 []))
    = Raise PortNotOpenError.
Proof.
  exact (proj1 (missing_ids_open_nothing two_ports bench_line cr 2 (Some 6790) None 0 []
                  (or_intror eq_refl) ltac:(vm_compute; discriminate))).
Defined.

(** X17.  Construction without a port when exactly one listed port carries
    the ids is the construction on that port's device; and with a port
    given, the ids and the listed ports play no part. *)
Theorem single_match_is_the_port (comports comports' : list ListPortInfo)
    (line : list (list rx_event)) (newline : string) (timeout : Q) (v p : Z)
    (vid' pid' : option Z) (d : ListPortInfo) (s : state)
    (Hone : filter (ids_are v p) comports = [d]) :
  __init__ comports line None newline timeout (Some v) (Some p) s
  = __init__ comports' line (Some (device d)) newline timeout vid' pid' s.
Proof.
  unfold __init__, find_port. cbv beta iota delta [bind modify ret logger].
  rewrite Hone. reflexivity.
Qed.

Lemma single_match_example :
  snd (__init__ [ {| device := "COM1"; vid := Some 6790; pid := Some 29987 |};
                  {| device := "COM7"; vid := Some 1027; pid := Some 24577 |} ]
         bench_line None cr 2 (Some 6790) (Some 29987) (blank 0 []))
  = bench.
Proof.
  unfold bench.
  rewrite (single_match_is_the_port
             [ {| device := "COM1"; vid := Some 6790; pid := Some 29987 |};
               {| device := "COM7"; vid := Some 1027; pid := Some 24577 |} ]
             [] bench_line cr 2 6790 29987 None None
             {| device := "COM1"; vid := Some 6790; pid := Some 29987 |}
             (blank 0 []) eq_refl).
  reflexivity.
Defined.

(** X18.  After [close] the line refuses: every [query] raises
    [PortNotOpenError] and leaves the instance as it is, and so does [pos]
    on a dirty cache.  The cache itself survives the closing: on a clean
    cache [pos] still returns the cached position. *)
Theorem closed_line_refuses (s s' : state)
    (Hclose : close s = (Ok tt, s')) :
  (forall command, query command s' = (Raise PortNotOpenError, s')) /\
  wire s' = wire s /\
  (_moved_since_last_read s = Some true -> pos s' = (Raise PortNotOpenError, s')) /\
  (forall p, _moved_since_last_read s = Some false -> _pos s = Some p ->
     pos s' = (Ok (Some p), s')) /\
  close s' = (Ok tt, s').
Proof.
  unfold close, bind, attr, modify in Hclose.
  destruct (ser s) as [sr|] eqn:Es; [|discriminate]. injection Hclose as <-.
  set (sr' := {| port := port sr; is_open := false; in_buffer := [];
                 replies := replies sr; written := written sr |}).
  assert (Hq : forall command,
            query command (with_ser sr' s) = (Raise PortNotOpenError, with_ser sr' s))
    by (intros command; now apply (query_closed command _ sr')).
  split; [exact Hq|]. split; [unfold wire; cbn; now rewrite Es|].
  split; [|split].
  - intros Hm. rewrite pos_when_moved by exact Hm.
    unfold get_position, bind. now rewrite Hq.
  - intros p Hm Hp. now apply pos_when_still.
  - reflexivity.
Qed.

Lemma closed_line_refuses_example :
  query "WZ" (snd (close bench)) = (Raise PortNotOpenError, snd (close bench)).
Proof.
  assert (H : close bench = (Ok tt, snd (close bench))) by (vm_compute; reflexivity).
  exact (proj1 (closed_line_refuses bench (snd (close bench)) H) "WZ"%string).
Defined.

(* ===================================================================== *)
(** ** Decimal text: what [format] writes, [int] reads *)
(* ===================================================================== *)

Lemma digits_of_uint_acc (d : Decimal.uint) (acc : positive) :
  Py.digits (list_ascii_of_string (NilEmpty.string_of_uint d)) (Z.pos acc) true
  = Some (Z.pos (Pos.of_uint_acc d acc)).
Proof.
  revert acc.
  induction d as [|d IH|d IH|d IH|d IH|d IH|d IH|d IH|d IH|d IH|d IH]; intros acc;
    [reflexivity|..];
    cbn [NilEmpty.string_of_uint list_ascii_of_string Py.digits Pos.of_uint_acc];
    match goal with
    | |- context [Py.digit_value ?c] =>
        let v := eval vm_compute in (Py.digit_value c) in
        change (Py.digit_value c) with v
    end;
    cbv beta iota;
    match goal with
    | |- Py.digits _ ?a true = Some (Z.pos (Pos.of_uint_acc d ?b)) =>
        replace a with (Z.pos b) by lia
    end;
    apply IH.
Qed.

Lemma digits_of_uint (d : Decimal.uint) (after_digit : bool) :
  d <> Decimal.Nil \/ after_digit = true ->
  Py.digits (list_ascii_of_string (NilEmpty.string_of_uint d)) 0 after_digit
  = Some (Z.of_N (Pos.of_uint d)).
Proof.
  revert after_digit.
  induction d as [|d IH|d IH|d IH|d IH|d IH|d IH|d IH|d IH|d IH|d IH];
    intros after_digit H.
  - destruct H as [H| ->]; [congruence | reflexivity].
  - cbn [NilEmpty.string_of_uint list_ascii_of_string Py.digits Pos.of_uint].
    change (Py.digit_value "0") with (Some 0). cbv beta iota.
    change (10 * 0 + 0) with 0. apply IH. now right.
  - exact (digits_of_uint_acc d 1).
  - exact (digits_of_uint_acc d 2).
  - exact (digits_of_uint_acc d 3).
  - exact (digits_of_uint_acc d 4).
  - exact (digits_of_uint_acc d 5).
  - exact (digits_of_uint_acc d 6).
  - exact (digits_of_uint_acc d 7).
  - exact (digits_of_uint_acc d 8).
  - exact (digits_of_uint_acc d 9).
Qed.

Lemma digits_only (d : Decimal.uint) :
  forallb Py.is_digit (list_ascii_of_string (NilEmpty.string_of_uint d)) = true.
Proof. induction d; cbn; auto. Qed.

Lemma digit_no_space (c : ascii) : Py.is_digit c = true -> Py.is_space c = false.
Proof.
  unfold Py.is_digit, Py.digit_value, Py.is_space.
  destruct (48 <=? N_of_ascii c)%N eqn:E1; [|discriminate].
  destruct (N_of_ascii c <=? 57)%N eqn:E2; [|discriminate]. intros _.
  apply N.leb_le in E1, E2.
  destruct (N_of_ascii c <=? 13)%N eqn:E3; [apply N.leb_le in E3; lia|].
  destruct (N_of_ascii c =? 32)%N eqn:E4; [apply N.eqb_eq in E4; lia|].
  now rewrite andb_false_r.
Qed.

Lemma lstrip_id (l : list ascii) :
  forallb (fun c => negb (Py.is_space c)) l = true -> Py.lstrip l = l.
Proof.
  destruct l as [|c l]; [reflexivity|]. cbn. intros H.
  apply andb_prop in H as (H & _). apply negb_true_iff in H. now rewrite H.
Qed.

Lemma strip_id (l : list ascii) :
  forallb (fun c => negb (Py.is_space c)) l = true -> Py.strip l = l.
Proof.
  intros H. unfold Py.strip. rewrite (lstrip_id l H), lstrip_id, rev_involutive; auto.
  rewrite forallb_forall in *. intros c Hc. apply H. now apply in_rev.
Qed.

Lemma digits_no_space (d : Decimal.uint) :
  forallb (fun c => negb (Py.is_space c))
    (list_ascii_of_string (NilEmpty.string_of_uint d)) = true.
Proof.
  pose proof (digits_only d) as H. rewrite forallb_forall in *.
  intros c Hc. apply negb_true_iff, digit_no_space, H, Hc.
Qed.

(** A numeral holds as many digits as it has characters. *)
Lemma count_digits_uint (d : Decimal.uint) :
  Py.count_digits (list_ascii_of_string (NilEmpty.string_of_uint d))
  = Z.of_nat (String.length (NilEmpty.string_of_uint d)).
Proof.
  unfold Py.count_digits. f_equal.
  induction d; cbn [NilEmpty.string_of_uint list_ascii_of_string String.length filter];
    [reflexivity|..];
    match goal with
    | |- context [Py.is_digit ?c] => change (Py.is_digit c) with true
    end; cbn [List.length]; now rewrite IHd.
Qed.

Lemma int_of_str_uint (d : Decimal.uint) :
  d <> Decimal.Nil ->
  Z.of_nat (String.length (NilEmpty.string_of_uint d)) <= Py.max_str_digits ->
  Py.int_of_str (NilEmpty.string_of_uint d) = Some (Z.of_N (Pos.of_uint d)).
Proof.
  intros Hd Hlen. unfold Py.int_of_str. rewrite (strip_id _ (digits_no_space d)).
  rewrite <- (digits_of_uint d false) by now left.
  rewrite <- count_digits_uint in Hlen. apply Z.ltb_ge in Hlen.
  destruct d; try congruence;
    cbn [NilEmpty.string_of_uint list_ascii_of_string] in Hlen |- *;
    rewrite Hlen; reflexivity.
Qed.

Lemma int_of_str_minus (d : Decimal.uint) :
  d <> Decimal.Nil ->
  Z.of_nat (String.length (NilEmpty.string_of_uint d)) <= Py.max_str_digits ->
  Py.int_of_str (String "-" (NilEmpty.string_of_uint d))
  = Some (- Z.of_N (Pos.of_uint d)).
Proof.
  intros Hd Hlen. unfold Py.int_of_str.
  change (list_ascii_of_string (String "-" (NilEmpty.string_of_uint d)))
    with ("-"%char :: list_ascii_of_string (NilEmpty.string_of_uint d)).
  rewrite strip_id by (cbn [forallb]; now rewrite digits_no_space).
  rewrite <- count_digits_uint in Hlen. apply Z.ltb_ge in Hlen.
  replace (Py.count_digits ("-"%char :: list_ascii_of_string (NilEmpty.string_of_uint d)))
    with (Py.count_digits (list_ascii_of_string (NilEmpty.string_of_uint d)))
    by reflexivity.
  rewrite Hlen. change (Ascii.eqb "-" "-") with true. cbv iota.
  rewrite digits_of_uint by now left. reflexivity.
Qed.

(** [int(str(n)) == n], for an int that [str] can write. *)
Lemma int_of_str_of_int (n : Z) :
  Py.fits n = true -> Py.int_of_str (Py.str_of_int n) = Some n.
Proof.
  unfold Py.fits. intros Hfit. apply Z.leb_le in Hfit.
  destruct n as [|p|p]; [reflexivity| |];
    cbn [Z.abs] in Hfit;
    unfold Py.str_of_int, Z.to_int, NilZero.string_of_int, NilZero.string_of_uint in *;
    pose proof (DecimalPos.Unsigned.to_uint_nonnil p) as Hd;
    pose proof (DecimalPos.Unsigned.of_to p) as Hp;
    destruct (Pos.to_uint p) eqn:E; try congruence.
  all: try (rewrite int_of_str_uint by (discriminate || exact Hfit); now rewrite Hp).
  all: rewrite int_of_str_minus by (discriminate || exact Hfit); now rewrite Hp.
Qed.

(** [int] on a few strings: whitespace around the numeral and one
    underscore between digits are accepted, the byte 31 and a decimal point
    are not. *)
Lemma int_of_str_examples :
  Py.int_of_str " 12" = Some 12 /\
  Py.int_of_str (String "009" "-7" ++ String "010" "") = Some (-7) /\
  Py.int_of_str "1_000" = Some 1000 /\
  Py.int_of_str (String "031" "12") = None /\
  Py.int_of_str "12.5" = None /\
  Py.int_of_str "" = None.
Proof.
  split; [vm_compute; reflexivity|]. split; [vm_compute; reflexivity|].
  split; [vm_compute; reflexivity|]. split; [vm_compute; reflexivity|].
  split; vm_compute; reflexivity.
Qed.

(** *** The size of a numeral *)

Lemma length_string_of_uint (d : Decimal.uint) :
  String.length (NilEmpty.string_of_uint d) = Decimal.nb_digits d.
Proof. induction d; cbn; congruence. Qed.

Lemma of_uint_acc_bounds (d : Decimal.uint) (acc : positive) :
  Z.pos acc * 10 ^ Z.of_nat (Decimal.nb_digits d) <= Z.pos (Pos.of_uint_acc d acc)
  < (Z.pos acc + 1) * 10 ^ Z.of_nat (Decimal.nb_digits d).
Proof.
  revert acc. induction d as [|d IH|d IH|d IH|d IH|d IH|d IH|d IH|d IH|d IH|d IH];
    intros acc; cbn [Decimal.nb_digits Pos.of_uint_acc];
    [rewrite Z.pow_0_r; lia|..];
    rewrite Nat2Z.inj_succ, Z.pow_succ_r by lia;
    match goal with
    | |- _ <= Z.pos (Pos.of_uint_acc d ?a) < _ => specialize (IH a)
    end;
    assert (0 < 10 ^ Z.of_nat (Decimal.nb_digits d)) by (apply Z.pow_pos_nonneg; lia);
    set (P := 10 ^ Z.of_nat (Decimal.nb_digits d)) in *; nia.
Qed.

Lemma nzhead_no_zero (d d' : Decimal.uint) : Decimal.nzhead d <> Decimal.D0 d'.
Proof. induction d; cbn; try discriminate; assumption. Qed.

Lemma to_uint_head (p : positive) (d : Decimal.uint) : Pos.to_uint p <> Decimal.D0 d.
Proof.
  intros E.
  pose proof (DecimalPos.Unsigned.to_of (Pos.to_uint p)) as H.
  rewrite DecimalPos.Unsigned.of_to in H. cbn [N.to_uint] in H.
  rewrite E in H. unfold Decimal.unorm in H. cbn [Decimal.nzhead] in H.
  destruct (Decimal.nzhead d) eqn:En; try discriminate.
  - injection H as H. subst d. exact (DecimalPos.Unsigned.to_uint_nonzero p E).
  - exact (nzhead_no_zero d _ En).
Qed.

(** A positive int has [L] digits exactly when it lies from [10^(L-1)] up
    to, and not including, [10^L]. *)
Lemma to_uint_size (p : positive) :
  let L := Z.of_nat (Decimal.nb_digits (Pos.to_uint p)) in
  1 <= L /\ 10 ^ (L - 1) <= Z.pos p < 10 ^ L.
Proof.
  cbv zeta.
  pose proof (DecimalPos.Unsigned.of_to p) as Hp.
  pose proof (DecimalPos.Unsigned.to_uint_nonnil p) as Hnil.
  pose proof (to_uint_head p) as Hhead.
  destruct (Pos.to_uint p) as [|d|d|d|d|d|d|d|d|d|d]; try congruence;
    try (exfalso; exact (Hhead d eq_refl));
    cbn [Pos.of_uint] in Hp; injection Hp as Hp;
    cbn [Decimal.nb_digits]; rewrite Nat2Z.inj_succ;
    replace (Z.succ (Z.of_nat (Decimal.nb_digits d)) - 1)
      with (Z.of_nat (Decimal.nb_digits d)) by lia;
    rewrite Z.pow_succ_r by lia;
    match type of Hp with
    | Pos.of_uint_acc d ?a = p => pose proof (of_uint_acc_bounds d a) as Hb
    end;
    rewrite Hp in Hb;
    assert (0 < 10 ^ Z.of_nat (Decimal.nb_digits d)) by (apply Z.pow_pos_nonneg; lia);
    set (P := 10 ^ Z.of_nat (Decimal.nb_digits d)) in *; (split; [lia | nia]).
Qed.

Lemma length_str_of_pos (p : positive) :
  String.length (Py.str_of_int (Z.pos p)) = Decimal.nb_digits (Pos.to_uint p).
Proof.
  unfold Py.str_of_int, Z.to_int, NilZero.string_of_int, NilZero.string_of_uint.
  pose proof (DecimalPos.Unsigned.to_uint_nonnil p) as Hnil.
  destruct (Pos.to_uint p) eqn:E; try congruence; apply length_string_of_uint.
Qed.

(** [str(n)] and [format] have a text for [n] exactly when [n] is less than
    [10^4300] in size. *)
Lemma fits_spec (n : Z) : Py.fits n = true <-> Z.abs n < 10 ^ Py.max_str_digits.
Proof.
  unfold Py.fits. rewrite Z.leb_le.
  assert (Hk : 1 <= Py.max_str_digits) by (unfold Py.max_str_digits; lia).
  generalize dependent Py.max_str_digits. intros k Hk.
  assert (H : forall p, Z.of_nat (String.length (Py.str_of_int (Z.pos p))) <= k
                        <-> Z.pos p < 10 ^ k).
  { intros p. rewrite length_str_of_pos.
    destruct (to_uint_size p) as (HL & Hlo & Hhi).
    set (L := Z.of_nat (Decimal.nb_digits (Pos.to_uint p))) in *.
    split; intros Hle.
    - apply Z.lt_le_trans with (10 ^ L); [exact Hhi|].
      apply Z.pow_le_mono_r; lia.
    - destruct (Z.le_gt_cases L k) as [|Hgt]; [assumption|exfalso].
      assert (10 ^ k <= 10 ^ (L - 1)) by (apply Z.pow_le_mono_r; lia). lia. }
  destruct n as [|p|p]; cbn [Z.abs].
  - change (Z.of_nat (String.length (Py.str_of_int 0))) with 1.
    split; [intros _; apply Z.pow_pos_nonneg; lia | intros _; exact Hk].
  - apply H.
  - apply H.
Qed.

Lemma digit_value_range (c : ascii) (d : Z) : Py.digit_value c = Some d -> 0 <= d <= 9.
Proof.
  unfold Py.digit_value.
  destruct (48 <=? N_of_ascii c)%N eqn:E1; [|discriminate].
  destruct (N_of_ascii c <=? 57)%N eqn:E2; [|discriminate].
  apply N.leb_le in E1, E2. intros H. injection H as <-. lia.
Qed.

Lemma count_digits_cons (c : ascii) (l : list ascii) :
  Py.count_digits (c :: l)
  = (if Py.is_digit c then 1 else 0) + Py.count_digits l.
Proof.
  unfold Py.count_digits. cbn [filter]. destruct (Py.is_digit c); cbn [List.length]; lia.
Qed.

Lemma count_digits_nonneg (l : list ascii) : 0 <= Py.count_digits l.
Proof. unfold Py.count_digits. lia. Qed.

(** The value of a numeral is bounded by the number of its digits. *)
Lemma digits_bounds (l : list ascii) (acc : Z) (after_digit : bool) (m : Z) :
  0 <= acc -> Py.digits l acc after_digit = Some m ->
  acc * 10 ^ Py.count_digits l <= m < (acc + 1) * 10 ^ Py.count_digits l.
Proof.
  revert acc after_digit.
  induction l as [|c rest IH]; intros acc after_digit Hacc H.
  - cbn in H. destruct after_digit; [|discriminate]. injection H as <-.
    change (Py.count_digits []) with 0. rewrite Z.pow_0_r. lia.
  - cbn [Py.digits] in H. rewrite count_digits_cons. unfold Py.is_digit.
    pose proof (count_digits_nonneg rest) as Hc.
    destruct (Py.digit_value c) as [d|] eqn:Ed.
    + pose proof (digit_value_range c d Ed) as Hd.
      apply IH in H; [|lia].
      replace (1 + Py.count_digits rest) with (Z.succ (Py.count_digits rest)) by lia.
      rewrite Z.pow_succ_r by exact Hc.
      assert (0 < 10 ^ Py.count_digits rest) by (apply Z.pow_pos_nonneg; lia).
      set (P := 10 ^ Py.count_digits rest) in *. nia.
    + destruct (Ascii.eqb c "_" && after_digit); [|discriminate].
      destruct rest as [|c' rest']; [discriminate|].
      rewrite Z.add_0_l. now apply IH in H.
Qed.

(** An int that [int] has read from a string is one that [str] and
    [format] can write. *)
Lemma int_of_str_fits (r : string) (n : Z) :
  Py.int_of_str r = Some n -> Py.fits n = true.
Proof.
  unfold Py.int_of_str. intros H. apply fits_spec.
  destruct (Py.strip (list_ascii_of_string r)) as [|c rest]; [discriminate|].
  destruct (Py.max_str_digits <? Py.count_digits (c :: rest)) eqn:Emax; [discriminate|].
  apply Z.ltb_ge in Emax.
  assert (Hsmall : forall l m, Py.digits l 0 false = Some m ->
            Py.count_digits l <= Py.count_digits (c :: rest) ->
            0 <= m < 10 ^ Py.max_str_digits).
  { intros l m Hm Hl. apply digits_bounds in Hm; [|lia].
    pose proof (count_digits_nonneg l).
    assert (10 ^ Py.count_digits l <= 10 ^ Py.max_str_digits)
      by (apply Z.pow_le_mono_r; lia).
    lia. }
  assert (Hrest : Py.count_digits rest <= Py.count_digits (c :: rest)).
  { rewrite count_digits_cons. destruct (Py.is_digit c); lia. }
  destruct (Ascii.eqb c "-").
  - destruct (Py.digits rest 0 false) as [m|] eqn:Em; [|discriminate].
    injection H as <-. specialize (Hsmall rest m Em Hrest). lia.
  - destruct (Ascii.eqb c "+").
    + specialize (Hsmall rest n H Hrest). lia.
    + specialize (Hsmall (c :: rest) n H (Z.le_refl _)). lia.
Qed.

Lemma plain_app (a b : string) : plain (a ++ b) = plain a && plain b.
Proof.
  unfold plain.
  induction a as [|c a IH]; simpl; [reflexivity|].
  rewrite IH. now rewrite andb_assoc.
Qed.

Lemma plain_digits (d : Decimal.uint) : plain (NilEmpty.string_of_uint d) = true.
Proof. induction d; cbn; auto. Qed.

Lemma plain_str_of_int (n : Z) : plain (Py.str_of_int n) = true.
Proof.
  unfold Py.str_of_int, NilZero.string_of_int, NilZero.string_of_uint.
  destruct (Z.to_int n) as [d|d]; destruct d; try reflexivity;
    cbn; exact (plain_digits d).
Qed.

(** A whole line read in time: the result of [query], named. *)
Lemma query_line (s : state) (sr : Serial) (T dt : Q)
    (command text : string) (more : list rx_event) :
  ser s = Some sr -> is_open sr = true -> _timeout s = Some T ->
  Py.all_ascii command = true -> plain text = true ->
  hd [] (replies sr) = bytes_arriving dt (text ++ cr) ++ more ->
  (0 <= dt)%Q -> (seconds (String.length text) dt < T)%Q ->
  exists t, query command s
            = (Ok (Some (Py.slice text 3 (-1))),
               after_query command (Line text) more t sr s).
Proof.
  intros Hser Hopen Htimeout Hcommand Hplain Hline Hdt Htime.
  rewrite (query_unfold s sr T command Hser Hopen Htimeout Hcommand).
  unfold loop_of. rewrite Hline.
  destruct (while_loop_line (clock s + T) dt text (clock s) more Hdt Hplain) as (t & Et);
    [lra|].
  rewrite Et. now exists t.
Qed.

(** X19.  Decimal text goes through.  When the device answers with the
    decimal text of an int [n] of at most 4300 digits, as [format] writes
    it, between a prefix of three characters and one closing character, and
    the line is read in time, the getters [maxspeed], [minspeed] and
    [rampslope] return [n], and [get_position] returns [n] divided by the
    scale. *)
Theorem getters_read_decimal (n : Z) (s : state) (sr : Serial) (T dt : Q)
    (prefix : string) (last : ascii) (more : list rx_event)
    (Hfits : Py.fits n = true)
    (Hser : ser s = Some sr) (Hopen : is_open sr = true)
    (Htimeout : _timeout s = Some T)
    (Hprefix : String.length prefix = 3%nat)
    (Hplain : plain (prefix ++ String last "") = true)
    (Hline : hd [] (replies sr) =
             bytes_arriving dt ((prefix ++ Py.str_of_int n ++ String last "") ++ cr) ++ more)
    (Hdt : (0 <= dt)%Q)
    (Htime : (seconds (String.length (prefix ++ Py.str_of_int n ++ String last "")) dt < T)%Q) :
  fst (maxspeed s) = Ok n /\
  fst (minspeed s) = Ok n /\
  fst (rampslope s) = Ok n /\
  forall u x y, _units_per_um s = Some u -> Float.of_int n = inr x ->
    Float.truediv x u = inr y ->
    fst (get_position s) = Ok (Some y) /\ _pos (snd (get_position s)) = Some y.
Proof.
  assert (Hp : plain (prefix ++ Py.str_of_int n ++ String last "") = true).
  { rewrite plain_app in Hplain. apply andb_prop in Hplain as (H1 & H2).
    now rewrite !plain_app, H1, H2, plain_str_of_int. }
  assert (Hq : forall command, Py.all_ascii command = true ->
            exists s1, query command s = (Ok (Some (Py.str_of_int n)), s1) /\
                       _units_per_um s1 = _units_per_um s).
  { intros command Hc.
    destruct (query_line s sr T dt command _ more Hser Hopen Htimeout Hc Hp Hline Hdt Htime)
      as (t & E).
    rewrite (slice_3_m1 prefix (Py.str_of_int n) last Hprefix) in E.
    eexists. split; [exact E | reflexivity]. }
  assert (Hg : forall command, Py.all_ascii command = true ->
            fst ((reply <- query command ;; int_of_reply reply) s) = Ok n).
  { intros command Hc. destruct (Hq command Hc) as (s1 & E & _).
    unfold bind. rewrite E. unfold int_of_reply.
    now rewrite (int_of_str_of_int n Hfits). }
  split; [exact (Hg "speed"%string eq_refl)|].
  split; [exact (Hg "minspeed"%string eq_refl)|].
  split; [exact (Hg "rampslope"%string eq_refl)|].
  intros u x y Hu Hx Hy. destruct (Hq "WZ"%string eq_refl) as (s1 & E & Hu1).
  rewrite (get_position_parsed s s1 (Py.str_of_int n) n u x y E
             (int_of_str_of_int n Hfits) (eq_trans Hu1 Hu) Hx Hy).
  split; reflexivity.
Qed.

Lemma getters_read_decimal_example :
  fst (maxspeed (plugged 2 [bytes_arriving (1 # 100) (":A -1500 " ++ cr)])) = Ok (-1500).
Proof.
  refine (proj1 (getters_read_decimal (-1500)
            (plugged 2 [bytes_arriving (1 # 100) (":A -1500 " ++ cr)])
            (serial_object (Some "COM1"%string) [bytes_arriving (1 # 100) (":A -1500 " ++ cr)])
            2 (1 # 100) ":A "%string " "%char [] eq_refl eq_refl eq_refl eq_refl eq_refl
            eq_refl eq_refl _ _)).
  - vm_compute. discriminate.
  - vm_compute. reflexivity.
Defined.

(* ===================================================================== *)
(** ** The setters on floats *)
(* ===================================================================== *)

Lemma cut_towards_zero (sg : bool) (m : positive) (e : Z) (q : Q) :
  Float.to_Q (S754_finite sg m e) = Some q ->
  let n := cond_Zopp sg (Qfloor (inject_Z (Zpos m) * (2 # 1) ^ e)%Q) in
  ((0 <= q)%Q -> (inject_Z n <= q)%Q /\ (q < inject_Z n + 1)%Q) /\
  ((q <= 0)%Q -> (inject_Z n - 1 < q)%Q /\ (q <= inject_Z n)%Q).
Proof.
  intros Hq. cbv zeta.
  destruct (to_Q_finite sg m e) as (q' & Hq' & E). rewrite Hq in Hq'.
  injection Hq' as <-. change ((2 # 1) ^ e)%Q with (B e).
  set (a := (inject_Z (Z.pos m) * B e)%Q) in *.
  assert (Ha : (0 < a)%Q).
  { unfold a. apply Qmult_lt_0_compat; [reflexivity | apply B_pos]. }
  pose proof (Qfloor_le a) as H1. pose proof (Qlt_floor a) as H2.
  rewrite inject_Z_plus in H2. change (inject_Z 1) with 1%Q in H2.
  pose proof (inject_cond_Zopp sg (Qfloor a)) as En.
  destruct sg; cbn [signed] in E, En; split; intros H; lra.
Qed.

(** X20.  The setters of [maxspeed], [minspeed] and [rampslope] given a
    float.  [int(v)] comes first: a NaN raises [ValueError] and an infinity
    [OverflowError] before anything is logged or written; a finite float
    is cut towards zero and the setter then does what it does on that int,
    so the range is checked on the cut value. *)
Theorem setters_cut_floats (s : state) :
  (set_maxspeed (Flt S754_nan) s = (Raise ValueError, s) /\
   set_minspeed (Flt S754_nan) s = (Raise ValueError, s) /\
   set_rampslope (Flt S754_nan) s = (Raise ValueError, s)) /\
  (forall sg,
   set_maxspeed (Flt (S754_infinity sg)) s = (Raise OverflowError, s) /\
   set_minspeed (Flt (S754_infinity sg)) s = (Raise OverflowError, s) /\
   set_rampslope (Flt (S754_infinity sg)) s = (Raise OverflowError, s)) /\
  (forall v q, Float.to_Q v = Some q ->
   exists n,
     ((0 <= q)%Q -> (inject_Z n <= q)%Q /\ (q < inject_Z n + 1)%Q) /\
     ((q <= 0)%Q -> (inject_Z n - 1 < q)%Q /\ (q <= inject_Z n)%Q) /\
     set_maxspeed (Flt v) s = set_maxspeed (Int n) s /\
     set_minspeed (Flt v) s = set_minspeed (Int n) s /\
     set_rampslope (Flt v) s = set_rampslope (Int n) s).
Proof.
  split; [repeat split|]. split; [intros sg; repeat split|].
  intros [sg|sg| |sg m e] q Hq; try discriminate.
  - injection Hq as <-. exists 0.
    change (inject_Z 0) with 0%Q.
    split; [intros _; split; lra|]. split; [intros _; split; lra|]. repeat split.
  - exists (cond_Zopp sg (Qfloor (inject_Z (Zpos m) * (2 # 1) ^ e)%Q)).
    destruct (cut_towards_zero sg m e q Hq) as (H1 & H2).
    split; [exact H1|]. split; [exact H2|]. repeat split.
Qed.

(* ===================================================================== *)
(** ** The moves on the line *)
(* ===================================================================== *)

Lemma wire_move_tail (reply : option string) (s : state) :
  wire (snd (((if truthy reply
               then m <- unexpected_message reply ;; logger WARNING m []
               else ret tt) ;;
              modify (with_moved_since_last_read true)) s)) = wire s.
Proof. destruct reply as [[|c r]|]; reflexivity. Qed.

(** X21.  What the moves write.  With [n] the device units of the length,
    [absmove] writes [MZ n], [relmove] writes [RZ n] and
    [redefine_position] writes [HZ n], each once and followed by a carriage
    return, whatever the device answers.  When the conversion fails (no
    scale, or a product that is not a number) the same exception leaves
    the method and nothing is written. *)
Theorem moves_on_the_line (um : Float.float) (s : state) (Hc : connected s) :
  (forall n, device_units um s = (Ok n, s) ->
     wire (snd (absmove um s)) = wire s ++ [("MZ " ++ Py.str_of_int n) ++ cr]%string /\
     wire (snd (relmove um s)) = wire s ++ [("RZ " ++ Py.str_of_int n) ++ cr]%string /\
     wire (snd (redefine_position um s))
       = wire s ++ [("HZ " ++ Py.str_of_int n) ++ cr]%string) /\
  (forall e, fst (device_units um s) = Raise e ->
     absmove um s = (Raise e, s) /\ relmove um s = (Raise e, s) /\
     fst (redefine_position um s) = Raise e /\
     wire (snd (redefine_position um s)) = wire s).
Proof.
  split.
  - intros n Hn. split; [|split].
    + unfold absmove. unfold bind at 1. rewrite Hn.
      apply wire_query_then; [exact Hc | now apply all_ascii_numbered |].
      intros r s1. apply wire_move_tail.
    + unfold relmove. unfold bind at 1. rewrite Hn.
      apply wire_query_then; [exact Hc | now apply all_ascii_numbered |].
      intros r s1. apply wire_move_tail.
    + unfold redefine_position. unfold bind at 1. unfold logger at 1, modify at 1.
      set (s0 := with_log _ s).
      assert (Hn0 : device_units um s0 = (Ok n, s0)).
      { revert Hn. cbv beta iota delta [device_units bind attr lift ret raise].
        change (_units_per_um s0) with (_units_per_um s).
        destruct (_units_per_um s) as [u|]; [|discriminate].
        destruct (Float.round (Float.mul um u)); [discriminate|].
        intros H. now injection H as ->. }
      unfold bind at 1. rewrite Hn0.
      change (wire s) with (wire s0).
      apply wire_query_then;
        [apply connected_with_log; exact Hc | now apply all_ascii_numbered |].
      intros r s1. reflexivity.
  - intros e He.
    assert (Hd : device_units um s = (Raise e, s)).
    { rewrite <- (device_units_state um s) at 2. rewrite <- He.
      now destruct (device_units um s). }
    split; [unfold absmove, bind; now rewrite Hd|].
    split; [unfold relmove, bind; now rewrite Hd|].
    set (s0 := with_log (log s ++ [{| levelname := DEBUG;
                                      msg := "redefining the current position to {}um";
                                      args := [ANum (Flt um)] |}]) s).
    assert (Hd0 : device_units um s0 = (Raise e, s0)).
    { revert Hd. cbv beta iota delta [device_units bind attr lift ret raise].
      change (_units_per_um s0) with (_units_per_um s).
      destruct (_units_per_um s) as [u|].
      - destruct (Float.round (Float.mul um u)); [|discriminate].
        intros H. now injection H as ->.
      - intros H. now injection H as ->. }
    assert (E : redefine_position um s = (Raise e, s0)).
    { unfold redefine_position. unfold bind at 1. unfold logger at 1, modify at 1.
      fold s0. unfold bind. now rewrite Hd0. }
    rewrite E. split; reflexivity.
Qed.

Lemma moves_on_the_line_example :
  wire (snd (relmove twelve_34 bench)) = wire bench ++ ["RZ 1234" ++ cr]%string.
Proof.
  destruct (moves_on_the_line twelve_34 bench bench_connected) as (H & _).
  destruct (H 1234 ltac:(vm_compute; reflexivity)) as (_ & H2 & _).
  exact H2.
Defined.

(* ===================================================================== *)
(** ** The clamping setters on every input (C6) *)
(* ===================================================================== *)

(** A setter starts with [int(v)] and goes on with the int. *)
Lemma clamped_send_cut lo hi too_low too_high token (v : num) (n : Z) (s : state) :
  int_of_num v s = (Ok n, s) ->
  clamped_send lo hi too_low too_high token v s
  = clamped_send lo hi too_low too_high token (Int n) s.
Proof.
  intros H. unfold clamped_send. unfold bind at 1. rewrite H.
  unfold bind at 3. reflexivity.
Qed.

(** The floats 60000.9 and 100.7 on the bench: the first is above the range
    of [maxspeed] and is sent as 60000 with no warning, the log gaining
    only the DEBUG record of [query]; the second is within the range and is
    sent as 100. *)
Lemma a_speed_of_60000_9_is_cut_in_silence :
  Float.to_Q (S754_finite false 8246460903378125 (-37))
    = Some (8246460903378125 # 137438953472)%Q /\
  (6000089 # 100 < 8246460903378125 # 137438953472)%Q /\
  (8246460903378125 # 137438953472 < 6000091 # 100)%Q /\
  wire (snd (set_maxspeed (Flt (S754_finite false 8246460903378125 (-37))) bench))
    = wire bench ++ ["speed 60000" ++ cr]%string /\
  log (snd (set_maxspeed (Flt (S754_finite false 8246460903378125 (-37))) bench))
    = log bench ++ [{| levelname := DEBUG; msg := ":A 1234 "; args := [] |}] /\
  wire (snd (set_maxspeed (Flt (S754_finite false 7086132538690765 (-46))) bench))
    = wire bench ++ ["speed 100" ++ cr]%string.
Proof.
  split; [reflexivity|]. split; [reflexivity|]. split; [reflexivity|].
  split; [|split]; vm_compute; reflexivity.
Qed.

(** C6, as the code has it.  On a connected instance the setters of
    [maxspeed], [minspeed] and [rampslope] first take [int(v)]: an int is
    itself, a finite float is cut towards zero.  It is this int [n] that is
    clamped, to 50..60000 for the speeds and to 1..255 for the slope: below
    the range the lower bound is sent and a warning is logged, above it the
    upper bound and a warning, within it [n] itself and no warning.  So 10
    is sent as 50, 999999 as 60000, and for the slope 0 as 1 and 300 as
    255, each with a warning; a float is judged by its cut: what lies
    less than one above the range is sent as the upper bound without a
    warning. *)
Theorem setters_clamp (s : state) (H : connected s) :
  (forall v n, int_of_num v s = (Ok n, s) ->
     clamped 50 60000 "minimum speed is 50" "maximum speed is 60000"
       "speed " n s (snd (set_maxspeed v s)) /\
     clamped 50 60000 "minimum speed is 50" "maximum speed is 60000"
       "minspeed " n s (snd (set_minspeed v s)) /\
     clamped 1 255 "minimum acceleration is 1" "maximum acceleration is  255"
       "rampslope " n s (snd (set_rampslope v s))) /\
  (forall n, int_of_num (Int n) s = (Ok n, s)) /\
  (forall f q, Float.to_Q f = Some q ->
     exists n, int_of_num (Flt f) s = (Ok n, s) /\
       ((0 <= q)%Q -> (inject_Z n <= q)%Q /\ (q < inject_Z n + 1)%Q) /\
       ((q <= 0)%Q -> (inject_Z n - 1 < q)%Q /\ (q <= inject_Z n)%Q)) /\
  wire (snd (set_maxspeed (Int 10) s)) = wire s ++ ["speed 50" ++ cr]%string /\
  wire (snd (set_maxspeed (Int 999999) s)) = wire s ++ ["speed 60000" ++ cr]%string /\
  wire (snd (set_rampslope (Int 0) s)) = wire s ++ ["rampslope 1" ++ cr]%string /\
  wire (snd (set_rampslope (Int 300) s)) = wire s ++ ["rampslope 255" ++ cr]%string.
Proof.
  assert (Hall : forall v n, int_of_num v s = (Ok n, s) ->
     clamped 50 60000 "minimum speed is 50" "maximum speed is 60000"
       "speed " n s (snd (set_maxspeed v s)) /\
     clamped 50 60000 "minimum speed is 50" "maximum speed is 60000"
       "minspeed " n s (snd (set_minspeed v s)) /\
     clamped 1 255 "minimum acceleration is 1" "maximum acceleration is  255"
       "rampslope " n s (snd (set_rampslope v s))).
  { intros v n Hn.
    rewrite set_maxspeed_shape, set_minspeed_shape, set_rampslope_shape.
    rewrite !(clamped_send_cut _ _ _ _ _ v n s Hn).
    split; [|split]; apply clamped_send_spec; try lia; try exact H; reflexivity. }
  split; [exact Hall|]. split; [reflexivity|]. split.
  { intros [sg|sg| |sg m e] q Hq; try discriminate.
    - injection Hq as <-. exists 0. split; [reflexivity|].
      change (inject_Z 0) with 0%Q. split; intros _; split; lra.
    - exists (cond_Zopp sg (Qfloor (inject_Z (Zpos m) * (2 # 1) ^ e)%Q)).
      split; [reflexivity|]. exact (cut_towards_zero sg m e q Hq). }
  repeat split.
  - exact (proj1 (proj1 (Hall (Int 10) 10 eq_refl))).
  - exact (proj1 (proj1 (Hall (Int 999999) 999999 eq_refl))).
  - exact (proj1 (proj2 (proj2 (Hall (Int 0) 0 eq_refl)))).
  - exact (proj1 (proj2 (proj2 (Hall (Int 300) 300 eq_refl)))).
Qed.

Lemma setters_clamp_on_the_bench :
  connected bench /\
  wire (snd (set_maxspeed (Int 10) bench)) = wire bench ++ ["speed 50" ++ cr]%string /\
  wire (snd (set_rampslope (Int 300) bench)) = wire bench ++ ["rampslope 255" ++ cr]%string /\
  clamped 1 255 "minimum acceleration is 1" "maximum acceleration is  255" "rampslope "
    255 bench
    (snd (set_rampslope (Flt (S754_finite false 9003680817532109 (-45))) bench)).
Proof.
  split; [exact bench_connected|].
  pose proof (setters_clamp bench bench_connected) as (Hall & _ & _ & H10 & _ & _ & H300).
  split; [exact H10|]. split; [exact H300|].
  exact (proj2 (proj2 (Hall (Flt (S754_finite false 9003680817532109 (-45))) 255
                         ltac:(vm_compute; reflexivity)))).
Defined.
